(** * CHAT-SYSTEM: the server's client registry, connection protocol,
      message splitting, broadcaster and shutdown monitor, and the client's
      message history, embedded from the C sources.

    Conventions of the embedding.
    - A C [int], [long] or [pthread_t] is a [Z]; every value that occurs stays
      far inside the 32-bit range, so no wrap-around is involved.
    - A NUL-terminated C string held in a [char] array is the list of the
      characters that precede its terminating NUL ([cstring]); the characters
      of such a list are therefore never NUL.
    - A fixed-size C array is a list; [aget a i] reads slot [i] and
      [aset a i v] writes it.
    - Pointers handed around ([sharedDataP], [clientIP], ...) are always valid
      in the callers under study, so the [NULL] guards of the C functions are
      not taken. *)

From Stdlib Require Import ZArith Ascii String Lia.
From stdpp Require Import base tactics option list numbers.

Local Open Scope Z_scope.

(* ===================================================================== *)
(** ** libc string functions on [cstring] *)
(* ===================================================================== *)

Definition cstring := list ascii.

Definition lit (s : string) : cstring := list_ascii_of_string s.

Definition NUL : ascii := Ascii.zero.

Definition char_code (c : ascii) : Z := Z.of_N (N_of_ascii c).

(** [isspace] in the "C" locale: space, and the control characters
    [\t \n \v \f \r] (codes 9 to 13). *)
Definition isspace (c : ascii) : bool :=
  (char_code c =? 32) || ((9 <=? char_code c) && (char_code c <=? 13)).

Definition strlen (s : cstring) : Z := Z.of_nat (length s).

(** [s[i]] for [0 <= i <= strlen s]: the terminating NUL is read at
    [i = strlen s]. *)
Definition char_at (s : cstring) (i : nat) : ascii := nth i s NUL.

(** [strncmp s1 s2 n]: only the sign of the result is specified by C. *)
Fixpoint strncmp (s1 s2 : cstring) (n : nat) {struct n} : Z :=
  match n with
  | O => 0
  | S k =>
      match s1, s2 with
      | [], [] => 0
      | [], _ :: _ => -1
      | _ :: _, [] => 1
      | c1 :: r1, c2 :: r2 =>
          if char_code c1 <? char_code c2 then -1
          else if char_code c2 <? char_code c1 then 1
          else strncmp r1 r2 k
      end
  end.

(** [strncpy(dst, src, n); dst[n] = '\0';] leaves in [dst] the string made of
    the first [n] characters of [src] (all of [src] when it is shorter: the
    padding NULs end the string earlier). *)
Definition strncpy_terminated (src : cstring) (n : Z) : cstring :=
  take (Z.to_nat n) src.

(* ===================================================================== *)
(** ** common/inc/commonMessaging.h *)
(* ===================================================================== *)

Definition CLIENT_IP_LENGTH : Z := 15.
Definition CLIENT_USERID_LENGTH : Z := 5.
Definition BROADCAST_MESSAGE_LENGTH : Z := 40.
Definition CLIENT_MESSAGE_LENGTH : Z := 80.
Definition MAX_BROADCASTS_PER_MSG : Z := 2.

Record Broadcast := mkBroadcast {
  bcIP : cstring;        (* char clientIP[CLIENT_IP_LENGTH + 1] *)
  bcUserID : cstring;    (* char clientUserID[CLIENT_USERID_LENGTH + 1] *)
  bcMessage : cstring    (* char message[BROADCAST_MESSAGE_LENGTH + 1] *)
}.

Record ClientMessage := mkClientMessage {
  cmUserID : cstring;    (* char clientUserID[CLIENT_USERID_LENGTH + 1] *)
  cmMessage : cstring    (* char message[CLIENT_MESSAGE_LENGTH + 1] *)
}.

Definition dquote : ascii := ascii_of_nat 34.

(** [broadcastToJson]: the [sprintf] format
    [{"clientIP":"%s","clientUserID":"%s","message":"%s"}]. *)
Definition broadcastToJson (b : Broadcast) : cstring :=
  lit "{" ++ [dquote] ++ lit "clientIP" ++ [dquote] ++ lit ":" ++ [dquote]
    ++ bcIP b ++ [dquote] ++ lit "," ++ [dquote] ++ lit "clientUserID"
    ++ [dquote] ++ lit ":" ++ [dquote] ++ bcUserID b ++ [dquote] ++ lit ","
    ++ [dquote] ++ lit "message" ++ [dquote] ++ lit ":" ++ [dquote]
    ++ bcMessage b ++ [dquote] ++ lit "}".

(* ===================================================================== *)
(** ** chat-server/inc/serverIPC.h and chat-server/src/serverIPC.c *)
(* ===================================================================== *)

Definition MAX_CLIENTS : Z := 10.
Definition SUCCESS : Z := 0.
Definition ENTRY_NOT_FOUND_OR_NULL : Z := -1.
Definition TOO_MANY_CLIENTS : Z := -2.

Record ClientState := mkClientState {
  threadID : Z;
  clientIP : cstring;       (* char clientIP[CLIENT_IP_LENGTH + 1] *)
  clientUserID : cstring;   (* char clientUserID[CLIENT_USERID_LENGTH + 1] *)
  clientSocket : Z
}.

(** The [pthread_mutex_t] member carries no data of its own here: taking and
    releasing it shows up as events of the server's trace (see below). *)
Record SharedData := mkSharedData {
  msgQueueID : Z;
  serverSocket : Z;
  numClients : Z;
  serverIsRunning : Z;
  connectedClients : list ClientState   (* ClientState [MAX_CLIENTS] *)
}.

(** A slot whose strings are empty and whose numbers are zero. *)
Definition emptyClient : ClientState := mkClientState 0 [] [] 0.

#[global] Instance ClientState_inhabited : Inhabited ClientState :=
  populate emptyClient.

(** Array read [a[i]] and array write [a[i] = v]. *)
Definition aget (a : list ClientState) (i : Z) : ClientState :=
  a !!! Z.to_nat i.
Definition aset (a : list ClientState) (i : Z) (v : ClientState)
  : list ClientState := <[Z.to_nat i := v]> a.

Definition with_numClients (n : Z) (sd : SharedData) : SharedData :=
  mkSharedData (msgQueueID sd) (serverSocket sd) n (serverIsRunning sd)
    (connectedClients sd).
Definition with_connectedClients (cc : list ClientState) (sd : SharedData)
  : SharedData :=
  mkSharedData (msgQueueID sd) (serverSocket sd) (numClients sd)
    (serverIsRunning sd) cc.
Definition with_serverIsRunning (r : Z) (sd : SharedData) : SharedData :=
  mkSharedData (msgQueueID sd) (serverSocket sd) (numClients sd) r
    (connectedClients sd).

(** [initSharedMemory]: counters reset, every slot cleared. *)
Definition initSharedMemory (msgQID srvSocket : Z) : SharedData :=
  mkSharedData msgQID srvSocket 0 1
    (replicate (Z.to_nat MAX_CLIENTS) emptyClient).

(** The loop shape shared by the two lookups:
    [for (i = from; i < bound; i++) if (test i) { found = i; break; }]
    with [found] initialised to [ENTRY_NOT_FOUND_OR_NULL]; [iters] is the
    number of iterations left, [bound - from]. *)
Fixpoint findIndexFrom (test : Z -> bool) (i : Z) (iters : nat) : Z :=
  match iters with
  | O => ENTRY_NOT_FOUND_OR_NULL
  | S k => if test i then i else findIndexFrom test (i + 1) k
  end.

Definition findThreadIDInList (tid : Z) (sd : SharedData) : Z :=
  findIndexFrom
    (fun i => threadID (aget (connectedClients sd) i) =? tid)
    0 (Z.to_nat (numClients sd)).

Definition findUserInList (ip uid : cstring) (sd : SharedData) : Z :=
  findIndexFrom
    (fun i =>
       (strncmp (clientIP (aget (connectedClients sd) i)) ip
          (Z.to_nat CLIENT_IP_LENGTH) =? 0)
       && (strncmp (clientUserID (aget (connectedClients sd) i)) uid
             (Z.to_nat CLIENT_USERID_LENGTH) =? 0))
    0 (Z.to_nat (numClients sd)).

(** Field writes to one slot of the array. *)
Definition set_clientIP (s : cstring) (c : ClientState) : ClientState :=
  mkClientState (threadID c) s (clientUserID c) (clientSocket c).
Definition set_clientUserID (s : cstring) (c : ClientState) : ClientState :=
  mkClientState (threadID c) (clientIP c) s (clientSocket c).
Definition set_clientSocket (s : Z) (c : ClientState) : ClientState :=
  mkClientState (threadID c) (clientIP c) (clientUserID c) s.
Definition set_threadID (t : Z) (c : ClientState) : ClientState :=
  mkClientState t (clientIP c) (clientUserID c) (clientSocket c).

(** [addToList]: returns the status and the updated shared data.  The two
    [sizeof(...) - 1] are [CLIENT_IP_LENGTH] and [CLIENT_USERID_LENGTH]. *)
Definition addToList (tid : Z) (ip uid : cstring) (sock : Z) (sd : SharedData)
  : Z * SharedData :=
  let currentIndex := numClients sd in
  if currentIndex <? MAX_CLIENTS then
    let cc := connectedClients sd in
    let cc := aset cc currentIndex
      (set_clientIP (strncpy_terminated ip CLIENT_IP_LENGTH)
         (aget cc currentIndex)) in
    let cc := aset cc currentIndex
      (set_clientUserID (strncpy_terminated uid CLIENT_USERID_LENGTH)
         (aget cc currentIndex)) in
    let cc := aset cc currentIndex
      (set_clientSocket sock (aget cc currentIndex)) in
    let cc := aset cc currentIndex (set_threadID tid (aget cc currentIndex)) in
    (SUCCESS, with_numClients (numClients sd + 1) (with_connectedClients cc sd))
  else (TOO_MANY_CLIENTS, sd).

(** [for (i = entryIndex; i < numClients; i++) a[i] = a[i+1];] *)
Fixpoint shiftLeft (a : list ClientState) (i : Z) (iters : nat)
  : list ClientState :=
  match iters with
  | O => a
  | S k => shiftLeft (aset a i (aget a (i + 1))) (i + 1) k
  end.

(** The four writes that clean up the straggler slot. *)
Definition clearSlot (c : ClientState) : ClientState :=
  set_clientSocket 0 (set_threadID 0 (set_clientUserID [] (set_clientIP [] c))).

(** [removeFromList]: returns the C return value and the updated shared
    data. *)
Definition removeFromList (entryIndex : Z) (sd : SharedData)
  : Z * SharedData :=
  if negb (entryIndex =? ENTRY_NOT_FOUND_OR_NULL) then
    let n := numClients sd - 1 in
    let cc := shiftLeft (connectedClients sd) entryIndex
                (Z.to_nat (n - entryIndex)) in
    let cc := if n <? MAX_CLIENTS then aset cc n (clearSlot (aget cc n))
              else cc in
    (entryIndex, with_numClients n (with_connectedClients cc sd))
  else (ENTRY_NOT_FOUND_OR_NULL, sd).

(** The entries that count as registered: the first [numClients] slots. *)
Definition registered (sd : SharedData) : list ClientState :=
  take (Z.to_nat (numClients sd)) (connectedClients sd).

(** Shape of a registry as the C declarations and [addToList] keep it: the
    counter within the array, the array of [MAX_CLIENTS] slots, every string
    within its [char] array. *)
Definition fits (c : ClientState) : Prop :=
  strlen (clientIP c) <= CLIENT_IP_LENGTH
  /\ strlen (clientUserID c) <= CLIENT_USERID_LENGTH.

Record registry_wf (sd : SharedData) : Prop := {
  wf_count : 0 <= numClients sd <= MAX_CLIENTS;
  wf_slots : Z.of_nat (length (connectedClients sd)) = MAX_CLIENTS;
  wf_fits : Forall fits (connectedClients sd)
}.

(** The four field writes of [addToList] leave one fully determined entry in
    the slot. *)
Definition newEntry (tid : Z) (ip uid : cstring) (sock : Z) : ClientState :=
  mkClientState tid (strncpy_terminated ip CLIENT_IP_LENGTH)
    (strncpy_terminated uid CLIENT_USERID_LENGTH) sock.

(* ===================================================================== *)
(** ** The server's world: shared data, message queue, sockets, trace *)
(* ===================================================================== *)

(** What the server does to the outside, in the order it does it. *)
Inductive Event :=
| EvLock                                   (* pthread_mutex_lock(&sharedDataP->mutex) *)
| EvUnlock                                 (* pthread_mutex_unlock(&sharedDataP->mutex) *)
| EvSend (sock : Z) (payload : cstring)    (* send(sock, payload, strlen(payload), 0) *)
| EvClose (sock : Z)                       (* close(sock) on a client socket *)
| EvCloseServerSocket (sock : Z)           (* closeServerSocket(sock) *)
| EvAccept (sock : Z)                      (* accept(serverSocket, ..) gave sock, kept in newClient *)
| EvSpawnHandler                           (* pthread_create(.., clientHandler, &newClient) *)
| EvSpawnMonitor                           (* pthread_create(.., clientConnectionMonitor, ..) *)
| EvSpawnBroadcaster.                      (* pthread_create(.., chatBroadcaster, ..) *)

Record World := mkWorld {
  shared : SharedData;          (* the shared memory segment *)
  queue : list Broadcast;       (* the System V message queue, oldest first *)
  queueRemoved : bool;          (* the queue has been removed (IPC_RMID) *)
  listening : bool;             (* the listening socket is open *)
  trace : list Event
}.

Definition initWorld (msgQID srvSocket : Z) : World :=
  mkWorld (initSharedMemory msgQID srvSocket) [] false true [].

(** Code that reads and changes the world and returns a value. *)
Definition M (A : Type) : Type := World -> A * World.

Definition ret {A} (a : A) : M A := fun w => (a, w).
Definition bind {A B} (m : M A) (f : A -> M B) : M B :=
  fun w => let (a, w') := m w in f a w'.

Notation "'do' x <- m ; k" := (bind m (fun x => k))
  (at level 10, x name, m at level 100, k at level 200).
Notation "m >> k" := (bind m (fun _ => k))
  (at level 90, right associativity, only parsing).

Definition getShared : M SharedData := fun w => (shared w, w).
Definition putShared (sd : SharedData) : M unit :=
  fun w => (tt, mkWorld sd (queue w) (queueRemoved w) (listening w) (trace w)).
Definition emit (e : Event) : M unit :=
  fun w => (tt, mkWorld (shared w) (queue w) (queueRemoved w) (listening w)
                  (trace w ++ [e])).

Definition lock : M unit := emit EvLock.
Definition unlock : M unit := emit EvUnlock.
Definition close (sock : Z) : M unit := emit (EvClose sock).

(** [closeServerSocket]: [shutdown] then [close] of the listening socket. *)
Definition closeServerSocket (sock : Z) : M unit :=
  fun w => (tt, mkWorld (shared w) (queue w) (queueRemoved w) false
                  (trace w ++ [EvCloseServerSocket sock])).

(** [msgsnd] with flag 0 appends to the queue; it fails once the queue is
    gone. *)
Definition msgsnd (b : Broadcast) : M Z :=
  fun w =>
    if queueRemoved w then (-1, w)
    else (0, mkWorld (shared w) (queue w ++ [b]) (queueRemoved w)
               (listening w) (trace w)).

(** [msgrcv] with [IPC_NOWAIT]: the oldest message, or [ENOMSG] on an empty
    queue, or another error once the queue is gone. *)
Inductive MsgRcv :=
| Received (b : Broadcast)
| NoMessage
| RcvError.

Definition msgrcv : M MsgRcv :=
  fun w =>
    if queueRemoved w then (RcvError, w)
    else match queue w with
         | [] => (NoMessage, w)
         | b :: q => (Received b,
                      mkWorld (shared w) q (queueRemoved w) (listening w)
                        (trace w))
         end.

(** [accept] on the listening socket.  [pending] is what the call gives
    while the socket is open: the descriptor of the connection of a client,
    or a negative number when the call fails for a reason of its own.  On a
    socket that has been shut down the call fails. *)
Definition accept (pending : Z) : M Z :=
  fun w => if listening w then (pending, w) else (-1, w).

(** The registry operations, run on the shared data of the world. *)
Definition addToListM (tid : Z) (ip uid : cstring) (sock : Z) : M Z :=
  do sd <- getShared;
  let (r, sd') := addToList tid ip uid sock sd in
  putShared sd' >> ret r.

Definition removeFromListM (entryIndex : Z) : M Z :=
  do sd <- getShared;
  let (r, sd') := removeFromList entryIndex sd in
  putShared sd' >> ret r.

(* ===================================================================== *)
(** ** chat-server/inc/chatServer.h and chat-server/src/chatServer.c *)
(* ===================================================================== *)

Definition RUNNING : Z := 1.
Definition STOPPING : Z := 0.
Definition SOCKET_ERROR : Z := -1.
Definition THREAD_ERROR : Z := -3.

Definition MESSAGE_PROCESS_QUIT : Z := 1.
Definition MESSAGE_PROCESS_SUCCESS : Z := 0.
Definition MESSAGE_PROCESS_FAILED : Z := -1.
Definition REGISTRATION_FAILED : Z := -2.

Definition IS_REGISTRATION : Z := 1.
Definition IS_MESSAGE : Z := 0.
Definition SERVER_REGISTRATION_MSG : cstring := lit ">>hello<<".
Definition SERVER_QUIT_MSG : cstring := lit ">>bye<<".
Definition SERVER_REGISTRATION_SUCCESS_MSG : cstring := lit ">>success<<".
Definition SERVER_REGISTRATION_FAIL_MSG : cstring := lit ">>failed<<".

(** [sizeof] of a string literal counts its terminating NUL. *)
Definition sizeof_lit (s : cstring) : Z := strlen s + 1.

(** [isWhitespace]: 1 when every character is white space (also for the
    empty string), 0 otherwise. *)
Fixpoint isWhitespace (str : cstring) : Z :=
  match str with
  | [] => 1
  | c :: r => if negb (isspace c) then 0 else isWhitespace r
  end.

(** The backward scan of [splitString],
    [for (i = index; i >= 0; i--) if (isspace(input[i])) { splitPoint = i; break; }],
    with [splitPoint] initialised to -1; [k] is [i + 1]. *)
Fixpoint scanBackward (input : cstring) (k : nat) : Z :=
  match k with
  | O => -1
  | S i => if isspace (char_at input i) then Z.of_nat i
           else scanBackward input i
  end.

(** [while (isspace(input[splitPoint]) && splitPoint < inputLen) splitPoint++;]
    where [left] is [inputLen - splitPoint]: the second conjunct of the guard
    holds exactly while [left] is not zero. *)
Fixpoint skipSpaces (input : cstring) (splitPoint : nat) (left : nat) : nat :=
  match left with
  | O => splitPoint
  | S k => if isspace (char_at input splitPoint)
           then skipSpaces input (S splitPoint) k
           else splitPoint
  end.

(** [splitString]: the two output buffers.  The C code is called with
    [strlen input > maxSize] only; with a shorter input it would hand a
    negative length to [strncpy]. *)
Definition splitString (input : cstring) (maxSize : Z) : cstring * cstring :=
  let inputLen := strlen input in
  let splitPoint := -1 in
  let splitPoint :=
    if inputLen >? maxSize then scanBackward input (Z.to_nat maxSize)
    else splitPoint in
  let splitPoint :=
    if (splitPoint =? -1) || (inputLen - splitPoint >=? maxSize - 1)
    then maxSize else splitPoint in
  let firstPart := strncpy_terminated input splitPoint in
  let splitPoint :=
    Z.of_nat (skipSpaces input (Z.to_nat splitPoint)
                (Z.to_nat (inputLen - splitPoint))) in
  let secondPart :=
    strncpy_terminated (drop (Z.to_nat splitPoint) input)
      (inputLen - splitPoint) in
  (firstPart, secondPart).

(** The texts of the broadcasts that [sendMessageToQueue] builds from one
    client message: one, or the two parts of the split. *)
Definition broadcastTexts (message : cstring) : list cstring :=
  let numMessages := if strlen message >? BROADCAST_MESSAGE_LENGTH then 2 else 1 in
  if numMessages =? 2 then
    let (firstPart, secondPart) := splitString message BROADCAST_MESSAGE_LENGTH in
    [firstPart; secondPart]
  else [strncpy_terminated message BROADCAST_MESSAGE_LENGTH].

Section Server.

(** What [send] returns for a socket and a payload: the number of bytes
    sent, or -1.  The server never looks at it.  This is a call of [send]
    that returns; the calls that do not (the signal SIGPIPE, a full buffer)
    are those of [SendOutcome], further down. *)
Variable send_result : Z -> cstring -> Z.

Definition send (sock : Z) (payload : cstring) : M Z :=
  emit (EvSend sock payload) >> ret (send_result sock payload).

(** [sendServerMessage]: the broadcast has empty origin fields; the message
    array is zero-initialised, so after the [strncpy] it holds the server
    message (every server message is shorter than the array). *)
Definition sendServerMessage (clientSocket : Z) (serverMessage : cstring)
  : M unit :=
  let serverBroadcast :=
    mkBroadcast [] []
      (take (Z.to_nat (BROADCAST_MESSAGE_LENGTH + 1)) serverMessage) in
  let broadcastJSON := broadcastToJson serverBroadcast in
  send clientSocket broadcastJSON >> ret tt.

(** The loop of [sendMessageToQueue] over the broadcasts; [retVal] becomes
    [MESSAGE_PROCESS_FAILED] when a [msgsnd] fails. *)
Fixpoint enqueueAll (clientIP uid : cstring) (texts : list cstring)
    (retVal : Z) : M Z :=
  match texts with
  | [] => ret retVal
  | t :: rest =>
      do sent <- msgsnd (mkBroadcast
                           (strncpy_terminated clientIP CLIENT_IP_LENGTH)
                           (strncpy_terminated uid CLIENT_USERID_LENGTH) t);
      let retVal := if sent =? -1 then MESSAGE_PROCESS_FAILED else retVal in
      enqueueAll clientIP uid rest retVal
  end.

Definition sendMessageToQueue (clientIP : cstring) (clientMessageP : ClientMessage)
  : M Z :=
  enqueueAll clientIP (cmUserID clientMessageP)
    (broadcastTexts (cmMessage clientMessageP)) SUCCESS.

(** [processMessage].  [tid] is [pthread_self()]; [numBytesRead] is what
    [read] returned and [clientMessage] what [jsonToClientMessage] made of
    the buffer. *)
Definition processMessage (tid clientSocket : Z) (clientIP : cstring)
    (isRegistration : Z) (numBytesRead : Z) (clientMessage : ClientMessage)
  : M Z :=
  if (numBytesRead =? -1)
     || (strlen (cmUserID clientMessage) =? 0)
     || (isWhitespace (cmUserID clientMessage) =? 1)
  then
    (if negb (isRegistration =? 0)
     then sendServerMessage clientSocket SERVER_REGISTRATION_FAIL_MSG
     else ret tt)
    >> ret MESSAGE_PROCESS_FAILED
  else if negb (isRegistration =? 0) then
    lock >>
    do sd <- getShared;
    let foundIndex := findUserInList clientIP (cmUserID clientMessage) sd in
    do retVal <-
      (if (strncmp (cmMessage clientMessage) SERVER_REGISTRATION_MSG
             (Z.to_nat (sizeof_lit SERVER_REGISTRATION_MSG)) =? 0)
          && (foundIndex =? ENTRY_NOT_FOUND_OR_NULL)
       then
         do added <- addToListM tid clientIP (cmUserID clientMessage)
                       clientSocket;
         if added =? TOO_MANY_CLIENTS then ret MESSAGE_PROCESS_FAILED
         else sendServerMessage clientSocket SERVER_REGISTRATION_SUCCESS_MSG
              >> ret MESSAGE_PROCESS_SUCCESS
       else
         sendServerMessage clientSocket SERVER_REGISTRATION_FAIL_MSG
         >> ret REGISTRATION_FAILED);
    unlock >> ret retVal
  else
    lock >>
    do retVal <-
      (if strncmp (cmMessage clientMessage) SERVER_QUIT_MSG
            (Z.to_nat (sizeof_lit SERVER_QUIT_MSG)) =? 0
       then
         do sd <- getShared;
         let clientIndex := findThreadIDInList tid sd in
         removeFromListM clientIndex >> ret MESSAGE_PROCESS_QUIT
       else
         sendMessageToQueue clientIP clientMessage
         >> ret MESSAGE_PROCESS_SUCCESS);
    unlock >> ret retVal.

(** [clientHandler], one critical section at a time.  The thread is in
    [AwaitingRegistration] until its first [processMessage] returns, in
    [Registered] while it loops over the messages it reads, in [Leaving]
    between the end of that loop and its final removal from the list, and
    [Closed] once it has closed its socket and exited.  A turn in [Leaving]
    reads nothing: the read outcome it is given is not used. *)
Inductive HandlerState := AwaitingRegistration | Registered | Leaving | Closed.

Definition clientHandler_step (tid clientSocket : Z) (clientIP : cstring)
    (st : HandlerState) (numBytesRead : Z) (clientMessage : ClientMessage)
  : M HandlerState :=
  match st with
  | AwaitingRegistration =>
      do r <- processMessage tid clientSocket clientIP IS_REGISTRATION
                numBytesRead clientMessage;
      if negb (r =? MESSAGE_PROCESS_SUCCESS)
      then close clientSocket >> ret Closed
      else ret Registered
  | Registered =>
      do processResult <- processMessage tid clientSocket clientIP IS_MESSAGE
                            numBytesRead clientMessage;
      if negb (processResult =? MESSAGE_PROCESS_SUCCESS)
      then ret Leaving
      else ret Registered
  | Leaving =>
      lock >>
      do sd <- getShared;
      let clientIndex := findThreadIDInList tid sd in
      removeFromListM clientIndex >>
      unlock >>
      close clientSocket >> ret Closed
  | Closed => ret Closed
  end.

(** The fan-out loop of [chatBroadcaster],
    [for (i = 0; i < numClients; i++) send(connectedClients[i].clientSocket, ..)],
    with [iters] iterations left. *)
Fixpoint broadcastLoop (broadcastMsg : cstring) (i : Z) (iters : nat) : M unit :=
  match iters with
  | O => ret tt
  | S k =>
      do sd <- getShared;
      let clientSocket := clientSocket (aget (connectedClients sd) i) in
      send clientSocket broadcastMsg >> broadcastLoop broadcastMsg (i + 1) k
  end.

(** The two loops of [clientConnectionMonitor], one iteration at a time: the
    thread waits for a first client, then runs, then has left its loop. *)
Inductive LoopState := Waiting | Running | Exited.

(** [chatBroadcaster] likewise, with one more state: between taking a
    broadcast from the queue (without the lock) and fanning it out (under
    the lock) the thread holds the serialized broadcast. *)
Inductive BroadcasterState :=
| BcWaiting
| BcRunning
| BcFlushing (broadcastMsg : cstring)
| BcExited.

Definition chatBroadcaster_step (st : BroadcasterState) : M BroadcasterState :=
  match st with
  | BcWaiting =>
      lock >>
      do sd <- getShared;
      let serverIsRunning := if numClients sd >? 0 then RUNNING else STOPPING in
      unlock >>
      ret (if negb (serverIsRunning =? 0) then BcRunning else BcWaiting)
  | BcRunning =>
      do sd <- getShared;
      if numClients sd <=? 0 then ret BcExited
      else
        do r <- msgrcv;
        match r with
        | RcvError => ret BcExited
        | NoMessage => ret BcRunning
        | Received broadcastMessage =>
            ret (BcFlushing (broadcastToJson broadcastMessage))
        end
  | BcFlushing broadcastMsg =>
      lock >>
      do sd <- getShared;
      broadcastLoop broadcastMsg 0 (Z.to_nat (numClients sd)) >>
      unlock >>
      ret BcRunning
  | BcExited => ret BcExited
  end.

Definition clientConnectionMonitor_step (st : LoopState) : M LoopState :=
  match st with
  | Waiting =>
      lock >>
      do sd <- getShared;
      let serverIsRunning := if numClients sd >? 0 then RUNNING else STOPPING in
      unlock >>
      ret (if negb (serverIsRunning =? 0) then Running else Waiting)
  | Running =>
      lock >>
      do sd <- getShared;
      do serverIsRunning <-
        (if numClients sd <=? 0 then
           closeServerSocket (serverSocket sd) >>
           do sd <- getShared;
           putShared (with_serverIsRunning 0 sd) >>
           ret STOPPING
         else ret RUNNING);
      unlock >>
      ret (if negb (serverIsRunning =? 0) then Running else Exited)
  | Exited => ret Exited
  end.

(** What the calls of [pthread_create] of one turn of the accept loop
    return, each 0 or an error number: for the handler and, in the first
    turn, for the monitor and for the broadcaster. *)
Record Created := mkCreated {
  handlerCreated : Z;
  monitorCreated : Z;
  broadcasterCreated : Z
}.

(** One turn of the accept loop of [runServer]: [None] while the loop goes
    on, [Some retVal] once it has left the loop ([retVal] as it stands at the
    [break]).  [totalConnections] counts the connections accepted so far;
    the loop increments it after each turn that goes on.  The handler is
    given the address of [newClient], a variable of the body of the loop,
    and not the socket: [EvAccept] records what the variable holds from
    then on. *)
Definition runServer_step (pending : Z) (created : Created)
    (totalConnections : Z) : M (option Z) :=
  do clientSocket <- accept pending;
  if clientSocket <? 0 then
    lock >>
    do sd <- getShared;
    let retVal := if negb (serverIsRunning sd =? 0) then SOCKET_ERROR
                  else SUCCESS in
    unlock >> ret (Some retVal)
  else
    emit (EvAccept clientSocket) >>
    (if negb (handlerCreated created =? 0) then ret (Some THREAD_ERROR)
     else
       emit EvSpawnHandler >>
       (if totalConnections =? 0 then
          if negb (monitorCreated created =? 0) then ret (Some THREAD_ERROR)
          else
            emit EvSpawnMonitor >>
            (if negb (broadcasterCreated created =? 0)
             then ret (Some THREAD_ERROR)
             else emit EvSpawnBroadcaster >> ret None)
        else ret None)).

(** The server as a whole: the turns of its threads, taken one after the
    other in any order.  Each turn touches the registry between one
    [pthread_mutex_lock] and the matching unlock, or only reads its count,
    so the threads interleave at this grain. *)
Inductive Action :=
| ActHandler (tid clientSocket : Z) (clientIP : cstring) (st : HandlerState)
    (numBytesRead : Z) (clientMessage : ClientMessage)
| ActMonitor
| ActBroadcaster.

Record Server := mkServer {
  world : World;
  monitor : LoopState;
  broadcaster : BroadcasterState
}.

Definition initServer (msgQID srvSocket : Z) : Server :=
  mkServer (initWorld msgQID srvSocket) Waiting BcWaiting.

Definition act (s : Server) (a : Action) : Server :=
  match a with
  | ActHandler tid sock ip st n m =>
      mkServer (snd (clientHandler_step tid sock ip st n m (world s)))
        (monitor s) (broadcaster s)
  | ActMonitor =>
      let (st, w) := clientConnectionMonitor_step (monitor s) (world s) in
      mkServer w st (broadcaster s)
  | ActBroadcaster =>
      let (st, w) := chatBroadcaster_step (broadcaster s) (world s) in
      mkServer w (monitor s) st
  end.

Definition run (s : Server) (acts : list Action) : Server :=
  fold_left act acts s.

End Server.

(* ===================================================================== *)
(** ** chat-client: the message history (chatClient.h, outp_inp_handlers.h) *)
(* ===================================================================== *)

Module ChatClient.

Definition HISTORY_SIZE : Z := 10.
Definition MESSAGE_MAX_LENGTH : Z := 80.

(** [end] is a keyword of Rocq: the field is [end_]. *)
Record MessageHistory := mkMessageHistory {
  messages : list cstring;   (* char messages[HISTORY_SIZE][MESSAGE_MAX_LENGTH] *)
  start : Z;
  end_ : Z;
  count : Z
}.

(** The global [messageHistory = { .start = 0, .end = 0, .count = 0 }]: the
    rows that are not named are zero-filled, that is, empty strings. *)
Definition messageHistory : MessageHistory :=
  mkMessageHistory (replicate (Z.to_nat HISTORY_SIZE) []) 0 0 0.

(** [add_message_to_history]; C's [%] is [Z.rem]. *)
Definition add_message_to_history (message : cstring) (h : MessageHistory)
  : MessageHistory :=
  let msgs := <[Z.to_nat (end_ h) :=
                  strncpy_terminated message (MESSAGE_MAX_LENGTH - 1)]>
                (messages h) in
  let e := Z.rem (end_ h + 1) HISTORY_SIZE in
  if count h <? HISTORY_SIZE
  then mkMessageHistory msgs (start h) e (count h + 1)
  else mkMessageHistory msgs (Z.rem (start h + 1) HISTORY_SIZE) e (count h).

(** The loop of [display_message] that prints the history, oldest first:
    [for (i = 0; i < count; i++) { print messages[historyIndex];
       historyIndex = (historyIndex + 1) % HISTORY_SIZE; }]. *)
Fixpoint displayLoop (msgs : list cstring) (historyIndex : Z) (iters : nat)
  : list cstring :=
  match iters with
  | O => []
  | S k => (msgs !!! Z.to_nat historyIndex)
           :: displayLoop msgs (Z.rem (historyIndex + 1) HISTORY_SIZE) k
  end.

Definition displayed (h : MessageHistory) : list cstring :=
  displayLoop (messages h) (start h) (Z.to_nat (count h)).

(** The ring-buffer invariant: the counters within their ranges, the rows
    NUL-terminated within [MESSAGE_MAX_LENGTH] bytes, and [end_] running
    [count] rows ahead of [start]. *)
Record history_inv (h : MessageHistory) : Prop := {
  inv_count : 0 <= count h <= HISTORY_SIZE;
  inv_start : 0 <= start h < HISTORY_SIZE;
  inv_end : 0 <= end_ h < HISTORY_SIZE;
  inv_rows : Z.of_nat (length (messages h)) = HISTORY_SIZE;
  inv_terminated : Forall (fun m => strlen m + 1 <= MESSAGE_MAX_LENGTH)
                     (messages h);
  inv_ring : end_ h = Z.rem (start h + count h) HISTORY_SIZE
}.

(** The history after a sequence of messages, from the initial one. *)
Definition history_after (ms : list cstring) : MessageHistory :=
  fold_left (fun h m => add_message_to_history m h) ms messageHistory.

End ChatClient.

(* ===================================================================== *)
(** ** Vocabulary of the statements *)
(* ===================================================================== *)

(** [i] is the last white-space position below [limit]. *)
Definition lastSpaceBefore (input : cstring) (limit i : Z) : Prop :=
  0 <= i < limit
  /\ isspace (char_at input (Z.to_nat i)) = true
  /\ forall j, i < j < limit -> isspace (char_at input (Z.to_nat j)) = false.

Definition noSpaceBefore (input : cstring) (limit : Z) : Prop :=
  forall j, 0 <= j < limit -> isspace (char_at input (Z.to_nat j)) = false.

(** The split point as the specification words it: the split is at the last
    white space below the limit whenever there is one and the remainder
    fits the limit.  The remainder is taken here with its leading white
    space, the longest reading of the word. *)
Definition splits_at_space_when_remainder_fits (input : cstring) (limit : Z)
  : Prop :=
  forall i, lastSpaceBefore input limit i ->
    strlen (drop (Z.to_nat i) input) <= limit ->
    fst (splitString input limit) = take (Z.to_nat i) input.

(** The split point that [splitString] settles on before it copies. *)
Definition chosenSplit (input : cstring) (maxSize : Z) : Z :=
  let sp := scanBackward input (Z.to_nat maxSize) in
  if (sp =? -1) || (strlen input - sp >=? maxSize - 1) then maxSize else sp.

(** The world with more events in its trace, or other shared data. *)
Definition logged (es : list Event) (w : World) : World :=
  mkWorld (shared w) (queue w) (queueRemoved w) (listening w) (trace w ++ es).
Definition with_shared (sd : SharedData) (w : World) : World :=
  mkWorld sd (queue w) (queueRemoved w) (listening w) (trace w).

(** The reply that [sendServerMessage] puts on the wire for a token. *)
Definition serverReply (token : cstring) : cstring :=
  broadcastToJson (mkBroadcast [] [] token).

(** The (address, user id) pair of an entry, and the invariant of the
    registry: no pair occurs twice among the registered entries. *)
Definition userKey (c : ClientState) : cstring * cstring :=
  (clientIP c, clientUserID c).
Definition unique_users (sd : SharedData) : Prop :=
  NoDup (userKey <$> registered sd).

(** Some registered entry has this address and this user id. *)
Definition is_registered (ip uid : cstring) (sd : SharedData) : Prop :=
  exists c, c ∈ registered sd /\ clientIP c = ip /\ clientUserID c = uid.

(** The condition for a successful registration as the specification words
    it: the token, no entry with the same pair, room in the registry. *)
Definition registration_accepted_as_claimed (ip : cstring)
    (m : ClientMessage) (sd : SharedData) : Prop :=
  cmMessage m = SERVER_REGISTRATION_MSG
  /\ ~ is_registered ip (cmUserID m) sd
  /\ numClients sd < MAX_CLIENTS.

(** The same with what the code checks first: the read did not fail and the
    user id is neither empty nor all white space. *)
Definition registration_accepted (ip : cstring) (numBytesRead : Z)
    (m : ClientMessage) (sd : SharedData) : Prop :=
  numBytesRead <> -1
  /\ cmUserID m <> []
  /\ Exists (fun c => isspace c = false) (cmUserID m)
  /\ registration_accepted_as_claimed ip m sd.

(** Sample inputs used in the examples below. *)
Definition sample_split_input : cstring :=
  lit "xxxxxxxxxx yyyyyyyyyyyyyyyyyyyyyyyyyyyyyyyyyyyyyyy".
Definition sample_split_short_tail : cstring :=
  lit "xxxxxxxxxxxxxxxxxxxxxxxxxxxxxx yyyyyyyyyyyyyyyyyyyy".

Definition with_queue (q : list Broadcast) (w : World) : World :=
  mkWorld (shared w) q (queueRemoved w) (listening w) (trace w).

(** The broadcasts that [sendMessageToQueue] queues for one client message. *)
Definition broadcastsOf (clientIP : cstring) (m : ClientMessage)
  : list Broadcast :=
  map (mkBroadcast (strncpy_terminated clientIP CLIENT_IP_LENGTH)
         (strncpy_terminated (cmUserID m) CLIENT_USERID_LENGTH))
    (broadcastTexts (cmMessage m)).

(** The first test of [processMessage]: the read failed, or the user id is
    empty or all white space. *)
Definition rejectedEarly (numBytesRead : Z) (m : ClientMessage) : bool :=
  (numBytesRead =? -1)
  || (strlen (cmUserID m) =? 0)
  || (isWhitespace (cmUserID m) =? 1).

(** Sample data used in the examples below. *)
Definition sample_ip : cstring := lit "10.0.0.1".
Definition sample_world : World := initWorld 3 4.
Definition hello_from (uid : cstring) : ClientMessage :=
  mkClientMessage uid SERVER_REGISTRATION_MSG.
Definition send_all_fail : Z -> cstring -> Z := fun _ _ => -1.

(** Ten clients ["A"] .. ["J"] registered one after the other from the same
    address: a full registry. *)
Definition sample_full_world : World :=
  fold_left
    (fun w k =>
       snd (processMessage send_all_fail (Z.of_nat k) (Z.of_nat k + 5)
              sample_ip IS_REGISTRATION 30
              (hello_from [ascii_of_nat (65 + k)]) w))
    (seq 0 10) sample_world.

(** The world that the monitor leaves when it stops the server. *)
Definition stoppedWorld (w : World) : World :=
  mkWorld (with_serverIsRunning 0 (shared w)) (queue w) (queueRemoved w) false
    (trace w ++ [EvLock; EvCloseServerSocket (serverSocket (shared w));
                 EvUnlock]).

(** The shutdown trigger as the specification words it: once the monitor is
    armed (it runs its second loop), whenever an action brings the count to
    0, the next turn of the monitor, whatever the other threads do before
    it, leaves the running flag at 0 and the listening socket closed. *)
Definition shutdown_after_every_drop : Prop :=
  forall (send_result : Z -> cstring -> Z) (before : list Action) (a : Action)
         (between : list Action),
    let s1 := run send_result (initServer 3 4) before in
    let s2 := act send_result s1 a in
    let s3 := act send_result (run send_result s2 between) ActMonitor in
    monitor s1 = Running ->
    0 < numClients (shared (world s1)) ->
    numClients (shared (world s2)) = 0 ->
    Forall (fun x => x <> ActMonitor) between ->
    serverIsRunning (shared (world s3)) = 0 /\ listening (world s3) = false.

(** A run in which the count drops to 0 and a new client registers before
    the monitor's next turn. *)
Definition sample_kate : ClientMessage := hello_from (lit "kate").
Definition sample_vale : ClientMessage := hello_from (lit "vale").
Definition sample_bye : ClientMessage :=
  mkClientMessage (lit "kate") SERVER_QUIT_MSG.
Definition sample_before : list Action :=
  [ActHandler 1 7 sample_ip AwaitingRegistration 30 sample_kate; ActMonitor].
Definition sample_drop : Action :=
  ActHandler 1 7 sample_ip Registered 30 sample_bye.
Definition sample_between : list Action :=
  [ActHandler 2 8 sample_ip AwaitingRegistration 30 sample_vale].

(** [registry_wf] as a test that computes. *)
Definition registry_wfb (sd : SharedData) : bool :=
  (0 <=? numClients sd) && (numClients sd <=? MAX_CLIENTS)
  && (Z.of_nat (length (connectedClients sd)) =? MAX_CLIENTS)
  && forallb
       (fun c => (strlen (clientIP c) <=? CLIENT_IP_LENGTH)
                 && (strlen (clientUserID c) <=? CLIENT_USERID_LENGTH))
       (connectedClients sd).

(** More sample data: a registry with three clients, and a broadcast
    waiting in the queue. *)
Definition sample_three : World :=
  fold_left
    (fun w k =>
       snd (processMessage send_all_fail (Z.of_nat k) (Z.of_nat k + 5)
              sample_ip IS_REGISTRATION 30
              (hello_from [ascii_of_nat (65 + k)]) w))
    (seq 0 3) sample_world.
Definition sample_broadcast : Broadcast :=
  mkBroadcast sample_ip (lit "A") (lit "hi there").
Definition sample_three_queued : World :=
  with_queue [sample_broadcast] sample_three.
Definition sample_flushing : BroadcasterState :=
  BcFlushing (broadcastToJson sample_broadcast).

(* ===================================================================== *)
(** ** Further vocabulary: the registry *)
(* ===================================================================== *)

(** The comparison that [findUserInList] makes between a slot and the pair
    it looks for: the address over [CLIENT_IP_LENGTH] characters and the
    user id over [CLIENT_USERID_LENGTH]. *)
Definition sameUser (ip uid : cstring) (c : ClientState) : Prop :=
  clientIP c = strncpy_terminated ip CLIENT_IP_LENGTH
  /\ clientUserID c = strncpy_terminated uid CLIENT_USERID_LENGTH.

(** Every slot from [numClients] on is cleared. *)
Definition unused_cleared (sd : SharedData) : Prop :=
  forall j, numClients sd <= j < MAX_CLIENTS ->
    aget (connectedClients sd) j = emptyClient.





(** The events of one fan-out of a serialized broadcast to a list of
    entries. *)
Definition fanout (msg : cstring) (cs : list ClientState) : list Event :=
  EvLock :: map (fun c => EvSend (clientSocket c) msg) cs ++ [EvUnlock].

(** The running flag and the listening socket agree with the state of the
    monitor: both up until the monitor has left its loop, both down after. *)
Definition flags_agree (s : Server) : Prop :=
  match monitor s with
  | Exited =>
      serverIsRunning (shared (world s)) = 0 /\ listening (world s) = false
  | _ =>
      serverIsRunning (shared (world s)) = 1 /\ listening (world s) = true
  end.


(** A run after which the broadcaster has left its loop while the server
    goes on: a client registers, the broadcaster and the monitor start
    running, the client quits, the broadcaster sees no client and leaves, a
    second client registers, the monitor sees a client and goes on. *)
Definition sample_stall : list Action :=
  [ActHandler 1 7 sample_ip AwaitingRegistration 30 sample_kate;
   ActBroadcaster;
   ActMonitor;
   ActHandler 1 7 sample_ip Registered 30 sample_bye;
   ActBroadcaster;
   ActHandler 2 8 sample_ip AwaitingRegistration 30 sample_vale;
   ActMonitor].
Definition sample_hi : ClientMessage :=
  mkClientMessage (lit "vale") (lit "hi there").
Definition sample_after_stall : list Action :=
  [ActHandler 2 8 sample_ip Registered 30 sample_hi;
   ActBroadcaster; ActBroadcaster].

(* ===================================================================== *)
(** ** common/src/commonMessaging.c: the wire encoding *)
(* ===================================================================== *)

Definition JSON_LENGTH : Z := 256.

(** The text [needle] is at the start of [haystack]. *)
Fixpoint is_prefix (needle haystack : cstring) : bool :=
  match needle, haystack with
  | [], _ => true
  | _ :: _, [] => false
  | a :: n, b :: h => if Ascii.eqb a b then is_prefix n h else false
  end.

(** [strstr]: the part of [haystack] from the first occurrence of [needle]
    on, or [None] (the C function's [NULL]) when there is none. *)
Fixpoint strstr (haystack needle : cstring) : option cstring :=
  match haystack with
  | [] => if is_prefix needle [] then Some [] else None
  | _ :: rest =>
      if is_prefix needle haystack then Some haystack
      else strstr rest needle
  end.

(** The scanset conversion of [sscanf] with width [n] that excludes the
    double quote: the longest run of at most [n] characters other than the
    double quote. *)
Fixpoint scanset (n : nat) (s : cstring) : cstring :=
  match n, s with
  | S k, c :: r => if Ascii.eqb c dquote then [] else c :: scanset k r
  | _, _ => []
  end.

(** [sscanf] with a format made of a literal text, the scanset conversion
    and a closing double quote: the literal text has to match, and the
    conversion has to take at least one character, for [field] to be
    assigned; otherwise [field] keeps its content. *)
Definition sscanf_field (s literal : cstring) (n : nat) (field : cstring)
  : cstring :=
  if is_prefix literal s then
    match scanset n (drop (length literal) s) with
    | [] => field
    | v => v
    end
  else field.

(** The text that precedes the value of a field: the name in double
    quotes, a colon and the double quote that opens the value. *)
Definition jsonKey (name : string) : cstring :=
  [dquote] ++ lit name ++ [dquote] ++ lit ":" ++ [dquote].

(** One field of a decoder: initialised to the empty string, then, when the
    key is found, scanned from there. *)
Definition jsonField (json_str : cstring) (name : string) (n : nat) : cstring :=
  match strstr json_str (jsonKey name) with
  | Some start => sscanf_field start (jsonKey name) n []
  | None => []
  end.

Definition jsonToBroadcast (json_str : cstring) : Broadcast :=
  mkBroadcast (jsonField json_str "clientIP" 15)
    (jsonField json_str "clientUserID" 5)
    (jsonField json_str "message" 40).

(** [clientMessageToJson]: the [sprintf] of an object with the two fields
    clientUserID and message, in this order. *)
Definition clientMessageToJson (msg : ClientMessage) : cstring :=
  lit "{" ++ [dquote] ++ lit "clientUserID" ++ [dquote] ++ lit ":" ++ [dquote]
    ++ cmUserID msg ++ [dquote] ++ lit "," ++ [dquote] ++ lit "message"
    ++ [dquote] ++ lit ":" ++ [dquote] ++ cmMessage msg ++ [dquote] ++ lit "}".

Definition jsonToClientMessage (json_str : cstring) : ClientMessage :=
  mkClientMessage (jsonField json_str "clientUserID" 5)
    (jsonField json_str "message" 80).

(** A text without double quote. *)
Definition quoteFree (s : cstring) : Prop := Forall (fun c => c <> dquote) s.

(* ===================================================================== *)
(** ** chat-client: main.c, chatClient.h and the input and output handlers *)
(* ===================================================================== *)

(** [strcmp]: only the sign of the result is specified by C. *)
Fixpoint strcmp (s1 s2 : cstring) : Z :=
  match s1, s2 with
  | [], [] => 0
  | [], _ :: _ => -1
  | _ :: _, [] => 1
  | c1 :: r1, c2 :: r2 =>
      if char_code c1 <? char_code c2 then -1
      else if char_code c2 <? char_code c1 then 1
      else strcmp r1 r2
  end.

(** One round of the loop of [parseArguments] on [argv[i]]: the pointer
    [argv[i] + 5] is the argument without its first five characters. *)
Definition parseArguments_arg (userIDSize serverNameSize : Z)
    (bufs : cstring * cstring) (arg : cstring) : cstring * cstring :=
  if strncmp arg (lit "-user") 5 =? 0 then
    (strncpy_terminated (drop 5 arg) (userIDSize - 1), snd bufs)
  else if strncmp arg (lit "-server") 7 =? 0 then
    (fst bufs, strncpy_terminated (drop 7 arg) (serverNameSize - 1))
  else bufs.

(** [parseArguments]: the loop runs from [argv[1]] on; the result is the
    content of the two buffers [userID] and [serverName]. *)
Definition parseArguments (argv : list cstring)
    (userID : cstring) (userIDSize : Z)
    (serverName : cstring) (serverNameSize : Z) : cstring * cstring :=
  fold_left (parseArguments_arg userIDSize serverNameSize) (drop 1 argv)
    (userID, serverName).

(** The start of [main]: the two buffers of 256 bytes are zeroed, filled by
    [parseArguments], and [main] returns 1 after the usage line when one of
    them is still empty. *)
Definition main_arguments (argv : list cstring) : Z + cstring * cstring :=
  let bufs := parseArguments argv [] 256 [] 256 in
  if (strlen (fst bufs) =? 0) || (strlen (snd bufs) =? 0) then inl 1
  else inr bufs.


(** The test of [main] and of [output_handler] on a decoded broadcast: both
    origin fields empty and the text [>>failed<<]. *)
Definition isFailureMessage (bcast : Broadcast) : bool :=
  Ascii.eqb (char_at (bcUserID bcast) 0) NUL
  && Ascii.eqb (char_at (bcIP bcast) 0) NUL
  && (strcmp (bcMessage bcast) (lit ">>failed<<") =? 0).

(** What [main] does with the answer to its registration message.
    [received] is the content of the buffer after [recv], [None] when
    [recv] gave no byte (the server closed the connection).  The result is
    the value [main] returns at once, [None] when it goes on and starts the
    user interface. *)
Definition main_check_response (received : option cstring) : option Z :=
  match received with
  | None => Some 1
  | Some buffer =>
      if isFailureMessage (jsonToBroadcast buffer) then Some 1 else None
  end.

(** What the first [recv] on the client's side of socket [sock] gives after
    the events [es] of the server: the first payload sent to the socket, and
    nothing when the socket was closed before any. *)
Fixpoint first_received (sock : Z) (es : list Event) : option cstring :=
  match es with
  | [] => None
  | EvSend s payload :: rest =>
      if s =? sock then Some payload else first_received sock rest
  | EvClose s :: rest =>
      if s =? sock then None else first_received sock rest
  | _ :: rest => first_received sock rest
  end.

(** The events that a step added to the trace of [w]. *)
Definition events_since (w w' : World) : list Event :=
  drop (length (trace w)) (trace w').

(** The conversions [%-ns] and [%ns] of [printf]: the string padded with
    spaces to [width] on the right or on the left, and the string as it is
    when it is longer. *)
Definition pad_right (width : nat) (s : cstring) : cstring :=
  s ++ replicate (width - length s)%nat " "%char.
Definition pad_left (width : nat) (s : cstring) : cstring :=
  replicate (width - length s)%nat " "%char ++ s.

Definition newline : ascii := ascii_of_nat 10.

(** The text of the format of [display_message]: the address in 15 columns,
    the user name in 5 between brackets, the direction in 2, the message in
    40, the time between parentheses, and a new line. *)
Definition format_message (ip username direction msg time_str : cstring)
  : cstring :=
  pad_right 15 ip ++ lit " [" ++ pad_right 5 username ++ lit "] "
    ++ pad_left 2 direction ++ lit " " ++ pad_right 40 msg ++ lit " ("
    ++ time_str ++ lit ")" ++ [newline].

(** [snprintf(buf, size, ...)] stores at most [size - 1] characters. *)
Definition snprintf (size : Z) (text : cstring) : cstring :=
  take (Z.to_nat (size - 1)) text.

(** [display_message]: the new history and the rows printed in the window.
    [time_str] is the result of [strftime] for the current time. *)
Definition display_message (ip username msg direction time_str : cstring)
    (h : ChatClient.MessageHistory)
  : ChatClient.MessageHistory * list cstring :=
  let formatted_message :=
    snprintf ChatClient.MESSAGE_MAX_LENGTH
      (format_message ip username direction msg time_str) in
  let h' := ChatClient.add_message_to_history formatted_message h in
  (h', ChatClient.displayed h').

(** One round of the loop of [output_handler] on the buffer that [recv]
    filled ([None]: no byte): [None] when the loop is left. *)
Definition output_handler_step (currentUserID time_str : cstring)
    (received : option cstring) (h : ChatClient.MessageHistory)
  : option (ChatClient.MessageHistory * list cstring) :=
  match received with
  | None => None
  | Some buffer =>
      let bcast := jsonToBroadcast buffer in
      if isFailureMessage bcast then None
      else
        let direction :=
          if strcmp (bcUserID bcast) currentUserID =? 0
          then lit ">>" else lit "<<" in
        Some (display_message (bcIP bcast) (bcUserID bcast)
                (bcMessage bcast) direction time_str h)
  end.

(** The text without the characters that a field of the given width does
    not take, as both decoders cut it. *)
Definition cutBroadcast (b : Broadcast) : Broadcast :=
  mkBroadcast (take 15 (bcIP b)) (take 5 (bcUserID b))
    (take 40 (bcMessage b)).
Definition cutClientMessage (m : ClientMessage) : ClientMessage :=
  mkClientMessage (take 5 (cmUserID m)) (take 80 (cmMessage m)).

(** The last of the arguments after [argv[0]] that starts with [flag]. *)
Definition lastArgument (flag : cstring) (argv : list cstring)
  : option cstring :=
  list.last (List.filter (is_prefix flag) (drop 1 argv)).


Definition sample_argv : list cstring :=
  [lit "./chat-client"; lit "-userkate"; lit "-serverlocalhost"].
Definition sample_time : cstring := lit "12:00:00".

(* ===================================================================== *)
(** ** The calls of [send] that do not return *)
(* ===================================================================== *)

(** What [send(sock, buf, len, 0)] does to the process that calls it.  The
    server passes no flag and installs no handler for SIGPIPE anywhere: on
    a connection that the peer has closed the call raises the signal, whose
    default action ends the process; on a connection whose buffer is full
    the call waits; otherwise it returns the count of bytes, or -1. *)
Inductive SendOutcome :=
| SendReturns (r : Z)
| SendRaisesSIGPIPE
| SendWaits.

(** How the fan-out of one broadcast ends. *)
Inductive FlushEnd :=
| FlushCompleted            (* the loop ran to its end, the lock was released *)
| ProcessEnded (i : Z)      (* SIGPIPE in the send to entry [i]: no thread runs any more *)
| FlushWaiting (i : Z).     (* the send to entry [i] waits, the lock held *)

(** The fan-out loop of [chatBroadcaster] again, with what each call of
    [send] does to the process; [iters] iterations are left. *)
Fixpoint broadcastLoop_outcome (send_outcome : Z -> cstring -> SendOutcome)
    (broadcastMsg : cstring) (i : Z) (iters : nat) : M FlushEnd :=
  match iters with
  | O => ret FlushCompleted
  | S k =>
      do sd <- getShared;
      let clientSocket := clientSocket (aget (connectedClients sd) i) in
      emit (EvSend clientSocket broadcastMsg) >>
      match send_outcome clientSocket broadcastMsg with
      | SendReturns _ =>
          broadcastLoop_outcome send_outcome broadcastMsg (i + 1) k
      | SendRaisesSIGPIPE => ret (ProcessEnded i)
      | SendWaits => ret (FlushWaiting i)
      end
  end.

(** The flush of [chatBroadcaster]: lock, the loop, unlock when the loop
    comes to its end. *)
Definition chatBroadcaster_flush (send_outcome : Z -> cstring -> SendOutcome)
    (broadcastMsg : cstring) : M FlushEnd :=
  lock >>
  do sd <- getShared;
  do e <- broadcastLoop_outcome send_outcome broadcastMsg 0
            (Z.to_nat (numClients sd));
  match e with
  | FlushCompleted => unlock >> ret FlushCompleted
  | _ => ret e
  end.

(** Every call of [send] of a fan-out to the entries [cs] returns. *)
Definition sends_return (send_outcome : Z -> cstring -> SendOutcome)
    (msg : cstring) (cs : list ClientState) : Prop :=
  Forall (fun c => exists r, send_outcome (clientSocket c) msg = SendReturns r)
    cs.

(** The peer of socket 5 has closed its connection; the other sends
    return the length of the payload. *)
Definition sample_peer_closed : Z -> cstring -> SendOutcome :=
  fun sock payload =>
    if sock =? 5 then SendRaisesSIGPIPE else SendReturns (strlen payload).

(* ===================================================================== *)
(** ** Facts: libc strings *)
(* ===================================================================== *)

Lemma char_code_inj c1 c2 : char_code c1 = char_code c2 -> c1 = c2.
Proof.
  unfold char_code. intros H. apply N2Z.inj in H.
  rewrite <- (ascii_N_embedding c1), <- (ascii_N_embedding c2). now f_equal.
Qed.

Lemma strncmp_0_iff s1 s2 n : strncmp s1 s2 n = 0 <-> take n s1 = take n s2.
Proof.
  revert s1 s2. induction n as [|k IH]; intros s1 s2; simpl.
  - split; intros _; reflexivity.
  - destruct s1 as [|c1 r1], s2 as [|c2 r2]; simpl; try (split; [lia | discriminate]).
    + tauto.
    + destruct (Z.ltb_spec (char_code c1) (char_code c2)).
      { split; [lia|]. intros [= -> _]. lia. }
      destruct (Z.ltb_spec (char_code c2) (char_code c1)).
      { split; [lia|]. intros [= -> _]. lia. }
      assert (c1 = c2) as -> by (apply char_code_inj; lia).
      rewrite IH. split; [intros ->; reflexivity | now intros [= ->]].
Qed.

(* ===================================================================== *)
(** ** Facts: arrays and the lookup loop *)
(* ===================================================================== *)

Lemma aget_lookup (a : list ClientState) (i : Z) (c : ClientState) :
  a !! Z.to_nat i = Some c -> aget a i = c.
Proof. intros H. unfold aget. now apply list_lookup_total_correct. Qed.

Lemma lookup_aget (a : list ClientState) (i : Z) :
  0 <= i < Z.of_nat (length a) -> a !! Z.to_nat i = Some (aget a i).
Proof.
  intros H. unfold aget. apply list_lookup_lookup_total_lt. lia.
Qed.

Lemma aget_aset_eq (a : list ClientState) (i : Z) (v : ClientState) :
  0 <= i < Z.of_nat (length a) -> aget (aset a i v) i = v.
Proof.
  intros H. unfold aget, aset. apply list_lookup_total_insert_eq. lia.
Qed.

Lemma aget_aset_ne (a : list ClientState) (i j : Z) (v : ClientState) :
  0 <= i -> 0 <= j -> i <> j -> aget (aset a i v) j = aget a j.
Proof.
  intros Hi Hj Hne. unfold aget, aset. apply list_lookup_total_insert_ne. lia.
Qed.

Lemma length_aset (a : list ClientState) (i : Z) (v : ClientState) :
  length (aset a i v) = length a.
Proof. apply length_insert. Qed.

Lemma aset_aset (a : list ClientState) (i : Z) (v w : ClientState) :
  aset (aset a i v) i w = aset a i w.
Proof. apply list_insert_insert_eq. Qed.

(** The loop returns the first index at which the test succeeds, and the
    sentinel exactly when the test fails on the whole range. *)
Lemma findIndexFrom_found (test : Z -> bool) (i : Z) (k : nat) (r : Z) :
  0 <= i -> findIndexFrom test i k = r -> r <> ENTRY_NOT_FOUND_OR_NULL ->
  i <= r < i + Z.of_nat k /\ test r = true
  /\ forall j, i <= j < r -> test j = false.
Proof.
  revert i. induction k as [|k IH]; intros i Hi Hr Hne; simpl in Hr.
  - congruence.
  - destruct (test i) eqn:Ht.
    + subst r. repeat split; [lia | lia | exact Ht | intros j Hj; lia].
    + destruct (IH (i + 1) ltac:(lia) Hr Hne) as (Hrange & Htr & Hbefore).
      repeat split; [lia | lia | exact Htr |].
      intros j Hj. destruct (Z.eq_dec j i) as [->|Hji]; [exact Ht|].
      apply Hbefore. lia.
Qed.

Lemma findIndexFrom_none (test : Z -> bool) (i : Z) (k : nat) :
  0 <= i ->
  (findIndexFrom test i k = ENTRY_NOT_FOUND_OR_NULL
   <-> forall j, i <= j < i + Z.of_nat k -> test j = false).
Proof.
  revert i. induction k as [|k IH]; intros i Hi; simpl.
  - split; [intros _ j Hj; lia | reflexivity].
  - destruct (test i) eqn:Ht.
    + split.
      * unfold ENTRY_NOT_FOUND_OR_NULL. lia.
      * intros H. rewrite (H i) in Ht by lia. discriminate.
    + rewrite (IH (i + 1)) by lia. split.
      * intros H j Hj. destruct (Z.eq_dec j i) as [->|Hji]; [exact Ht|].
        apply H. lia.
      * intros H j Hj. apply H. lia.
Qed.

(* ===================================================================== *)
(** ** Facts: [addToList] *)
(* ===================================================================== *)

Lemma addToList_below tid ip uid sock sd :
  0 <= numClients sd < MAX_CLIENTS ->
  Z.of_nat (length (connectedClients sd)) = MAX_CLIENTS ->
  addToList tid ip uid sock sd
  = (SUCCESS,
     with_numClients (numClients sd + 1)
       (with_connectedClients
          (aset (connectedClients sd) (numClients sd)
             (newEntry tid ip uid sock)) sd)).
Proof.
  intros Hn Hlen. unfold addToList.
  destruct (Z.ltb_spec (numClients sd) MAX_CLIENTS) as [_|]; [|lia].
  cbv zeta. rewrite !aset_aset.
  rewrite !aget_aset_eq by (rewrite ?length_aset; lia).
  reflexivity.
Qed.

Lemma addToList_full tid ip uid sock sd :
  MAX_CLIENTS <= numClients sd ->
  addToList tid ip uid sock sd = (TOO_MANY_CLIENTS, sd).
Proof.
  intros Hn. unfold addToList.
  destruct (Z.ltb_spec (numClients sd) MAX_CLIENTS); [lia | reflexivity].
Qed.

Lemma registered_add sd e :
  0 <= numClients sd < MAX_CLIENTS ->
  Z.of_nat (length (connectedClients sd)) = MAX_CLIENTS ->
  registered
    (with_numClients (numClients sd + 1)
       (with_connectedClients (aset (connectedClients sd) (numClients sd) e) sd))
  = registered sd ++ [e].
Proof.
  intros Hn Hlen. unfold registered, aset. simpl.
  replace (Z.to_nat (numClients sd + 1)) with (S (Z.to_nat (numClients sd)))
    by lia.
  rewrite (take_S_r _ _ e) by (apply list_lookup_insert_eq; lia).
  rewrite take_insert_ge by lia. reflexivity.
Qed.

Lemma strncpy_terminated_fits (s : cstring) (n : Z) :
  strlen s <= n -> strncpy_terminated s n = s.
Proof.
  unfold strlen, strncpy_terminated. intros H. apply take_ge. lia.
Qed.

Lemma strncpy_terminated_length (s : cstring) (n : Z) :
  0 <= n -> strlen (strncpy_terminated s n) <= n.
Proof.
  unfold strlen, strncpy_terminated. intros H. rewrite length_take. lia.
Qed.

(** C4: at capacity [addToList] answers [TOO_MANY_CLIENTS] and returns the
    shared data as it received it (no field of any entry written, the count
    unchanged); below capacity it answers [SUCCESS], writes the new entry
    (thread, address, user id, socket) into slot [numClients], touches no
    other slot, and increments the count, so that the registered entries are
    the former ones followed by the new one. *)
Theorem addToList_capacity tid ip uid sock sd :
  registry_wf sd ->
  (numClients sd = MAX_CLIENTS ->
   addToList tid ip uid sock sd = (TOO_MANY_CLIENTS, sd))
  /\ (numClients sd < MAX_CLIENTS ->
      let sd' := snd (addToList tid ip uid sock sd) in
      fst (addToList tid ip uid sock sd) = SUCCESS
      /\ numClients sd' = numClients sd + 1
      /\ aget (connectedClients sd') (numClients sd)
         = newEntry tid ip uid sock
      /\ (forall j, 0 <= j -> j <> numClients sd ->
          aget (connectedClients sd') j = aget (connectedClients sd) j)
      /\ registered sd' = registered sd ++ [newEntry tid ip uid sock]
      /\ (strlen ip <= CLIENT_IP_LENGTH ->
          strlen uid <= CLIENT_USERID_LENGTH ->
          newEntry tid ip uid sock = mkClientState tid ip uid sock)).
Proof.
  intros [Hn Hlen _]. split.
  - intros Hfull. apply addToList_full. lia.
  - intros Hbelow. cbv zeta.
    rewrite addToList_below by lia. simpl.
    repeat split.
    + apply aget_aset_eq. lia.
    + intros j Hj Hne. apply aget_aset_ne; lia.
    + apply registered_add; lia.
    + intros Hip Huid. unfold newEntry.
      now rewrite !strncpy_terminated_fits.
Qed.

(* ===================================================================== *)
(** ** Facts: [removeFromList] *)
(* ===================================================================== *)

(** The copy loop, slot by slot: slots [i .. i+k-1] receive their right
    neighbour, every other slot keeps its content. *)
Lemma shiftLeft_lookup (a : list ClientState) (i : Z) (k : nat) (j : nat) :
  0 <= i -> (Z.to_nat i + k < length a)%nat ->
  shiftLeft a i k !! j
  = if decide (Z.to_nat i <= j < Z.to_nat i + k)%nat then a !! S j else a !! j.
Proof.
  revert a i. induction k as [|k IH]; intros a i Hi Hlen; simpl.
  - destruct (decide _) as [H|_]; [lia | reflexivity].
  - rewrite IH by (rewrite ?length_aset; lia).
    unfold aset, aget.
    replace (Z.to_nat (i + 1)) with (S (Z.to_nat i)) by lia.
    destruct (decide (S (Z.to_nat i) <= j < S (Z.to_nat i) + k)%nat) as [H1|H1].
    + rewrite decide_True by lia. apply list_lookup_insert_ne. lia.
    + destruct (decide (j = Z.to_nat i)) as [->|Hne].
      * rewrite decide_True by lia.
        rewrite list_lookup_insert_eq by lia.
        symmetry. apply list_lookup_lookup_total_lt. lia.
      * rewrite decide_False by lia. apply list_lookup_insert_ne. lia.
Qed.

Lemma length_shiftLeft (a : list ClientState) (i : Z) (k : nat) :
  length (shiftLeft a i k) = length a.
Proof.
  revert a i. induction k as [|k IH]; intros a i; simpl; [reflexivity|].
  now rewrite IH, length_aset.
Qed.

Lemma clearSlot_empty c : clearSlot c = emptyClient.
Proof. reflexivity. Qed.

(** The array that [removeFromList] leaves, for an index inside the
    registered range. *)
Lemma removeFromList_inside i sd :
  0 <= i < numClients sd -> numClients sd <= MAX_CLIENTS ->
  removeFromList i sd
  = (i, with_numClients (numClients sd - 1)
          (with_connectedClients
             (aset (shiftLeft (connectedClients sd) i
                      (Z.to_nat (numClients sd - 1 - i)))
                (numClients sd - 1) emptyClient) sd)).
Proof.
  intros Hi Hn. unfold removeFromList.
  destruct (Z.eqb_spec i ENTRY_NOT_FOUND_OR_NULL) as [E|_];
    [unfold ENTRY_NOT_FOUND_OR_NULL in E; lia|].
  simpl negb. cbv iota zeta.
  destruct (Z.ltb_spec (numClients sd - 1) MAX_CLIENTS); [|lia].
  now rewrite clearSlot_empty.
Qed.

Lemma removeFromList_lookup i sd (j : nat) :
  0 <= i < numClients sd -> numClients sd <= MAX_CLIENTS ->
  Z.of_nat (length (connectedClients sd)) = MAX_CLIENTS ->
  connectedClients (snd (removeFromList i sd)) !! j
  = if decide (j = Z.to_nat (numClients sd - 1)) then Some emptyClient
    else if decide (Z.to_nat i <= j < Z.to_nat (numClients sd - 1))%nat
         then connectedClients sd !! S j
         else connectedClients sd !! j.
Proof.
  intros Hi Hn Hlen. rewrite removeFromList_inside by assumption. simpl.
  unfold aset. destruct (decide (j = Z.to_nat (numClients sd - 1))) as [->|Hne].
  - apply list_lookup_insert_eq. rewrite length_shiftLeft. lia.
  - rewrite list_lookup_insert_ne by lia.
    rewrite shiftLeft_lookup by lia.
    destruct (decide (Z.to_nat i <= j < Z.to_nat (numClients sd - 1))%nat).
    + now rewrite decide_True by lia.
    + now rewrite decide_False by lia.
Qed.

Lemma registered_remove i sd :
  0 <= i < numClients sd -> numClients sd <= MAX_CLIENTS ->
  Z.of_nat (length (connectedClients sd)) = MAX_CLIENTS ->
  registered (snd (removeFromList i sd))
  = delete (Z.to_nat i) (registered sd).
Proof.
  intros Hi Hn Hlen. apply list_eq. intros j. unfold registered.
  replace (numClients (snd (removeFromList i sd))) with (numClients sd - 1)
    by (rewrite removeFromList_inside by assumption; reflexivity).
  destruct (decide (j < Z.to_nat (numClients sd - 1))%nat) as [Hj|Hj].
  - rewrite lookup_take_lt by lia.
    rewrite removeFromList_lookup by assumption.
    rewrite decide_False by lia.
    destruct (decide (Z.to_nat i <= j < Z.to_nat (numClients sd - 1))%nat).
    + rewrite list_lookup_delete_ge by lia. now rewrite lookup_take_lt by lia.
    + rewrite list_lookup_delete_lt by lia. now rewrite lookup_take_lt by lia.
  - rewrite lookup_take_ge by lia. symmetry. apply lookup_ge_None.
    rewrite length_delete.
    + rewrite length_take. lia.
    + apply lookup_lt_is_Some. rewrite length_take. lia.
Qed.

(** C5: removing index [i] of [n] registered entries returns [i], leaves the
    count at [n-1], leaves the entries below [i] as they were, moves the
    entry formerly at [j+1] to [j] for every [i <= j < n-1] (a stable shift:
    the registered entries are the former ones with the [i]-th deleted, in
    the same order), clears the vacated slot [n-1], and leaves the slots
    from [n] on as they were. *)
Theorem removeFromList_shift i sd :
  registry_wf sd -> 0 <= i < numClients sd ->
  let n := numClients sd in
  let cc := connectedClients sd in
  let sd' := snd (removeFromList i sd) in
  let cc' := connectedClients sd' in
  fst (removeFromList i sd) = i
  /\ numClients sd' = n - 1
  /\ (forall j, 0 <= j < i -> aget cc' j = aget cc j)
  /\ (forall j, i <= j < n - 1 -> aget cc' j = aget cc (j + 1))
  /\ aget cc' (n - 1) = emptyClient
  /\ (forall j, n <= j < MAX_CLIENTS -> aget cc' j = aget cc j)
  /\ length cc' = length cc
  /\ registered sd' = delete (Z.to_nat i) (registered sd).
Proof.
  intros [Hn Hlen _] Hi. cbv zeta.
  assert (Hlk := fun j => removeFromList_lookup i sd j Hi (proj2 Hn) Hlen).
  split; [now rewrite removeFromList_inside by lia|].
  split; [now rewrite removeFromList_inside by lia|].
  split; [|split; [|split; [|split; [|split]]]].
  - intros j Hj. apply aget_lookup. rewrite Hlk.
    rewrite decide_False by lia. rewrite decide_False by lia.
    apply lookup_aget. lia.
  - intros j Hj. apply aget_lookup. rewrite Hlk.
    rewrite decide_False by lia. rewrite decide_True by lia.
    replace (S (Z.to_nat j)) with (Z.to_nat (j + 1)) by lia.
    apply lookup_aget. lia.
  - apply aget_lookup. rewrite Hlk. now rewrite decide_True.
  - intros j Hj. apply aget_lookup. rewrite Hlk.
    rewrite decide_False by lia. rewrite decide_False by lia.
    apply lookup_aget. lia.
  - rewrite removeFromList_inside by lia. simpl.
    now rewrite length_aset, length_shiftLeft.
  - apply registered_remove; lia.
Qed.

(** C6: when the handler's thread is no longer in the list
    ([findThreadIDInList] answers [ENTRY_NOT_FOUND_OR_NULL]), the removal
    that follows answers [ENTRY_NOT_FOUND_OR_NULL] and returns the shared
    data unchanged: the count and every entry are as before. *)
Theorem removeFromList_absent tid sd :
  findThreadIDInList tid sd = ENTRY_NOT_FOUND_OR_NULL ->
  removeFromList (findThreadIDInList tid sd) sd = (ENTRY_NOT_FOUND_OR_NULL, sd).
Proof. intros ->. reflexivity. Qed.

(* ===================================================================== *)
(** ** Facts: the client's message history *)
(* ===================================================================== *)

Section History.
Import ChatClient.

Ltac ring10 :=
  unfold HISTORY_SIZE, MESSAGE_MAX_LENGTH in *;
  Z.to_euclidean_division_equations; lia.

Lemma displayLoop_length msgs s k : length (displayLoop msgs s k) = k.
Proof. revert s. induction k as [|k IH]; intros s; simpl; [|rewrite IH]; reflexivity. Qed.

(** The [j]-th row printed is row [(s + j) % HISTORY_SIZE] of the array. *)
Lemma displayLoop_lookup msgs s k (j : nat) :
  0 <= s < HISTORY_SIZE -> Z.of_nat (length msgs) = HISTORY_SIZE ->
  (j < k)%nat ->
  displayLoop msgs s k !! j
  = msgs !! Z.to_nat (Z.rem (s + Z.of_nat j) HISTORY_SIZE).
Proof.
  revert s j. induction k as [|k IH]; intros s j Hs Hlen Hj; [lia|].
  destruct j as [|j]; simpl.
  - replace (Z.rem (s + Z.of_nat 0) HISTORY_SIZE) with s by ring10.
    symmetry. apply list_lookup_lookup_total_lt. ring10.
  - rewrite IH by (try lia; ring10). f_equal. f_equal. ring10.
Qed.

Lemma history_inv_init : history_inv messageHistory.
Proof.
  split; simpl; try (unfold HISTORY_SIZE; lia); try reflexivity.
  repeat constructor; unfold strlen, MESSAGE_MAX_LENGTH; simpl; lia.
Qed.

Lemma add_preserves_inv m h :
  history_inv h -> history_inv (add_message_to_history m h).
Proof.
  intros [Hc Hs He Hr Ht Hring]. unfold add_message_to_history.
  assert (Hrow : Forall (fun m => strlen m + 1 <= MESSAGE_MAX_LENGTH)
            (<[Z.to_nat (end_ h) :=
                 strncpy_terminated m (MESSAGE_MAX_LENGTH - 1)]> (messages h))).
  { apply Forall_insert; [exact Ht|].
    pose proof (strncpy_terminated_length m (MESSAGE_MAX_LENGTH - 1)).
    unfold MESSAGE_MAX_LENGTH in *. lia. }
  destruct (Z.ltb_spec (count h) HISTORY_SIZE); split; simpl;
    rewrite ?length_insert; try assumption; try ring10.
Qed.

Lemma displayed_add_room m h :
  history_inv h -> count h < HISTORY_SIZE ->
  displayed (add_message_to_history m h)
  = displayed h ++ [strncpy_terminated m (MESSAGE_MAX_LENGTH - 1)].
Proof.
  intros [Hc Hs He Hr Ht Hring] Hlt.
  unfold add_message_to_history, displayed.
  destruct (Z.ltb_spec (count h) HISTORY_SIZE); [|lia]. simpl.
  apply list_eq. intros j.
  destruct (decide (j < Z.to_nat (count h + 1))%nat) as [Hj|Hj].
  - rewrite displayLoop_lookup by (rewrite ?length_insert; lia).
    destruct (decide (j = Z.to_nat (count h))) as [->|Hne].
    + rewrite lookup_app_r by (rewrite displayLoop_length; lia).
      rewrite displayLoop_length, Nat.sub_diag. simpl.
      replace (Z.rem (start h + Z.of_nat (Z.to_nat (count h))) HISTORY_SIZE)
        with (end_ h) by (rewrite Hring; f_equal; lia).
      apply list_lookup_insert_eq. ring10.
    + rewrite lookup_app_l by (rewrite displayLoop_length; lia).
      rewrite displayLoop_lookup by lia.
      apply list_lookup_insert_ne. ring10.
  - rewrite !(proj2 (lookup_ge_None _ _)); [reflexivity | |].
    + rewrite length_app, displayLoop_length. simpl. lia.
    + rewrite displayLoop_length. lia.
Qed.

Lemma displayed_add_full m h :
  history_inv h -> count h = HISTORY_SIZE ->
  displayed (add_message_to_history m h)
  = drop 1 (displayed h) ++ [strncpy_terminated m (MESSAGE_MAX_LENGTH - 1)].
Proof.
  intros [Hc Hs He Hr Ht Hring] Hfull.
  unfold add_message_to_history, displayed.
  destruct (Z.ltb_spec (count h) HISTORY_SIZE); [lia|]. simpl.
  assert (Hes : end_ h = start h) by ring10.
  apply list_eq. intros j.
  destruct (decide (j < Z.to_nat (count h))%nat) as [Hj|Hj].
  - rewrite displayLoop_lookup by (rewrite ?length_insert; try lia; ring10).
    destruct (decide (j = Z.to_nat (count h) - 1)%nat) as [->|Hne].
    + rewrite lookup_app_r by (rewrite length_drop, displayLoop_length; lia).
      rewrite length_drop, displayLoop_length.
      replace (Z.to_nat (count h) - 1 - (Z.to_nat (count h) - 1))%nat
        with 0%nat by lia.
      simpl.
      replace (Z.rem (Z.rem (start h + 1) HISTORY_SIZE
                      + Z.of_nat (Z.to_nat (count h) - 1)) HISTORY_SIZE)
        with (end_ h) by ring10.
      apply list_lookup_insert_eq. ring10.
    + rewrite lookup_app_l by (rewrite length_drop, displayLoop_length; lia).
      rewrite lookup_drop.
      rewrite displayLoop_lookup by lia.
      rewrite list_lookup_insert_ne by ring10.
      f_equal. f_equal. ring10.
  - rewrite !(proj2 (lookup_ge_None _ _)); [reflexivity | |].
    + rewrite length_app, length_drop, displayLoop_length. simpl. lia.
    + rewrite displayLoop_length. lia.
Qed.

(** C10: every call of [add_message_to_history] preserves the ring-buffer
    invariant ([0 <= count <= HISTORY_SIZE], [start] and [end_] in
    [[0, HISTORY_SIZE)], every row NUL-terminated within
    [MESSAGE_MAX_LENGTH] bytes, [end_] running [count] rows ahead of
    [start]).  While there is room the message is appended after the ones
    already shown; once [count] has reached [HISTORY_SIZE] the row written is
    the oldest one ([end_ = start]), [start] advances together with [end_],
    and the history shown is the former one without its oldest message,
    followed by the new message.  At most [HISTORY_SIZE] messages are shown. *)
Theorem add_message_to_history_ring m h :
  history_inv h ->
  let h' := add_message_to_history m h in
  let stored := strncpy_terminated m (MESSAGE_MAX_LENGTH - 1) in
  history_inv h'
  /\ (count h < HISTORY_SIZE ->
      count h' = count h + 1 /\ start h' = start h
      /\ displayed h' = displayed h ++ [stored])
  /\ (count h = HISTORY_SIZE ->
      end_ h = start h
      /\ count h' = HISTORY_SIZE
      /\ start h' = Z.rem (start h + 1) HISTORY_SIZE
      /\ end_ h' = start h'
      /\ displayed h' = drop 1 (displayed h) ++ [stored])
  /\ Z.of_nat (length (displayed h')) <= HISTORY_SIZE.
Proof.
  intros Hinv. cbv zeta.
  pose proof (add_preserves_inv m h Hinv) as Hinv'.
  split; [exact Hinv'|]. split; [|split].
  - intros Hlt. split; [|split].
    + unfold add_message_to_history.
      now destruct (Z.ltb_spec (count h) HISTORY_SIZE); [|lia].
    + unfold add_message_to_history.
      now destruct (Z.ltb_spec (count h) HISTORY_SIZE); [|lia].
    + now apply displayed_add_room.
  - intros Hfull. destruct Hinv as [Hc Hs He Hr Ht Hring].
    unfold add_message_to_history.
    destruct (Z.ltb_spec (count h) HISTORY_SIZE) as [|_]; [lia|]. simpl.
    assert (Hes : end_ h = start h) by ring10.
    repeat split; try assumption; try congruence.
    rewrite <- (displayed_add_full m h); [|split; assumption|assumption].
    unfold add_message_to_history.
    now destruct (Z.ltb_spec (count h) HISTORY_SIZE); [lia|].
  - unfold displayed. rewrite displayLoop_length.
    destruct Hinv' as [? _ _ _ _ _]. lia.
Qed.

(** Every history reached from the initial one satisfies the invariant and
    shows the last [HISTORY_SIZE] messages added, oldest first. *)
Lemma history_after_snoc ms m :
  history_after (ms ++ [m]) = add_message_to_history m (history_after ms).
Proof. unfold history_after. now rewrite fold_left_app. Qed.

Lemma history_after_inv ms : history_inv (history_after ms).
Proof.
  induction ms as [|m ms IH] using rev_ind.
  - apply history_inv_init.
  - rewrite history_after_snoc. now apply add_preserves_inv.
Qed.

End History.

Section HistoryRuns.
Import ChatClient.

Lemma history_after_count ms :
  count (history_after ms) = Z.min (Z.of_nat (length ms)) HISTORY_SIZE.
Proof.
  induction ms as [|m ms IH] using rev_ind; [reflexivity|].
  rewrite history_after_snoc, length_app. simpl length.
  unfold add_message_to_history.
  destruct (Z.ltb_spec (count (history_after ms)) HISTORY_SIZE); simpl;
    unfold HISTORY_SIZE in *; lia.
Qed.

(** The history shown after any sequence of messages: the last
    [HISTORY_SIZE] of them, each cut to [MESSAGE_MAX_LENGTH - 1] characters,
    oldest first. *)
Lemma displayed_history_after ms :
  displayed (history_after ms)
  = drop (length ms - Z.to_nat HISTORY_SIZE)
      (map (fun m => strncpy_terminated m (MESSAGE_MAX_LENGTH - 1)) ms).
Proof.
  induction ms as [|m ms IH] using rev_ind; [reflexivity|].
  rewrite history_after_snoc, map_app, length_app. simpl length. simpl map.
  pose proof (history_after_inv ms) as Hinv.
  pose proof (history_after_count ms) as Hc.
  assert (Hsize : Z.to_nat HISTORY_SIZE = 10%nat) by reflexivity.
  destruct (Z.lt_ge_cases (Z.of_nat (length ms)) HISTORY_SIZE) as [Hlt|Hge].
  - rewrite displayed_add_room by (try assumption; lia). rewrite IH, Hsize.
    unfold HISTORY_SIZE in Hlt.
    replace (length ms - 10)%nat with 0%nat by lia.
    replace (length ms + 1 - 10)%nat with 0%nat by lia.
    reflexivity.
  - rewrite displayed_add_full by (try assumption; lia). rewrite IH, Hsize.
    unfold HISTORY_SIZE in Hge.
    rewrite drop_drop.
    rewrite drop_app_le by (rewrite length_map; lia).
    f_equal. f_equal. lia.
Qed.

End HistoryRuns.

(* ===================================================================== *)
(** ** Facts: [splitString] *)
(* ===================================================================== *)

Lemma scanBackward_range input k :
  scanBackward input k = -1
  \/ 0 <= scanBackward input k < Z.of_nat k.
Proof.
  induction k as [|k IH]; simpl; [now left|].
  destruct (isspace (char_at input k)); [right; lia|].
  destruct IH as [->|IH]; [now left | right; lia].
Qed.

Lemma scanBackward_none input k :
  scanBackward input k = -1
  <-> forall j, (j < k)%nat -> isspace (char_at input j) = false.
Proof.
  induction k as [|k IH]; simpl.
  - split; [intros _ j Hj; lia | reflexivity].
  - destruct (isspace (char_at input k)) eqn:Hk.
    + split; [lia|]. intros H. rewrite H in Hk by lia. discriminate.
    + rewrite IH. split.
      * intros H j Hj. destruct (decide (j = k)) as [->|]; [exact Hk|].
        apply H. lia.
      * intros H j Hj. apply H. lia.
Qed.

Lemma scanBackward_found input k r :
  scanBackward input k = r -> r <> -1 ->
  isspace (char_at input (Z.to_nat r)) = true
  /\ forall j, (Z.to_nat r < j < k)%nat -> isspace (char_at input j) = false.
Proof.
  induction k as [|k IH]; simpl; intros Hr Hne; [congruence|].
  destruct (isspace (char_at input k)) eqn:Hk.
  - subst r. rewrite Nat2Z.id. split; [exact Hk | intros j Hj; lia].
  - destruct (IH Hr Hne) as [Hsp Hafter]. split; [exact Hsp|].
    intros j Hj. destruct (decide (j = k)) as [->|]; [exact Hk|].
    apply Hafter. lia.
Qed.

(** The result of the backward scan is the last white space below the
    limit, when there is one. *)
Lemma scanBackward_last input limit i :
  lastSpaceBefore input limit i -> scanBackward input (Z.to_nat limit) = i.
Proof.
  intros (Hi & Hsp & Hafter).
  destruct (Z.eq_dec (scanBackward input (Z.to_nat limit)) (-1)) as [E|E].
  - rewrite scanBackward_none in E. rewrite E in Hsp by lia. discriminate.
  - destruct (scanBackward_found _ _ _ eq_refl E) as [Hr Hrafter].
    destruct (scanBackward_range input (Z.to_nat limit)) as [?|Hrng]; [lia|].
    destruct (Z.lt_trichotomy (scanBackward input (Z.to_nat limit)) i)
      as [Hlt|[Heq|Hgt]]; [|exact Heq|].
    + rewrite Hrafter in Hsp by lia. discriminate.
    + rewrite Hafter in Hr by lia. discriminate.
Qed.

Lemma skipSpaces_bounds input sp left :
  (sp <= skipSpaces input sp left <= sp + left)%nat.
Proof.
  revert sp. induction left as [|k IH]; intros sp; simpl; [lia|].
  destruct (isspace (char_at input sp)); [|lia].
  specialize (IH (S sp)). lia.
Qed.

Lemma skipSpaces_first input sp left :
  isspace (char_at input sp) = true -> (0 < left)%nat ->
  (sp < skipSpaces input sp left)%nat.
Proof.
  intros Hsp Hleft. destruct left as [|k]; [lia|]. simpl. rewrite Hsp.
  pose proof (skipSpaces_bounds input (S sp) k). lia.
Qed.

Lemma char_at_lookup (s : cstring) (i : nat) (c : ascii) :
  s !! i = Some c -> char_at s i = c.
Proof. intros H. unfold char_at. now apply nth_lookup_Some with (d := NUL) in H. Qed.

(** What the loop skips is white space, and it stops at the end of the
    string or in front of a character that is not white space. *)
Lemma skipSpaces_skipped input sp left :
  (sp + left <= length input)%nat ->
  Forall (fun c => isspace c = true)
    (take (skipSpaces input sp left - sp) (drop sp input)).
Proof.
  revert sp. induction left as [|k IH]; intros sp Hlen; simpl.
  - rewrite Nat.sub_diag. constructor.
  - destruct (isspace (char_at input sp)) eqn:Hsp.
    + pose proof (skipSpaces_bounds input (S sp) k) as Hb.
      destruct (lookup_lt_is_Some_2 input sp ltac:(lia)) as [c Hc].
      rewrite (drop_S _ c) by exact Hc.
      replace (skipSpaces input (S sp) k - sp)%nat
        with (S (skipSpaces input (S sp) k - S sp)) by lia.
      simpl. constructor.
      * now rewrite <- (char_at_lookup _ _ _ Hc).
      * apply IH. lia.
    + rewrite Nat.sub_diag. constructor.
Qed.

Lemma skipSpaces_stop input sp left :
  (sp + left = length input)%nat ->
  drop (skipSpaces input sp left) input = []
  \/ exists c r, drop (skipSpaces input sp left) input = c :: r
                 /\ isspace c = false.
Proof.
  revert sp. induction left as [|k IH]; intros sp Hlen; simpl.
  - left. apply drop_ge. lia.
  - destruct (isspace (char_at input sp)) eqn:Hsp.
    + apply IH. lia.
    + right. destruct (lookup_lt_is_Some_2 input sp ltac:(lia)) as [c Hc].
      exists c, (drop (S sp) input). split.
      * now apply drop_S.
      * now rewrite <- (char_at_lookup _ _ _ Hc).
Qed.

Lemma splitString_parts input maxSize :
  maxSize < strlen input ->
  splitString input maxSize
  = (take (Z.to_nat (chosenSplit input maxSize)) input,
     drop (skipSpaces input (Z.to_nat (chosenSplit input maxSize))
             (Z.to_nat (strlen input - chosenSplit input maxSize))) input).
Proof.
  intros Hlen. unfold splitString, chosenSplit.
  destruct (Z.gtb_spec (strlen input) maxSize) as [_|]; [|lia].
  cbv zeta. f_equal. unfold strncpy_terminated.
  rewrite Nat2Z.id. apply take_ge. rewrite length_drop. unfold strlen. lia.
Qed.

Lemma chosenSplit_cases input maxSize :
  0 < maxSize ->
  chosenSplit input maxSize = maxSize
  \/ (0 <= chosenSplit input maxSize < maxSize
      /\ strlen input - chosenSplit input maxSize < maxSize - 1
      /\ lastSpaceBefore input maxSize (chosenSplit input maxSize)).
Proof.
  intros Hpos. unfold chosenSplit. cbv zeta.
  destruct (Z.eqb_spec (scanBackward input (Z.to_nat maxSize)) (-1)) as [E|E];
    [now left|].
  destruct (Z.geb_spec (strlen input - scanBackward input (Z.to_nat maxSize))
              (maxSize - 1)); simpl; [now left|].
  right.
  destruct (scanBackward_range input (Z.to_nat maxSize)) as [?|Hr]; [lia|].
  destruct (scanBackward_found _ _ _ eq_refl E) as [Hsp Hafter].
  repeat split; try lia; [exact Hsp|].
  intros j Hj. rewrite Hafter by lia. reflexivity.
Qed.

Example splitString_at_space :
  splitString sample_split_short_tail 40
  = (lit "xxxxxxxxxxxxxxxxxxxxxxxxxxxxxx", lit "yyyyyyyyyyyyyyyyyyyy").
Proof. reflexivity. Qed.

Example splitString_at_limit :
  splitString sample_split_input 40
  = (lit "xxxxxxxxxx yyyyyyyyyyyyyyyyyyyyyyyyyyyyy", lit "yyyyyyyyyy").
Proof. reflexivity. Qed.

(** [splitString] on a text longer than the outbound limit and within the
    inbound limit: the lengths of the parts, the round trip, and where the
    first part ends. *)
Lemma splitString_long input :
  BROADCAST_MESSAGE_LENGTH < strlen input <= CLIENT_MESSAGE_LENGTH ->
  let firstPart := fst (splitString input BROADCAST_MESSAGE_LENGTH) in
  let secondPart := snd (splitString input BROADCAST_MESSAGE_LENGTH) in
  strlen firstPart <= BROADCAST_MESSAGE_LENGTH
  /\ strlen secondPart <= BROADCAST_MESSAGE_LENGTH
  /\ (exists ws, Forall (fun c => isspace c = true) ws
                 /\ firstPart ++ ws ++ secondPart = input)
  /\ (secondPart = []
      \/ exists c r, secondPart = c :: r /\ isspace c = false)
  /\ (forall i, lastSpaceBefore input BROADCAST_MESSAGE_LENGTH i ->
        strlen input - i < BROADCAST_MESSAGE_LENGTH - 1 ->
        firstPart = take (Z.to_nat i) input)
  /\ (forall i, lastSpaceBefore input BROADCAST_MESSAGE_LENGTH i ->
        BROADCAST_MESSAGE_LENGTH - 1 <= strlen input - i ->
        firstPart = take (Z.to_nat BROADCAST_MESSAGE_LENGTH) input)
  /\ (noSpaceBefore input BROADCAST_MESSAGE_LENGTH ->
        firstPart = take (Z.to_nat BROADCAST_MESSAGE_LENGTH) input).
Proof.
  intros Hlen. cbv zeta.
  rewrite splitString_parts by lia. simpl fst. simpl snd.
  set (sp := chosenSplit input BROADCAST_MESSAGE_LENGTH).
  set (sp' := skipSpaces input (Z.to_nat sp) (Z.to_nat (strlen input - sp))).
  pose proof (chosenSplit_cases input BROADCAST_MESSAGE_LENGTH
                ltac:(unfold BROADCAST_MESSAGE_LENGTH; lia)) as Hsp.
  fold sp in Hsp.
  pose proof (skipSpaces_bounds input (Z.to_nat sp)
                (Z.to_nat (strlen input - sp))) as Hb.
  fold sp' in Hb.
  unfold BROADCAST_MESSAGE_LENGTH, CLIENT_MESSAGE_LENGTH, strlen in *.
  assert (Hrange : 0 <= sp <= 40 /\ (sp = 40 \/ Z.of_nat (length input) - sp < 39))
    by (destruct Hsp as [->|(?&?&?)]; lia).
  split; [rewrite length_take; lia|].
  split.
  { rewrite length_drop.
    destruct Hsp as [Hsp|(Hr & Hfit & _ & Hspace & _)]; [lia|].
    pose proof (skipSpaces_first input (Z.to_nat sp)
                  (Z.to_nat (Z.of_nat (length input) - sp)) Hspace ltac:(lia)).
    fold sp' in H. lia. }
  split.
  { exists (take (sp' - Z.to_nat sp) (drop (Z.to_nat sp) input)). split.
    - apply skipSpaces_skipped. lia.
    - replace (drop sp' input)
        with (drop (sp' - Z.to_nat sp) (drop (Z.to_nat sp) input))
        by (rewrite drop_drop; f_equal; lia).
      now rewrite take_drop, take_drop. }
  split.
  { apply skipSpaces_stop. lia. }
  assert (Hscan : forall i, lastSpaceBefore input 40 i ->
            sp = if (i =? -1) || (Z.of_nat (length input) - i >=? 40 - 1)
                 then 40 else i).
  { intros i Hi. unfold sp, chosenSplit, strlen. cbv zeta.
    now rewrite (scanBackward_last _ _ _ Hi). }
  split; [|split].
  - intros i Hi Hfit. rewrite (Hscan i Hi).
    destruct Hi as (Hi & _).
    destruct (Z.eqb_spec i (-1)); [lia|].
    destruct (Z.geb_spec (Z.of_nat (length input) - i) (40 - 1)); [lia|].
    reflexivity.
  - intros i Hi Hfit. rewrite (Hscan i Hi).
    destruct (Z.eqb_spec i (-1)); [reflexivity|].
    destruct (Z.geb_spec (Z.of_nat (length input) - i) (40 - 1)); [|lia].
    reflexivity.
  - intros Hno. unfold sp, chosenSplit. cbv zeta.
    replace (scanBackward input (Z.to_nat 40)) with (-1); [reflexivity|].
    symmetry. apply scanBackward_none. intros j Hj.
    specialize (Hno (Z.of_nat j) ltac:(lia)). now rewrite Nat2Z.id in Hno.
Qed.

(** The texts that [sendMessageToQueue] broadcasts, as the code has them:
    an inbound text of at most 80 characters gives one broadcast text, the inbound text itself, when it has at most 40
    characters, and otherwise the two parts of [splitString] with outbound
    limit 40.  Both parts then have at most 40 characters; putting back
    between them the white space that was skipped at the split gives the
    inbound text again, and the second part does not start with white
    space; the first part ends at the last white space below position 40
    when there is one and fewer than 39 characters follow from it on
    ([strlen input - i < 40 - 1]), and at position 40 otherwise. *)
Theorem splitString_two_parts input :
  strlen input <= CLIENT_MESSAGE_LENGTH ->
  let firstPart := fst (splitString input BROADCAST_MESSAGE_LENGTH) in
  let secondPart := snd (splitString input BROADCAST_MESSAGE_LENGTH) in
  (strlen input <= BROADCAST_MESSAGE_LENGTH -> broadcastTexts input = [input])
  /\ (BROADCAST_MESSAGE_LENGTH < strlen input ->
      broadcastTexts input = [firstPart; secondPart]
      /\ strlen firstPart <= BROADCAST_MESSAGE_LENGTH
      /\ strlen secondPart <= BROADCAST_MESSAGE_LENGTH
      /\ (exists ws, Forall (fun c => isspace c = true) ws
                     /\ firstPart ++ ws ++ secondPart = input)
      /\ (secondPart = []
          \/ exists c r, secondPart = c :: r /\ isspace c = false)
      /\ (forall i, lastSpaceBefore input BROADCAST_MESSAGE_LENGTH i ->
            strlen input - i < BROADCAST_MESSAGE_LENGTH - 1 ->
            firstPart = take (Z.to_nat i) input)
      /\ (forall i, lastSpaceBefore input BROADCAST_MESSAGE_LENGTH i ->
            BROADCAST_MESSAGE_LENGTH - 1 <= strlen input - i ->
            firstPart = take (Z.to_nat BROADCAST_MESSAGE_LENGTH) input)
      /\ (noSpaceBefore input BROADCAST_MESSAGE_LENGTH ->
            firstPart = take (Z.to_nat BROADCAST_MESSAGE_LENGTH) input)).
Proof.
  intros Hmax. cbv zeta. split.
  - intros Hshort. unfold broadcastTexts.
    destruct (Z.gtb_spec (strlen input) BROADCAST_MESSAGE_LENGTH); [lia|].
    simpl. now rewrite strncpy_terminated_fits.
  - intros Hlong. split.
    + unfold broadcastTexts.
      destruct (Z.gtb_spec (strlen input) BROADCAST_MESSAGE_LENGTH); [|lia].
      simpl. now destruct (splitString input BROADCAST_MESSAGE_LENGTH).
    + apply splitString_long. lia.
Qed.

(** The split point as the specification words it is not the one of the
    code: in [sample_split_input] the last white space below 40 is at
    position 10 and the 40 characters from there on fit the limit, yet the
    text is cut at position 40. *)
Lemma splitString_not_at_fitting_space :
  ~ splits_at_space_when_remainder_fits sample_split_input
      BROADCAST_MESSAGE_LENGTH.
Proof.
  intros H. specialize (H 10).
  assert (Hlast : lastSpaceBefore sample_split_input BROADCAST_MESSAGE_LENGTH 10).
  { unfold BROADCAST_MESSAGE_LENGTH. repeat split; try lia.
    intros j Hj.
    assert (Hall : forallb
              (fun k => negb (isspace (char_at sample_split_input k)))
              (seq 11 29) = true) by reflexivity.
    rewrite forallb_forall in Hall.
    specialize (Hall (Z.to_nat j)). apply negb_true_iff, Hall.
    apply in_seq. lia. }
  specialize (H Hlast). vm_compute in H.
  specialize (H ltac:(discriminate)). discriminate.
Qed.

(* ===================================================================== *)
(** ** Facts: [processMessage] *)
(* ===================================================================== *)

Lemma isWhitespace_cases s : isWhitespace s = 1 \/ isWhitespace s = 0.
Proof.
  induction s as [|c r IH]; simpl; [now left|].
  destruct (isspace c); simpl; [exact IH | now right].
Qed.

Lemma isWhitespace_1_iff s :
  isWhitespace s = 1 <-> Forall (fun c => isspace c = true) s.
Proof.
  induction s as [|c r IH]; simpl.
  - split; [constructor | reflexivity].
  - destruct (isspace c) eqn:Hc; simpl.
    + rewrite IH. split; [now constructor | now inversion 1].
    + split; [lia|]. inversion 1; congruence.
Qed.

Lemma isWhitespace_0_iff s :
  isWhitespace s <> 1 <-> Exists (fun c => isspace c = false) s.
Proof.
  induction s as [|c r IH]; simpl.
  - split; [congruence | inversion 1].
  - destruct (isspace c) eqn:Hc; simpl.
    + rewrite IH. split; [now right | inversion 1; congruence].
    + split; [now left | lia].
Qed.

(** Comparing with a literal over [sizeof] bytes is comparing for equality. *)
Lemma strncmp_sizeof (s t : cstring) :
  strncmp s t (Z.to_nat (sizeof_lit t)) = 0 <-> s = t.
Proof.
  rewrite strncmp_0_iff. unfold sizeof_lit, strlen.
  replace (Z.to_nat (Z.of_nat (length t) + 1)) with (S (length t)) by lia.
  rewrite (take_ge t) by lia. split.
  - intros H. assert (Hlen : length (take (S (length t)) s) = length t)
      by now rewrite H.
    rewrite length_take in Hlen. rewrite take_ge in H by lia. exact H.
  - intros ->. apply take_ge. lia.
Qed.

Lemma rejectedEarly_false nbr m :
  rejectedEarly nbr m = false
  <-> nbr <> -1 /\ cmUserID m <> []
      /\ Exists (fun c => isspace c = false) (cmUserID m).
Proof.
  unfold rejectedEarly. rewrite !orb_false_iff, !Z.eqb_neq.
  rewrite isWhitespace_0_iff. unfold strlen.
  split; intros ((H1 & H2) & H3) || intros (H1 & H2 & H3);
    repeat split; try assumption.
  - intros E. rewrite E in H2. simpl in H2. lia.
  - destruct (cmUserID m); [congruence | simpl; lia].
Qed.

(** The lookup by address and user id, in terms of the registered entries. *)
Lemma findUserInList_none ip uid sd :
  registry_wf sd ->
  (findUserInList ip uid sd = ENTRY_NOT_FOUND_OR_NULL
   <-> ~ is_registered (strncpy_terminated ip CLIENT_IP_LENGTH)
           (strncpy_terminated uid CLIENT_USERID_LENGTH) sd).
Proof.
  intros [Hn Hlen Hfits]. unfold findUserInList.
  rewrite findIndexFrom_none by lia. unfold is_registered, strncpy_terminated.
  split.
  - intros H (c & Hin & Hip & Huid).
    apply elem_of_take in Hin as (j & Hj & Hlt).
    specialize (H (Z.of_nat j) ltac:(lia)).
    rewrite (aget_lookup _ _ c) in H by now rewrite Nat2Z.id.
    apply andb_false_iff in H. rewrite !Z.eqb_neq, !strncmp_0_iff in H.
    rewrite Hip, Huid, !take_take, !Nat.min_id in H. tauto.
  - intros H j Hj.
    destruct (_ && _) eqn:E; [|reflexivity]. exfalso. apply H.
    apply andb_true_iff in E. rewrite !Z.eqb_eq, !strncmp_0_iff in E.
    destruct E as [Eip Euid].
    pose proof (lookup_aget (connectedClients sd) j ltac:(lia)) as Hj'.
    exists (aget (connectedClients sd) j). split.
    + apply elem_of_take. exists (Z.to_nat j). split; [exact Hj' | lia].
    + rewrite Forall_lookup in Hfits. destruct (Hfits _ _ Hj') as [F1 F2].
      unfold strlen in F1, F2.
      rewrite <- Eip, <- Euid. split; symmetry; apply take_ge; lia.
Qed.

Lemma findUserInList_none_fits ip uid sd :
  registry_wf sd ->
  strlen ip <= CLIENT_IP_LENGTH -> strlen uid <= CLIENT_USERID_LENGTH ->
  (findUserInList ip uid sd = ENTRY_NOT_FOUND_OR_NULL
   <-> ~ is_registered ip uid sd).
Proof.
  intros Hwf Hip Huid. rewrite findUserInList_none by assumption.
  now rewrite !strncpy_terminated_fits by assumption.
Qed.

Lemma sendServerMessage_token (send_result : Z -> cstring -> Z) sock token w :
  strlen token <= BROADCAST_MESSAGE_LENGTH ->
  sendServerMessage send_result sock token w
  = (tt, logged [EvSend sock (serverReply token)] w).
Proof.
  intros Hlen. unfold sendServerMessage, send, emit, bind, ret, logged,
    serverReply. simpl.
  rewrite take_ge; [reflexivity|].
  unfold strlen, BROADCAST_MESSAGE_LENGTH in *. lia.
Qed.

Lemma logged_logged es1 es2 w : logged es2 (logged es1 w) = logged (es1 ++ es2) w.
Proof. unfold logged. simpl. now rewrite app_assoc. Qed.


(** Running the primitives of the world. *)
Lemma run_bind {A B} (m : M A) (f : A -> M B) w a w' :
  m w = (a, w') -> bind m f w = f a w'.
Proof. intros H. unfold bind. now rewrite H. Qed.

Lemma bind_assoc {A B C} (m : M A) (f : A -> M B) (g : B -> M C) w :
  bind (bind m f) g w = bind m (fun x => bind (f x) g) w.
Proof. unfold bind. now destruct (m w). Qed.

Lemma run_ret {A} (a : A) w : ret a w = (a, w).
Proof. reflexivity. Qed.

Lemma run_emit e w : emit e w = (tt, logged [e] w).
Proof. reflexivity. Qed.

Lemma run_lock w : lock w = (tt, logged [EvLock] w).
Proof. reflexivity. Qed.

Lemma run_unlock w : unlock w = (tt, logged [EvUnlock] w).
Proof. reflexivity. Qed.

Lemma run_close sock w : close sock w = (tt, logged [EvClose sock] w).
Proof. reflexivity. Qed.

Lemma run_getShared w : getShared w = (shared w, w).
Proof. reflexivity. Qed.

Lemma run_addToListM tid ip uid sock w :
  addToListM tid ip uid sock w
  = (fst (addToList tid ip uid sock (shared w)),
     with_shared (snd (addToList tid ip uid sock (shared w))) w).
Proof.
  unfold addToListM, bind, getShared.
  now destruct (addToList tid ip uid sock (shared w)).
Qed.

Lemma run_removeFromListM i w :
  removeFromListM i w
  = (fst (removeFromList i (shared w)),
     with_shared (snd (removeFromList i (shared w))) w).
Proof.
  unfold removeFromListM, bind, getShared.
  now destruct (removeFromList i (shared w)).
Qed.

Lemma addToList_status tid ip uid sock sd :
  fst (addToList tid ip uid sock sd)
  = if numClients sd <? MAX_CLIENTS then SUCCESS else TOO_MANY_CLIENTS.
Proof. unfold addToList. now destruct (numClients sd <? MAX_CLIENTS). Qed.

Lemma with_shared_same w : with_shared (shared w) w = w.
Proof. now destruct w. Qed.

Lemma run_putShared sd w : putShared sd w = (tt, with_shared sd w).
Proof. reflexivity. Qed.

Lemma run_send (send_result : Z -> cstring -> Z) sock payload w :
  send send_result sock payload w
  = (send_result sock payload, logged [EvSend sock payload] w).
Proof. reflexivity. Qed.

Lemma with_shared_logged sd es w :
  with_shared sd (logged es w) = logged es (with_shared sd w).
Proof. reflexivity. Qed.

(** One step of the computation [bind m f w] in the goal, by the head of
    [m]. *)
Ltac run_step :=
  lazymatch goal with
  | |- context [bind ?m ?f ?w] =>
      lazymatch m with
      | bind _ _ => rewrite (bind_assoc _ _ f w)
      | ret ?a => rewrite (run_bind m f w _ _ (run_ret a w))
      | lock => rewrite (run_bind m f w _ _ (run_lock w))
      | unlock => rewrite (run_bind m f w _ _ (run_unlock w))
      | close ?s => rewrite (run_bind m f w _ _ (run_close s w))
      | emit ?e => rewrite (run_bind m f w _ _ (run_emit e w))
      | getShared => rewrite (run_bind m f w _ _ (run_getShared w))
      | putShared ?s => rewrite (run_bind m f w _ _ (run_putShared s w))
      | send ?r ?s ?p => rewrite (run_bind m f w _ _ (run_send r s p w))
      | addToListM ?t ?i ?u ?s =>
          rewrite (run_bind m f w _ _ (run_addToListM t i u s w))
      | removeFromListM ?i =>
          rewrite (run_bind m f w _ _ (run_removeFromListM i w))
      | sendServerMessage _ _ _ =>
          erewrite (run_bind m f w)
            by (apply sendServerMessage_token; vm_compute; intro; discriminate)
      end
  end;
  cbv beta zeta.

(** [processMessage] on a registration attempt, case by case. *)
Lemma processMessage_registration (send_result : Z -> cstring -> Z)
    tid sock ip nbr m w :
  processMessage send_result tid sock ip IS_REGISTRATION nbr m w
  = if rejectedEarly nbr m then
      (MESSAGE_PROCESS_FAILED,
       logged [EvSend sock (serverReply SERVER_REGISTRATION_FAIL_MSG)] w)
    else if (strncmp (cmMessage m) SERVER_REGISTRATION_MSG
               (Z.to_nat (sizeof_lit SERVER_REGISTRATION_MSG)) =? 0)
            && (findUserInList ip (cmUserID m) (shared w)
                =? ENTRY_NOT_FOUND_OR_NULL)
    then
      if numClients (shared w) <? MAX_CLIENTS then
        (MESSAGE_PROCESS_SUCCESS,
         logged [EvLock;
                 EvSend sock (serverReply SERVER_REGISTRATION_SUCCESS_MSG);
                 EvUnlock]
           (with_shared
              (snd (addToList tid ip (cmUserID m) sock (shared w))) w))
      else (MESSAGE_PROCESS_FAILED, logged [EvLock; EvUnlock] w)
    else
      (REGISTRATION_FAILED,
       logged [EvLock;
               EvSend sock (serverReply SERVER_REGISTRATION_FAIL_MSG);
               EvUnlock] w).
Proof.
  unfold processMessage. fold (rejectedEarly nbr m).
  change (negb (IS_REGISTRATION =? 0)) with true. cbv iota.
  destruct (rejectedEarly nbr m).
  - run_step. reflexivity.
  - do 2 run_step. simpl shared.
    destruct (_ && _).
    + do 2 run_step. simpl shared. rewrite addToList_status.
      destruct (Z.ltb_spec (numClients (shared w)) MAX_CLIENTS).
      * change (SUCCESS =? TOO_MANY_CLIENTS) with false. cbv iota.
        do 4 run_step. unfold ret.
        now rewrite with_shared_logged, !logged_logged.
      * change (TOO_MANY_CLIENTS =? TOO_MANY_CLIENTS) with true. cbv iota.
        do 2 run_step. unfold ret.
        rewrite addToList_full by lia. simpl snd.
        change (shared w) with (shared (logged [EvLock] w)) at 1.
        rewrite with_shared_same. now rewrite !logged_logged.
    + do 4 run_step. unfold ret. now rewrite !logged_logged.
Qed.

Lemma run_enqueueAll ip uid texts retVal w :
  enqueueAll ip uid texts retVal w
  = if queueRemoved w
    then (match texts with [] => retVal | _ => MESSAGE_PROCESS_FAILED end, w)
    else (retVal,
          with_queue
            (queue w
             ++ map (mkBroadcast (strncpy_terminated ip CLIENT_IP_LENGTH)
                       (strncpy_terminated uid CLIENT_USERID_LENGTH)) texts) w).
Proof.
  revert retVal w. induction texts as [|t rest IH]; intros retVal w; simpl.
  - unfold ret, with_queue. rewrite app_nil_r.
    destruct w as [sd q [|] l tr]; reflexivity.
  - unfold bind, msgsnd. destruct w as [sd q [|] l tr]; simpl.
    + rewrite IH. simpl. now destruct rest.
    + rewrite IH. unfold with_queue. simpl. now rewrite <- app_assoc.
Qed.

Lemma run_sendMessageToQueue ip m w :
  snd (sendMessageToQueue ip m w)
  = if queueRemoved w then w
    else with_queue (queue w ++ broadcastsOf ip m) w.
Proof.
  unfold sendMessageToQueue. rewrite run_enqueueAll.
  now destruct (queueRemoved w).
Qed.

(** [processMessage] on a message of a registered client, case by case. *)
Lemma processMessage_message (send_result : Z -> cstring -> Z)
    tid sock ip nbr m w :
  processMessage send_result tid sock ip IS_MESSAGE nbr m w
  = if rejectedEarly nbr m then (MESSAGE_PROCESS_FAILED, w)
    else if strncmp (cmMessage m) SERVER_QUIT_MSG
              (Z.to_nat (sizeof_lit SERVER_QUIT_MSG)) =? 0
    then
      (MESSAGE_PROCESS_QUIT,
       logged [EvLock; EvUnlock]
         (with_shared
            (snd (removeFromList (findThreadIDInList tid (shared w))
                    (shared w))) w))
    else
      (MESSAGE_PROCESS_SUCCESS,
       logged [EvLock; EvUnlock]
         (if queueRemoved w then w
          else with_queue (queue w ++ broadcastsOf ip m) w)).
Proof.
  unfold processMessage. fold (rejectedEarly nbr m).
  change (negb (IS_MESSAGE =? 0)) with false. cbv iota.
  destruct (rejectedEarly nbr m).
  - now run_step.
  - run_step. destruct (_ =? 0).
    + repeat run_step. simpl shared. unfold ret.
      now rewrite with_shared_logged, !logged_logged.
    + run_step. erewrite run_bind by apply surjective_pairing.
      rewrite run_sendMessageToQueue.
      repeat run_step. unfold ret.
      change (queueRemoved (logged [EvLock] w)) with (queueRemoved w).
      destruct (queueRemoved w).
      * now rewrite logged_logged.
      * unfold logged, with_queue. simpl. now rewrite <- app_assoc.
Qed.

(** The shared data after [processMessage]: as before, or with the new
    client added after a lookup that found no such user, or with the
    client's own entry removed. *)
Lemma processMessage_shared (send_result : Z -> cstring -> Z)
    tid sock ip isReg nbr m w :
  let sd := shared w in
  let sd' := shared (snd (processMessage send_result tid sock ip isReg nbr m w)) in
  sd' = sd
  \/ (findUserInList ip (cmUserID m) sd = ENTRY_NOT_FOUND_OR_NULL
      /\ sd' = snd (addToList tid ip (cmUserID m) sock sd))
  \/ sd' = snd (removeFromList (findThreadIDInList tid sd) sd).
Proof.
  cbv zeta. destruct (Z.eqb_spec isReg 0) as [->|Hreg].
  - change 0 with IS_MESSAGE. rewrite processMessage_message.
    destruct (rejectedEarly nbr m); [now left|].
    destruct (_ =? 0); [right; right; reflexivity | left].
    simpl. now destruct (queueRemoved w).
  - assert (E : processMessage send_result tid sock ip isReg nbr m w
                = processMessage send_result tid sock ip IS_REGISTRATION nbr m w).
    { unfold processMessage. apply Z.eqb_neq in Hreg. rewrite Hreg.
      reflexivity. }
    rewrite E, processMessage_registration.
    destruct (rejectedEarly nbr m); [now left|].
    destruct (_ && _) eqn:Hc; [|now left].
    apply andb_true_iff in Hc as [_ Hfound]. apply Z.eqb_eq in Hfound.
    destruct (_ <? _); [right; left | left]; auto.
Qed.

(** [clientHandler_step], case by case. *)
Lemma clientHandler_step_awaiting (send_result : Z -> cstring -> Z)
    tid sock ip nbr m w :
  clientHandler_step send_result tid sock ip AwaitingRegistration nbr m w
  = let r := processMessage send_result tid sock ip IS_REGISTRATION nbr m w in
    if fst r =? MESSAGE_PROCESS_SUCCESS then (Registered, snd r)
    else (Closed, logged [EvClose sock] (snd r)).
Proof.
  unfold clientHandler_step. cbv zeta.
  erewrite run_bind by apply surjective_pairing.
  destruct (_ =? _); cbn [negb]; cbv iota; [reflexivity|].
  now run_step.
Qed.

Lemma clientHandler_step_registered (send_result : Z -> cstring -> Z)
    tid sock ip nbr m w :
  clientHandler_step send_result tid sock ip Registered nbr m w
  = let r := processMessage send_result tid sock ip IS_MESSAGE nbr m w in
    (if fst r =? MESSAGE_PROCESS_SUCCESS then Registered else Leaving, snd r).
Proof.
  unfold clientHandler_step. cbv zeta.
  erewrite run_bind by apply surjective_pairing.
  now destruct (_ =? _).
Qed.

Lemma clientHandler_step_leaving (send_result : Z -> cstring -> Z)
    tid sock ip nbr m w :
  clientHandler_step send_result tid sock ip Leaving nbr m w
  = (Closed,
     logged [EvLock; EvUnlock; EvClose sock]
       (with_shared
          (snd (removeFromList (findThreadIDInList tid (shared w))
                  (shared w))) w)).
Proof.
  unfold clientHandler_step.
  repeat run_step. simpl shared. unfold ret.
  now rewrite !with_shared_logged, !logged_logged.
Qed.

(* ===================================================================== *)
(** ** Registration: who is accepted, and what the others are told *)
(* ===================================================================== *)

(** The tests of the code, read as the conditions of the specification. *)
Lemma registration_accepted_tests ip nbr m sd :
  registry_wf sd ->
  strlen ip <= CLIENT_IP_LENGTH -> strlen (cmUserID m) <= CLIENT_USERID_LENGTH ->
  (registration_accepted ip nbr m sd
   <-> rejectedEarly nbr m = false
       /\ (strncmp (cmMessage m) SERVER_REGISTRATION_MSG
             (Z.to_nat (sizeof_lit SERVER_REGISTRATION_MSG)) =? 0)
          && (findUserInList ip (cmUserID m) sd =? ENTRY_NOT_FOUND_OR_NULL)
          = true
       /\ (numClients sd <? MAX_CLIENTS) = true).
Proof.
  intros Hwf Hip Huid.
  unfold registration_accepted, registration_accepted_as_claimed.
  rewrite rejectedEarly_false, andb_true_iff, !Z.eqb_eq, Z.ltb_lt.
  rewrite strncmp_sizeof, findUserInList_none_fits by assumption.
  tauto.
Qed.

Lemma serverReply_distinct :
  serverReply SERVER_REGISTRATION_FAIL_MSG
  <> serverReply SERVER_REGISTRATION_SUCCESS_MSG.
Proof. vm_compute. discriminate. Qed.

(** C1, as the code has it: a message processed in [AwaitingRegistration]
    gets the client added to the registry and answered with [>>success<<]
    if and only if the read did not fail, the decoded user id is neither
    empty nor all white space, the decoded text equals [>>hello<<], no
    registered entry has the same (address, user id) pair, and the count is
    below [MAX_CLIENTS]; in every other case the attempt fails, the shared
    data are unchanged and no [>>success<<] reply is sent. *)
Theorem registration_iff (send_result : Z -> cstring -> Z)
    tid sock ip nbr m w :
  registry_wf (shared w) ->
  strlen ip <= CLIENT_IP_LENGTH ->
  strlen (cmUserID m) <= CLIENT_USERID_LENGTH ->
  let r := processMessage send_result tid sock ip IS_REGISTRATION nbr m w in
  let success := EvSend sock (serverReply SERVER_REGISTRATION_SUCCESS_MSG) in
  (registration_accepted ip nbr m (shared w) ->
     fst r = MESSAGE_PROCESS_SUCCESS
     /\ registered (shared (snd r))
        = registered (shared w) ++ [mkClientState tid ip (cmUserID m) sock]
     /\ numClients (shared (snd r)) = numClients (shared w) + 1
     /\ trace (snd r) = trace w ++ [EvLock; success; EvUnlock])
  /\ (~ registration_accepted ip nbr m (shared w) ->
     fst r <> MESSAGE_PROCESS_SUCCESS
     /\ shared (snd r) = shared w
     /\ exists es, trace (snd r) = trace w ++ es /\ success ∉ es).
Proof.
  intros Hwf Hip Huid. cbv zeta.
  rewrite (registration_accepted_tests ip nbr m (shared w) Hwf Hip Huid).
  rewrite processMessage_registration.
  pose proof serverReply_distinct as Hd.
  destruct (rejectedEarly nbr m).
  { split; [intros (? & _); discriminate|]. intros _. simpl.
    repeat split; [discriminate|]. eexists; split; [reflexivity|].
    rewrite !elem_of_cons, elem_of_nil. intuition congruence. }
  destruct (_ && _).
  2:{ split; [intros (_ & ? & _); discriminate|]. intros _. simpl.
      repeat split; [discriminate|]. eexists; split; [reflexivity|].
      rewrite !elem_of_cons, elem_of_nil. intuition congruence. }
  destruct (Z.ltb_spec (numClients (shared w)) MAX_CLIENTS) as [Hlt|Hge].
  2:{ split; [intros (_ & _ & ?); discriminate|]. intros _. simpl.
      repeat split; [discriminate|]. eexists; split; [reflexivity|].
      rewrite !elem_of_cons, elem_of_nil. intuition congruence. }
  split; [|intros H; exfalso; apply H; auto].
  intros _. destruct Hwf as [Hn Hlen _]. simpl.
  rewrite addToList_below by lia. simpl.
  repeat split.
  rewrite registered_add by lia. unfold newEntry.
  now rewrite !strncpy_terminated_fits by assumption.
Qed.

(** C1 as worded fails on the code: with an empty user id, the token
    [>>hello<<], an empty registry and room left, the three conditions of
    the claim hold and yet the client is refused. *)
Lemma registration_refused_despite_claim :
  ~ (registration_accepted_as_claimed sample_ip (hello_from [])
       (shared sample_world)
     -> fst (processMessage send_all_fail 1 7 sample_ip IS_REGISTRATION 30
               (hello_from []) sample_world)
        = MESSAGE_PROCESS_SUCCESS).
Proof.
  intros H.
  assert (Hc : registration_accepted_as_claimed sample_ip (hello_from [])
                 (shared sample_world)).
  { split; [reflexivity|]. split; [|reflexivity].
    intros (c & Hin & _). vm_compute in Hin. now apply elem_of_nil in Hin. }
  specialize (H Hc). vm_compute in H. discriminate.
Qed.

(** The refusals that are answered: an early rejection (failed read, empty
    or all-white-space user id), a wrong token, a pair already registered.
    Each gets the [>>failed<<] reply once, with empty origin fields, and the
    handler then closes the socket and is [Closed]. *)
Lemma registration_refused_replied (send_result : Z -> cstring -> Z)
    tid sock ip nbr m w :
  registry_wf (shared w) ->
  strlen ip <= CLIENT_IP_LENGTH ->
  strlen (cmUserID m) <= CLIENT_USERID_LENGTH ->
  let failed := EvSend sock (serverReply SERVER_REGISTRATION_FAIL_MSG) in
  let step := clientHandler_step send_result tid sock ip AwaitingRegistration
                nbr m w in
  (rejectedEarly nbr m = true ->
     step = (Closed, logged [failed; EvClose sock] w))
  /\ (rejectedEarly nbr m = false ->
      cmMessage m <> SERVER_REGISTRATION_MSG
      \/ is_registered ip (cmUserID m) (shared w) ->
      step = (Closed, logged [EvLock; failed; EvUnlock; EvClose sock] w)).
Proof.
  intros Hwf Hip Huid. cbv zeta.
  rewrite clientHandler_step_awaiting, processMessage_registration. cbv zeta.
  split.
  - intros ->. simpl. now rewrite logged_logged.
  - intros -> Hbad.
    assert (E : (strncmp (cmMessage m) SERVER_REGISTRATION_MSG
                   (Z.to_nat (sizeof_lit SERVER_REGISTRATION_MSG)) =? 0)
                && (findUserInList ip (cmUserID m) (shared w)
                    =? ENTRY_NOT_FOUND_OR_NULL) = false).
    { apply andb_false_iff. rewrite !Z.eqb_neq, strncmp_sizeof.
      rewrite findUserInList_none_fits by assumption.
      destruct Hbad; [now left | right; tauto]. }
    rewrite E. simpl. now rewrite logged_logged.
Qed.

(** C2 at its failing case: with the registry full, a client that sends a
    well-formed [>>hello<<] under a pair nobody holds is refused without any
    reply; the handler takes and releases the lock, closes the socket and
    is [Closed]. *)
Theorem registration_full_no_reply (send_result : Z -> cstring -> Z)
    tid sock ip nbr m w :
  registry_wf (shared w) ->
  strlen ip <= CLIENT_IP_LENGTH ->
  strlen (cmUserID m) <= CLIENT_USERID_LENGTH ->
  rejectedEarly nbr m = false ->
  cmMessage m = SERVER_REGISTRATION_MSG ->
  ~ is_registered ip (cmUserID m) (shared w) ->
  numClients (shared w) = MAX_CLIENTS ->
  clientHandler_step send_result tid sock ip AwaitingRegistration nbr m w
  = (Closed, logged [EvLock; EvUnlock; EvClose sock] w).
Proof.
  intros Hwf Hip Huid Hearly Hmsg Hnew Hfull.
  rewrite clientHandler_step_awaiting, processMessage_registration. cbv zeta.
  rewrite Hearly.
  assert (E : (strncmp (cmMessage m) SERVER_REGISTRATION_MSG
                 (Z.to_nat (sizeof_lit SERVER_REGISTRATION_MSG)) =? 0)
              && (findUserInList ip (cmUserID m) (shared w)
                  =? ENTRY_NOT_FOUND_OR_NULL) = true).
  { apply andb_true_iff. rewrite !Z.eqb_eq, strncmp_sizeof.
    now rewrite findUserInList_none_fits by assumption. }
  rewrite E.
  destruct (Z.ltb_spec (numClients (shared w)) MAX_CLIENTS); [lia|].
  simpl. now rewrite logged_logged.
Qed.

(* ===================================================================== *)
(** ** The invariant of the registry *)
(* ===================================================================== *)

Lemma findThreadIDInList_range tid sd :
  findThreadIDInList tid sd = ENTRY_NOT_FOUND_OR_NULL
  \/ 0 <= findThreadIDInList tid sd < numClients sd.
Proof.
  destruct (Z.eq_dec (findThreadIDInList tid sd) ENTRY_NOT_FOUND_OR_NULL)
    as [E|E]; [now left | right].
  unfold findThreadIDInList in *.
  pose proof (findIndexFrom_found _ 0 _ _ ltac:(lia) eq_refl E) as (Hr & _).
  lia.
Qed.

Lemma fits_newEntry tid ip uid sock : fits (newEntry tid ip uid sock).
Proof.
  split; simpl; apply strncpy_terminated_length;
    unfold CLIENT_IP_LENGTH, CLIENT_USERID_LENGTH; lia.
Qed.

Lemma addToList_wf tid ip uid sock sd :
  registry_wf sd -> registry_wf (snd (addToList tid ip uid sock sd)).
Proof.
  intros [Hn Hlen Hfits].
  destruct (Z.lt_ge_cases (numClients sd) MAX_CLIENTS) as [Hlt|Hge].
  - rewrite addToList_below by lia. split; simpl.
    + lia.
    + now rewrite length_aset.
    + apply Forall_insert; [exact Hfits | apply fits_newEntry].
  - rewrite addToList_full by lia. now split.
Qed.

Lemma addToList_unique tid ip uid sock sd :
  registry_wf sd -> unique_users sd ->
  findUserInList ip uid sd = ENTRY_NOT_FOUND_OR_NULL ->
  unique_users (snd (addToList tid ip uid sock sd)).
Proof.
  intros Hwf Hu Hnone. pose proof Hwf as [Hn Hlen Hfits].
  destruct (Z.lt_ge_cases (numClients sd) MAX_CLIENTS) as [Hlt|Hge].
  - rewrite addToList_below by lia. unfold unique_users. simpl snd.
    rewrite registered_add by lia. rewrite fmap_app. apply list.NoDup_app.
    split; [exact Hu|]. split; [|apply NoDup_singleton].
    intros k Hk Hk'. apply list_elem_of_singleton in Hk'. subst k.
    apply list_elem_of_fmap in Hk as (c & Hkey & Hc).
    apply (findUserInList_none ip uid sd Hwf) in Hnone. apply Hnone.
    exists c. unfold userKey, newEntry in Hkey. simpl in Hkey.
    injection Hkey as Hip Huid. auto.
  - now rewrite addToList_full by lia.
Qed.

Lemma removeFromList_wf i sd :
  registry_wf sd -> 0 <= i < numClients sd ->
  registry_wf (snd (removeFromList i sd)).
Proof.
  intros [Hn Hlen Hfits] Hi.
  assert (Hlk := fun j => removeFromList_lookup i sd j Hi (proj2 Hn) Hlen).
  split.
  - rewrite removeFromList_inside by lia. simpl. lia.
  - rewrite removeFromList_inside by lia. simpl.
    now rewrite length_aset, length_shiftLeft.
  - apply Forall_lookup. intros j c Hc. rewrite Hlk in Hc.
    rewrite Forall_lookup in Hfits.
    destruct (decide _); [|destruct (decide _)]; [|eauto..].
    injection Hc as <-. split; simpl;
      unfold strlen, CLIENT_IP_LENGTH, CLIENT_USERID_LENGTH; simpl; lia.
Qed.

Lemma removeFromList_unique i sd :
  registry_wf sd -> unique_users sd -> 0 <= i < numClients sd ->
  unique_users (snd (removeFromList i sd)).
Proof.
  intros [Hn Hlen _] Hu Hi. unfold unique_users.
  rewrite registered_remove by lia. rewrite list_fmap_delete.
  eapply sublist_NoDup; [exact Hu | apply sublist_delete].
Qed.

(** The removal that follows a lookup by thread. *)
Lemma removeFound_inv tid sd :
  registry_wf sd /\ unique_users sd ->
  let sd' := snd (removeFromList (findThreadIDInList tid sd) sd) in
  registry_wf sd' /\ unique_users sd'.
Proof.
  intros [Hwf Hu]. cbv zeta.
  destruct (findThreadIDInList_range tid sd) as [E|Hr].
  - rewrite E. now split.
  - split; [now apply removeFromList_wf | now apply removeFromList_unique].
Qed.

Lemma processMessage_inv (send_result : Z -> cstring -> Z)
    tid sock ip isReg nbr m w :
  registry_wf (shared w) /\ unique_users (shared w) ->
  let sd' := shared (snd (processMessage send_result tid sock ip isReg nbr m w)) in
  registry_wf sd' /\ unique_users sd'.
Proof.
  intros Hinv. cbv zeta.
  destruct (processMessage_shared send_result tid sock ip isReg nbr m w)
    as [->|[[Hnone ->]| ->]].
  - exact Hinv.
  - destruct Hinv. split; [now apply addToList_wf | now apply addToList_unique].
  - now apply removeFound_inv.
Qed.

Lemma clientHandler_step_inv (send_result : Z -> cstring -> Z)
    tid sock ip st nbr m w :
  registry_wf (shared w) /\ unique_users (shared w) ->
  let sd' := shared (snd (clientHandler_step send_result tid sock ip st nbr m w)) in
  registry_wf sd' /\ unique_users sd'.
Proof.
  intros Hinv. cbv zeta. destruct st.
  - rewrite clientHandler_step_awaiting. cbv zeta.
    destruct (_ =? _); simpl; now apply processMessage_inv.
  - rewrite clientHandler_step_registered. cbv zeta. simpl.
    now apply processMessage_inv.
  - rewrite clientHandler_step_leaving. simpl. now apply removeFound_inv.
  - exact Hinv.
Qed.

(* ===================================================================== *)
(** ** The broadcaster *)
(* ===================================================================== *)

Lemma shared_logged es w : shared (logged es w) = shared w.
Proof. reflexivity. Qed.

(** The fan-out loop sends to the slots [i .. i+k-1], in this order, whatever
    the sends return. *)
Lemma run_broadcastLoop (send_result : Z -> cstring -> Z) msg i k w :
  0 <= i ->
  (Z.to_nat i + k <= length (connectedClients (shared w)))%nat ->
  broadcastLoop send_result msg i k w
  = (tt, logged
           (map (fun c => EvSend (clientSocket c) msg)
              (take k (drop (Z.to_nat i) (connectedClients (shared w))))) w).
Proof.
  revert i w. induction k as [|k IH]; intros i w Hi Hlen; simpl.
  - unfold ret, logged. rewrite app_nil_r. now destruct w.
  - do 2 run_step. rewrite IH by (rewrite ?shared_logged; lia).
    rewrite shared_logged, logged_logged.
    pose proof (lookup_aget (connectedClients (shared w)) i ltac:(lia)) as Hc.
    rewrite (drop_S _ _ _ Hc). simpl.
    now replace (Z.to_nat (i + 1)) with (S (Z.to_nat i)) by lia.
Qed.

Lemma chatBroadcaster_step_take (send_result : Z -> cstring -> Z) w b q :
  0 < numClients (shared w) ->
  queueRemoved w = false -> queue w = b :: q ->
  chatBroadcaster_step send_result BcRunning w
  = (BcFlushing (broadcastToJson b), with_queue q w).
Proof.
  intros Hpos Hq Hqueue. unfold chatBroadcaster_step.
  run_step. destruct (Z.leb_spec (numClients (shared w)) 0); [lia|].
  erewrite run_bind
    by (unfold msgrcv; rewrite Hq, Hqueue; reflexivity).
  cbv beta iota zeta. unfold ret, with_queue. now rewrite Hq.
Qed.

Lemma chatBroadcaster_step_flush (send_result : Z -> cstring -> Z) w msg :
  registry_wf (shared w) ->
  chatBroadcaster_step send_result (BcFlushing msg) w
  = (BcRunning,
     logged
       (EvLock
        :: map (fun c => EvSend (clientSocket c) msg) (registered (shared w))
        ++ [EvUnlock]) w).
Proof.
  intros [Hn Hlen _]. unfold chatBroadcaster_step.
  do 2 run_step. simpl shared.
  erewrite run_bind by (apply run_broadcastLoop; simpl; lia).
  run_step. unfold ret, registered. simpl. rewrite drop_0.
  now rewrite !logged_logged.
Qed.

(** The fan-out when every call of [send] returns: a broadcast that the
    broadcaster takes from the queue is then sent, between one lock and one
    unlock of the registry, once to the socket of every entry registered at
    that moment, from index 0 upwards, whatever each send returns;
    nothing is sent to a socket that no registered entry holds (an entry
    removed before the flush is not among them), and the shared data are
    left as they were. *)
Theorem broadcast_fanout (send_result : Z -> cstring -> Z) w0 b q w :
  0 < numClients (shared w0) ->
  queueRemoved w0 = false -> queue w0 = b :: q ->
  registry_wf (shared w) ->
  let msg := broadcastToJson b in
  let r := chatBroadcaster_step send_result (BcFlushing msg) w in
  let sends := map (fun c => EvSend (clientSocket c) msg)
                 (registered (shared w)) in
  chatBroadcaster_step send_result BcRunning w0
  = (BcFlushing msg, with_queue q w0)
  /\ fst r = BcRunning
  /\ trace (snd r) = trace w ++ EvLock :: sends ++ [EvUnlock]
  /\ Z.of_nat (length sends) = numClients (shared w)
  /\ (forall i, 0 <= i < numClients (shared w) ->
        sends !! Z.to_nat i
        = Some (EvSend (clientSocket (aget (connectedClients (shared w)) i))
                  msg))
  /\ (forall sock payload,
        (forall c, c ∈ registered (shared w) -> clientSocket c <> sock) ->
        EvSend sock payload ∉ sends)
  /\ shared (snd r) = shared w.
Proof.
  intros Hpos Hq Hqueue Hwf. cbv zeta.
  split; [now apply chatBroadcaster_step_take|].
  rewrite (chatBroadcaster_step_flush send_result w _ Hwf).
  destruct Hwf as [Hn Hlen _]. simpl.
  repeat split.
  - rewrite length_map. unfold registered. rewrite length_take. lia.
  - intros i Hi. rewrite list_lookup_fmap. unfold registered.
    rewrite lookup_take_lt by lia.
    now rewrite (lookup_aget (connectedClients (shared w)) i) by lia.
  - intros sock payload Hnone Hin.
    apply list_elem_of_fmap in Hin as (c & Hev & Hc).
    injection Hev as Hsock _. now apply (Hnone c Hc).
Qed.

(** A broadcaster's turn never changes the shared data. *)
Lemma chatBroadcaster_step_shared (send_result : Z -> cstring -> Z) st w :
  registry_wf (shared w) ->
  shared (snd (chatBroadcaster_step send_result st w)) = shared w.
Proof.
  intros Hwf. destruct st as [| |msg|].
  - unfold chatBroadcaster_step. repeat run_step. reflexivity.
  - unfold chatBroadcaster_step.
    run_step. destruct (_ <=? 0); [reflexivity|].
    unfold msgrcv at 1. unfold bind at 1.
    destruct (queueRemoved w); [reflexivity|].
    destruct (queue w) as [|b q]; reflexivity.
  - now rewrite chatBroadcaster_step_flush.
  - reflexivity.
Qed.

(* ===================================================================== *)
(** ** The shutdown monitor and the accept loop *)
(* ===================================================================== *)

Lemma run_closeServerSocket sock w :
  closeServerSocket sock w
  = (tt, mkWorld (shared w) (queue w) (queueRemoved w) false
           (trace w ++ [EvCloseServerSocket sock])).
Proof. reflexivity. Qed.

(** A turn of the monitor, case by case. *)
Lemma clientConnectionMonitor_step_waiting w :
  clientConnectionMonitor_step Waiting w
  = (if numClients (shared w) >? 0 then Running else Waiting,
     logged [EvLock; EvUnlock] w).
Proof.
  unfold clientConnectionMonitor_step. repeat run_step.
  unfold ret. rewrite logged_logged. simpl shared.
  now destruct (numClients (shared w) >? 0).
Qed.

Lemma clientConnectionMonitor_step_running w :
  clientConnectionMonitor_step Running w
  = if numClients (shared w) <=? 0 then (Exited, stoppedWorld w)
    else (Running, logged [EvLock; EvUnlock] w).
Proof.
  unfold clientConnectionMonitor_step. do 2 run_step. simpl shared.
  destruct (numClients (shared w) <=? 0).
  - run_step. erewrite run_bind by apply run_closeServerSocket.
    repeat run_step. unfold ret, stoppedWorld, with_shared, logged. simpl.
    now rewrite <- !app_assoc.
  - repeat run_step. unfold ret. now rewrite logged_logged.
Qed.

Lemma clientConnectionMonitor_step_registry st w :
  let sd' := shared (snd (clientConnectionMonitor_step st w)) in
  numClients sd' = numClients (shared w)
  /\ connectedClients sd' = connectedClients (shared w).
Proof.
  cbv zeta. destruct st.
  - now rewrite clientConnectionMonitor_step_waiting.
  - rewrite clientConnectionMonitor_step_running.
    now destruct (numClients (shared w) <=? 0).
  - now split.
Qed.

(** The accept loop on a closed listening socket leaves the loop; its
    status is [SUCCESS] when the running flag is down. *)
Lemma runServer_step_closed pending created total w :
  listening w = false ->
  runServer_step pending created total w
  = (Some (if negb (serverIsRunning (shared w) =? 0) then SOCKET_ERROR
           else SUCCESS),
     logged [EvLock; EvUnlock] w).
Proof.
  intros Hl. unfold runServer_step.
  erewrite run_bind by (unfold accept; rewrite Hl; reflexivity).
  cbv beta. change (-1 <? 0) with true. cbv iota.
  repeat run_step. unfold ret. now rewrite logged_logged.
Qed.

(** C9, as the code has it: once the monitor is armed, a turn of the
    monitor that finds the count at 0 (or below) closes the listening
    socket, sets the running flag to 0 (both between one lock and one
    unlock) and ends the monitor; from then on every [accept] of the
    listener fails and the accept loop is left without an error status.  A
    turn that finds a positive count changes nothing and leaves the monitor
    armed. *)
Theorem monitor_shutdown w :
  (numClients (shared w) <= 0 ->
     let r := clientConnectionMonitor_step Running w in
     fst r = Exited
     /\ serverIsRunning (shared (snd r)) = 0
     /\ listening (snd r) = false
     /\ trace (snd r)
        = trace w ++ [EvLock; EvCloseServerSocket (serverSocket (shared w));
                      EvUnlock]
     /\ forall pending created total,
          fst (runServer_step pending created total (snd r)) = Some SUCCESS)
  /\ (0 < numClients (shared w) ->
      clientConnectionMonitor_step Running w
      = (Running, logged [EvLock; EvUnlock] w)).
Proof.
  rewrite clientConnectionMonitor_step_running. split.
  - intros Hle. destruct (Z.leb_spec (numClients (shared w)) 0); [|lia].
    cbv zeta. simpl. repeat split.
  - intros Hpos. now destruct (Z.leb_spec (numClients (shared w)) 0); [lia|].
Qed.

(** C9 as worded fails on the code: in the sample run the monitor is armed
    with one client registered, that client quits (the count drops to 0),
    another client registers before the monitor's next turn, and that turn
    finds a positive count: the flag stays up and the socket open. *)
Lemma shutdown_missed_between_polls : ~ shutdown_after_every_drop.
Proof.
  intros H.
  specialize (H send_all_fail sample_before sample_drop sample_between).
  cbv zeta in H.
  assert (H1 : monitor (run send_all_fail (initServer 3 4) sample_before)
               = Running) by (vm_compute; reflexivity).
  assert (H2 : 0 < numClients
                 (shared (world (run send_all_fail (initServer 3 4)
                                   sample_before))))
    by (vm_compute; reflexivity).
  assert (H3 : numClients
                 (shared (world (act send_all_fail
                                   (run send_all_fail (initServer 3 4)
                                      sample_before) sample_drop))) = 0)
    by (vm_compute; reflexivity).
  assert (H4 : Forall (fun x => x <> ActMonitor) sample_between)
    by (repeat constructor; discriminate).
  destruct (H H1 H2 H3 H4) as [Hflag _].
  vm_compute in Hflag. discriminate.
Qed.

(* ===================================================================== *)
(** ** The registry invariant along every run of the server *)
(* ===================================================================== *)

Lemma initServer_inv q sock :
  registry_wf (shared (world (initServer q sock)))
  /\ unique_users (shared (world (initServer q sock))).
Proof.
  split.
  - split; simpl; try (unfold MAX_CLIENTS; lia); try reflexivity.
    repeat constructor; unfold strlen, CLIENT_IP_LENGTH, CLIENT_USERID_LENGTH;
      simpl; lia.
  - unfold unique_users, registered. simpl. constructor.
Qed.

Lemma registry_inv_same sd sd' :
  numClients sd' = numClients sd ->
  connectedClients sd' = connectedClients sd ->
  registry_wf sd /\ unique_users sd -> registry_wf sd' /\ unique_users sd'.
Proof.
  intros Hn Hc [[H1 H2 H3] Hu]. split.
  - split; rewrite ?Hn, ?Hc; assumption.
  - unfold unique_users, registered in *. now rewrite Hn, Hc.
Qed.

Lemma act_inv (send_result : Z -> cstring -> Z) s a :
  registry_wf (shared (world s)) /\ unique_users (shared (world s)) ->
  registry_wf (shared (world (act send_result s a)))
  /\ unique_users (shared (world (act send_result s a))).
Proof.
  intros Hinv. destruct a as [tid sock ip st nbr m| |]; simpl.
  - now apply clientHandler_step_inv.
  - pose proof (clientConnectionMonitor_step_registry (monitor s) (world s))
      as [Hn Hc].
    destruct (clientConnectionMonitor_step (monitor s) (world s)) as [st w'].
    simpl in *. now apply (registry_inv_same (shared (world s))).
  - pose proof (chatBroadcaster_step_shared send_result (broadcaster s)
                  (world s) (proj1 Hinv)) as Hs.
    destruct (chatBroadcaster_step send_result (broadcaster s) (world s))
      as [st w'].
    simpl in *. now rewrite Hs.
Qed.

Lemma run_inv (send_result : Z -> cstring -> Z) acts s :
  registry_wf (shared (world s)) /\ unique_users (shared (world s)) ->
  registry_wf (shared (world (run send_result s acts)))
  /\ unique_users (shared (world (run send_result s acts))).
Proof.
  revert s. induction acts as [|a acts IH]; intros s Hinv; simpl.
  - exact Hinv.
  - apply IH. now apply act_inv.
Qed.

(** C3: in every state that the server reaches from the empty registry, by
    any sequence of turns of its handlers (registrations, which look the
    pair up and add it in one critical section, messages, quits and final
    removals), of its monitor and of its broadcaster, no two of the first
    [numClients] entries of [connectedClients] have the same
    ([clientIP], [clientUserID]) pair. *)
Theorem registry_unique_users (send_result : Z -> cstring -> Z)
    (msgQID srvSocket : Z) (acts : list Action) :
  let sd := shared (world (run send_result (initServer msgQID srvSocket) acts)) in
  unique_users sd
  /\ forall i j, 0 <= i < numClients sd -> 0 <= j < numClients sd -> i <> j ->
       userKey (aget (connectedClients sd) i)
       <> userKey (aget (connectedClients sd) j).
Proof.
  cbv zeta.
  destruct (run_inv send_result acts (initServer msgQID srvSocket)
              (initServer_inv msgQID srvSocket)) as [[Hn Hlen _] Hu].
  split; [exact Hu|].
  intros i j Hi Hj Hne Heq. unfold unique_users in Hu.
  rewrite NoDup_alt in Hu.
  set (sd := shared (world (run send_result (initServer msgQID srvSocket) acts)))
    in *.
  assert (Hlk : forall k, 0 <= k < numClients sd ->
            (userKey <$> registered sd) !! Z.to_nat k
            = Some (userKey (aget (connectedClients sd) k))).
  { intros k Hk. rewrite list_lookup_fmap. unfold registered.
    rewrite lookup_take_lt by lia.
    now rewrite (lookup_aget (connectedClients sd) k) by lia. }
  specialize (Hu (Z.to_nat i) (Z.to_nat j) _ (Hlk i Hi)).
  rewrite Heq in Hu. specialize (Hu (Hlk j Hj)). lia.
Qed.

(* ===================================================================== *)
(** ** A handler is removed once *)
(* ===================================================================== *)

Lemma findThreadIDInList_none tid sd :
  registry_wf sd ->
  (findThreadIDInList tid sd = ENTRY_NOT_FOUND_OR_NULL
   <-> forall c, c ∈ registered sd -> threadID c <> tid).
Proof.
  intros [Hn Hlen _]. unfold findThreadIDInList.
  rewrite findIndexFrom_none by lia. split.
  - intros H c Hin. apply elem_of_take in Hin as (j & Hj & Hlt).
    specialize (H (Z.of_nat j) ltac:(lia)).
    rewrite (aget_lookup _ _ c) in H by now rewrite Nat2Z.id.
    now apply Z.eqb_neq in H.
  - intros H j Hj. apply Z.eqb_neq. apply H.
    apply elem_of_take. exists (Z.to_nat j). split; [|lia].
    apply lookup_aget. lia.
Qed.

(** With one entry per thread, the entry found for a thread is the only one:
    once it is removed the thread is not found any more. *)
Lemma findThreadIDInList_after_remove tid sd :
  registry_wf sd -> NoDup (threadID <$> registered sd) ->
  findThreadIDInList tid
    (snd (removeFromList (findThreadIDInList tid sd) sd))
  = ENTRY_NOT_FOUND_OR_NULL.
Proof.
  intros Hwf Hnd.
  destruct (findThreadIDInList_range tid sd) as [E|Hr].
  - rewrite E. simpl. exact E.
  - pose proof Hwf as [Hn Hlen _].
    apply findThreadIDInList_none; [now apply removeFromList_wf|].
    rewrite registered_remove by lia.
    set (r := findThreadIDInList tid sd) in *.
    assert (Hfound : (threadID <$> registered sd) !! Z.to_nat r = Some tid).
    { rewrite list_lookup_fmap. unfold registered.
      rewrite lookup_take_lt by lia.
      rewrite (lookup_aget (connectedClients sd) r) by lia. simpl. f_equal.
      assert (Hne : r <> ENTRY_NOT_FOUND_OR_NULL)
        by (unfold ENTRY_NOT_FOUND_OR_NULL; lia).
      pose proof (findIndexFrom_found _ 0 _ _ ltac:(lia) eq_refl Hne)
        as (_ & Ht & _).
      now apply Z.eqb_eq in Ht. }
    intros c Hin Htid. apply list_elem_of_lookup in Hin as [j Hj].
    rewrite NoDup_alt in Hnd.
    destruct (decide (j < Z.to_nat r)%nat) as [Hlt|Hge].
    + rewrite list_lookup_delete_lt in Hj by lia.
      assert (Hj' : (threadID <$> registered sd) !! j = Some tid)
        by (rewrite list_lookup_fmap, Hj; simpl; now f_equal).
      specialize (Hnd _ _ _ Hj' Hfound). lia.
    + rewrite list_lookup_delete_ge in Hj by lia.
      assert (Hj' : (threadID <$> registered sd) !! S j = Some tid)
        by (rewrite list_lookup_fmap, Hj; simpl; now f_equal).
      specialize (Hnd _ _ _ Hj' Hfound). lia.
Qed.

(** The quit path followed by the end of the handler: the second removal
    finds nothing and leaves the shared data as the first one left them. *)
Lemma quit_then_leave (send_result : Z -> cstring -> Z) tid sock ip nbr m w :
  registry_wf (shared w) -> NoDup (threadID <$> registered (shared w)) ->
  rejectedEarly nbr m = false -> cmMessage m = SERVER_QUIT_MSG ->
  let quit := clientHandler_step send_result tid sock ip Registered nbr m w in
  let left := clientHandler_step send_result tid sock ip (fst quit) nbr m
                (snd quit) in
  fst quit = Leaving
  /\ shared (snd quit)
     = snd (removeFromList (findThreadIDInList tid (shared w)) (shared w))
  /\ fst left = Closed
  /\ shared (snd left) = shared (snd quit)
  /\ trace (snd left) = trace w ++ [EvLock; EvUnlock; EvLock; EvUnlock;
                                    EvClose sock].
Proof.
  intros Hwf Hnd Hearly Hmsg. cbv zeta.
  rewrite clientHandler_step_registered, processMessage_message. cbv zeta.
  rewrite Hearly.
  assert (E : (strncmp (cmMessage m) SERVER_QUIT_MSG
                 (Z.to_nat (sizeof_lit SERVER_QUIT_MSG)) =? 0) = true)
    by now rewrite Z.eqb_eq, strncmp_sizeof.
  rewrite E. cbn [fst snd].
  change (MESSAGE_PROCESS_QUIT =? MESSAGE_PROCESS_SUCCESS) with false.
  cbv iota. rewrite clientHandler_step_leaving. simpl.
  rewrite (findThreadIDInList_after_remove tid (shared w) Hwf Hnd). simpl.
  repeat split. now rewrite <- app_assoc.
Qed.

(* ===================================================================== *)
(** ** The theorems at sample inputs *)
(* ===================================================================== *)

Lemma registry_wfb_true sd : registry_wfb sd = true -> registry_wf sd.
Proof.
  unfold registry_wfb. rewrite !andb_true_iff, forallb_forall.
  intros (((H1 & H2) & H3) & H4). split.
  - lia.
  - lia.
  - apply Forall_forall. intros c Hc.
    specialize (H4 c Hc).
    apply andb_true_iff in H4. unfold fits. lia.
Qed.

Lemma registration_iff_witness :
  registry_wf (shared sample_world)
  /\ strlen sample_ip <= CLIENT_IP_LENGTH
  /\ strlen (cmUserID sample_kate) <= CLIENT_USERID_LENGTH
  /\ registration_accepted sample_ip 30 sample_kate (shared sample_world)
  /\ registered
       (shared (snd (processMessage send_all_fail 1 7 sample_ip
                       IS_REGISTRATION 30 sample_kate sample_world)))
     = [mkClientState 1 sample_ip (lit "kate") 7].
Proof.
  assert (Hwf : registry_wf (shared sample_world))
    by (apply registry_wfb_true; vm_compute; reflexivity).
  assert (Hip : strlen sample_ip <= CLIENT_IP_LENGTH)
    by (vm_compute; intro; discriminate).
  assert (Huid : strlen (cmUserID sample_kate) <= CLIENT_USERID_LENGTH)
    by (vm_compute; intro; discriminate).
  assert (Hacc : registration_accepted sample_ip 30 sample_kate
                   (shared sample_world)).
  { split; [discriminate|]. split; [discriminate|].
    split; [left; reflexivity|].
    split; [reflexivity|]. split; [|reflexivity].
    intros (c & Hin & _). vm_compute in Hin. now apply elem_of_nil in Hin. }
  split; [exact Hwf|]. split; [exact Hip|]. split; [exact Huid|].
  split; [exact Hacc|].
  destruct (registration_iff send_all_fail 1 7 sample_ip 30 sample_kate
              sample_world Hwf Hip Huid) as [Hyes _].
  destruct (Hyes Hacc) as (_ & Hreg & _). exact Hreg.
Defined.

Lemma registration_full_no_reply_witness :
  registry_wf (shared sample_full_world)
  /\ numClients (shared sample_full_world) = MAX_CLIENTS
  /\ clientHandler_step send_all_fail 11 16 sample_ip AwaitingRegistration 30
       sample_kate sample_full_world
     = (Closed, logged [EvLock; EvUnlock; EvClose 16] sample_full_world).
Proof.
  assert (Hwf : registry_wf (shared sample_full_world))
    by (apply registry_wfb_true; vm_compute; reflexivity).
  split; [exact Hwf|]. split; [reflexivity|].
  apply registration_full_no_reply.
  - exact Hwf.
  - vm_compute; intro; discriminate.
  - vm_compute; intro; discriminate.
  - reflexivity.
  - reflexivity.
  - apply (findUserInList_none_fits _ _ _ Hwf).
    + vm_compute; intro; discriminate.
    + vm_compute; intro; discriminate.
    + reflexivity.
  - reflexivity.
Defined.

Lemma registry_unique_users_witness :
  userKey (aget (connectedClients (shared sample_three)) 0)
  <> userKey (aget (connectedClients (shared sample_three)) 2).
Proof.
  assert (E : shared sample_three
              = shared (world (run send_all_fail (initServer 3 4)
                  [ActHandler 0 5 sample_ip AwaitingRegistration 30
                     (hello_from [ascii_of_nat 65]);
                   ActHandler 1 6 sample_ip AwaitingRegistration 30
                     (hello_from [ascii_of_nat 66]);
                   ActHandler 2 7 sample_ip AwaitingRegistration 30
                     (hello_from [ascii_of_nat 67])])))
    by (vm_compute; reflexivity).
  rewrite E.
  apply (registry_unique_users send_all_fail 3 4).
  - rewrite <- E. vm_compute. split; [intro; discriminate | reflexivity].
  - rewrite <- E. vm_compute. split; [intro; discriminate | reflexivity].
  - discriminate.
Defined.

Lemma addToList_capacity_witness :
  registry_wf (shared sample_three)
  /\ registered (snd (addToList 9 sample_ip (lit "kate") 12 (shared sample_three)))
     = registered (shared sample_three)
       ++ [mkClientState 9 sample_ip (lit "kate") 12]
  /\ registry_wf (shared sample_full_world)
  /\ addToList 9 sample_ip (lit "kate") 12 (shared sample_full_world)
     = (TOO_MANY_CLIENTS, shared sample_full_world).
Proof.
  assert (Hwf : registry_wf (shared sample_three))
    by (apply registry_wfb_true; vm_compute; reflexivity).
  assert (Hwf' : registry_wf (shared sample_full_world))
    by (apply registry_wfb_true; vm_compute; reflexivity).
  split; [exact Hwf|]. split; [|split; [exact Hwf'|]].
  - destruct (addToList_capacity 9 sample_ip (lit "kate") 12
                (shared sample_three) Hwf) as [_ Hbelow].
    destruct (Hbelow ltac:(reflexivity)) as (_ & _ & _ & _ & Hreg & _).
    exact Hreg.
  - destruct (addToList_capacity 9 sample_ip (lit "kate") 12
                (shared sample_full_world) Hwf') as [Hfull _].
    apply Hfull. reflexivity.
Defined.

Lemma removeFromList_shift_witness :
  registry_wf (shared sample_three)
  /\ 0 <= 1 < numClients (shared sample_three)
  /\ registered (snd (removeFromList 1 (shared sample_three)))
     = delete 1%nat (registered (shared sample_three)).
Proof.
  assert (Hwf : registry_wf (shared sample_three))
    by (apply registry_wfb_true; vm_compute; reflexivity).
  assert (Hi : 0 <= 1 < numClients (shared sample_three))
    by (vm_compute; split; [intro; discriminate | reflexivity]).
  split; [exact Hwf|]. split; [exact Hi|].
  apply (removeFromList_shift 1 (shared sample_three) Hwf Hi).
Defined.

Lemma removeFromList_absent_witness :
  findThreadIDInList 42 (shared sample_three) = ENTRY_NOT_FOUND_OR_NULL
  /\ removeFromList (findThreadIDInList 42 (shared sample_three))
       (shared sample_three)
     = (ENTRY_NOT_FOUND_OR_NULL, shared sample_three).
Proof.
  split; [reflexivity|].
  apply removeFromList_absent. reflexivity.
Defined.

Lemma splitString_two_parts_witness :
  strlen sample_split_short_tail <= CLIENT_MESSAGE_LENGTH
  /\ BROADCAST_MESSAGE_LENGTH < strlen sample_split_short_tail
  /\ broadcastTexts sample_split_short_tail
     = [fst (splitString sample_split_short_tail BROADCAST_MESSAGE_LENGTH);
        snd (splitString sample_split_short_tail BROADCAST_MESSAGE_LENGTH)]
  /\ strlen (fst (splitString sample_split_short_tail BROADCAST_MESSAGE_LENGTH))
     <= BROADCAST_MESSAGE_LENGTH
  /\ strlen (snd (splitString sample_split_short_tail BROADCAST_MESSAGE_LENGTH))
     <= BROADCAST_MESSAGE_LENGTH.
Proof.
  assert (Hmax : strlen sample_split_short_tail <= CLIENT_MESSAGE_LENGTH)
    by (vm_compute; intro; discriminate).
  assert (Hlong : BROADCAST_MESSAGE_LENGTH < strlen sample_split_short_tail)
    by reflexivity.
  split; [exact Hmax|]. split; [exact Hlong|].
  destruct (splitString_two_parts sample_split_short_tail Hmax) as [_ H].
  destruct (H Hlong) as (H0 & H1 & H2 & _).
  split; [exact H0|]. split; [exact H1 | exact H2].
Defined.

Lemma broadcast_fanout_witness :
  0 < numClients (shared sample_three_queued)
  /\ queueRemoved sample_three_queued = false
  /\ queue sample_three_queued = [sample_broadcast]
  /\ registry_wf (shared sample_three)
  /\ chatBroadcaster_step send_all_fail BcRunning sample_three_queued
     = (sample_flushing, sample_three)
  /\ trace (snd (chatBroadcaster_step send_all_fail sample_flushing
                   sample_three))
     = trace sample_three
       ++ [EvLock;
           EvSend 5 (broadcastToJson sample_broadcast);
           EvSend 6 (broadcastToJson sample_broadcast);
           EvSend 7 (broadcastToJson sample_broadcast);
           EvUnlock].
Proof.
  assert (Hwf : registry_wf (shared sample_three))
    by (apply registry_wfb_true; vm_compute; reflexivity).
  assert (Hpos : 0 < numClients (shared sample_three_queued)) by reflexivity.
  split; [exact Hpos|]. split; [reflexivity|]. split; [reflexivity|].
  split; [exact Hwf|].
  destruct (broadcast_fanout send_all_fail sample_three_queued
              sample_broadcast [] sample_three Hpos eq_refl eq_refl Hwf)
    as (Htake & _ & Htr & _).
  split; [exact Htake | exact Htr].
Defined.

Lemma monitor_shutdown_witness :
  numClients (shared sample_world) <= 0
  /\ fst (clientConnectionMonitor_step Running sample_world) = Exited
  /\ listening (snd (clientConnectionMonitor_step Running sample_world)) = false.
Proof.
  assert (H : numClients (shared sample_world) <= 0)
    by (vm_compute; intro; discriminate).
  split; [exact H|].
  destruct (monitor_shutdown sample_world) as [Hstop _].
  destruct (Hstop H) as (H1 & _ & H3 & _).
  split; [exact H1 | exact H3].
Defined.

Lemma add_message_to_history_ring_witness :
  ChatClient.history_inv (ChatClient.history_after [lit "one"; lit "two"])
  /\ ChatClient.history_inv
       (ChatClient.add_message_to_history (lit "three")
          (ChatClient.history_after [lit "one"; lit "two"])).
Proof.
  assert (H : ChatClient.history_inv
                (ChatClient.history_after [lit "one"; lit "two"]))
    by apply history_after_inv.
  split; [exact H|].
  apply (add_message_to_history_ring (lit "three") _ H).
Defined.

(* ===================================================================== *)
(** ** More on the registry: lookups, and what every run keeps *)
(* ===================================================================== *)

Lemma findIndexFrom_unique (test : Z -> bool) (i : Z) (k : nat) (r : Z) :
  0 <= i -> i <= r < i + Z.of_nat k -> test r = true ->
  (forall j, i <= j < r -> test j = false) ->
  findIndexFrom test i k = r.
Proof.
  intros Hi Hr Ht Hbefore.
  destruct (Z.eq_dec (findIndexFrom test i k) ENTRY_NOT_FOUND_OR_NULL) as [E|E].
  - rewrite findIndexFrom_none in E by lia. rewrite E in Ht by lia.
    discriminate.
  - destruct (findIndexFrom_found test i k _ Hi eq_refl E) as (Hr' & Ht' & Hb').
    destruct (Z.lt_trichotomy (findIndexFrom test i k) r) as [Hlt|[Heq|Hgt]].
    + rewrite Hbefore in Ht' by lia. discriminate.
    + exact Heq.
    + rewrite Hb' in Ht by lia. discriminate.
Qed.

Lemma sameUser_test ip uid sd j :
  registry_wf sd -> 0 <= j < numClients sd ->
  ((strncmp (clientIP (aget (connectedClients sd) j)) ip
      (Z.to_nat CLIENT_IP_LENGTH) =? 0)
   && (strncmp (clientUserID (aget (connectedClients sd) j)) uid
         (Z.to_nat CLIENT_USERID_LENGTH) =? 0) = true
   <-> sameUser ip uid (aget (connectedClients sd) j)).
Proof.
  intros [Hn Hlen Hfits] Hj.
  rewrite andb_true_iff, !Z.eqb_eq, !strncmp_0_iff.
  pose proof (lookup_aget (connectedClients sd) j ltac:(lia)) as Hc.
  rewrite Forall_lookup in Hfits. destruct (Hfits _ _ Hc) as [F1 F2].
  unfold sameUser, strncpy_terminated, strlen in *.
  rewrite (take_ge (clientIP _)) by lia.
  rewrite (take_ge (clientUserID _)) by lia. reflexivity.
Qed.

Lemma findUserInList_found ip uid sd :
  registry_wf sd ->
  findUserInList ip uid sd <> ENTRY_NOT_FOUND_OR_NULL ->
  0 <= findUserInList ip uid sd < numClients sd
  /\ sameUser ip uid (aget (connectedClients sd) (findUserInList ip uid sd))
  /\ forall j, 0 <= j < findUserInList ip uid sd ->
       ~ sameUser ip uid (aget (connectedClients sd) j).
Proof.
  intros Hwf E. pose proof Hwf as [Hn _ _]. unfold findUserInList in *.
  destruct (findIndexFrom_found _ 0 _ _ ltac:(lia) eq_refl E)
    as (Hr & Ht & Hb).
  split; [lia|]. split.
  - apply (sameUser_test ip uid sd _ Hwf); [lia | exact Ht].
  - intros j Hj Hs. apply (sameUser_test ip uid sd j Hwf) in Hs; [|lia].
    rewrite Hb in Hs by lia. discriminate.
Qed.

(** X1: [findUserInList] answers the index of the first registered entry
    whose address and user id equal the first [CLIENT_IP_LENGTH] and
    [CLIENT_USERID_LENGTH] characters of the pair looked for, and
    [ENTRY_NOT_FOUND_OR_NULL] exactly when no registered entry does; slots
    from [numClients] on are never looked at. *)
Theorem findUserInList_first ip uid sd :
  registry_wf sd ->
  let r := findUserInList ip uid sd in
  (r = ENTRY_NOT_FOUND_OR_NULL
   /\ forall j, 0 <= j < numClients sd ->
        ~ sameUser ip uid (aget (connectedClients sd) j))
  \/ (0 <= r < numClients sd
      /\ sameUser ip uid (aget (connectedClients sd) r)
      /\ forall j, 0 <= j < r ->
           ~ sameUser ip uid (aget (connectedClients sd) j)).
Proof.
  intros Hwf. cbv zeta. pose proof Hwf as [Hn _ _].
  destruct (Z.eq_dec (findUserInList ip uid sd) ENTRY_NOT_FOUND_OR_NULL)
    as [E|E].
  - left. split; [exact E|]. unfold findUserInList in E.
    rewrite findIndexFrom_none in E by lia.
    intros j Hj Hs. apply (sameUser_test ip uid sd j Hwf Hj) in Hs.
    rewrite E in Hs by lia. discriminate.
  - right. now apply findUserInList_found.
Qed.

(** X2: [findThreadIDInList] answers the index of the first registered entry
    of the thread, and [ENTRY_NOT_FOUND_OR_NULL] exactly when no registered
    entry is the thread's; slots from [numClients] on are never looked at
    (so thread 0 is not found in the cleared slots). *)
Theorem findThreadIDInList_first tid sd :
  let r := findThreadIDInList tid sd in
  (r = ENTRY_NOT_FOUND_OR_NULL
   /\ forall j, 0 <= j < numClients sd ->
        threadID (aget (connectedClients sd) j) <> tid)
  \/ (0 <= r < numClients sd
      /\ threadID (aget (connectedClients sd) r) = tid
      /\ forall j, 0 <= j < r ->
           threadID (aget (connectedClients sd) j) <> tid).
Proof.
  cbv zeta.
  destruct (Z.eq_dec (findThreadIDInList tid sd) ENTRY_NOT_FOUND_OR_NULL)
    as [E|E].
  - left. split; [exact E|]. unfold findThreadIDInList in E.
    rewrite findIndexFrom_none in E by lia.
    intros j Hj. apply Z.eqb_neq. apply E. lia.
  - right. unfold findThreadIDInList in *.
    destruct (findIndexFrom_found _ 0 _ _ ltac:(lia) eq_refl E)
      as (Hr & Ht & Hb).
    split; [lia|]. split; [now apply Z.eqb_eq|].
    intros j Hj. apply Z.eqb_neq. apply Hb. lia.
Qed.

Lemma findUserInList_at ip uid sd r :
  registry_wf sd -> 0 <= r < numClients sd ->
  sameUser ip uid (aget (connectedClients sd) r) ->
  (forall j, 0 <= j < r -> ~ sameUser ip uid (aget (connectedClients sd) j)) ->
  findUserInList ip uid sd = r.
Proof.
  intros Hwf Hr Hs Hb. unfold findUserInList.
  apply findIndexFrom_unique; [lia | lia | |].
  - now apply (sameUser_test ip uid sd r Hwf Hr).
  - intros j Hj. destruct (_ && _) eqn:E; [|reflexivity].
    apply (sameUser_test ip uid sd j Hwf) in E; [|lia].
    exfalso. apply (Hb j); [lia | exact E].
Qed.

(** X3: after a successful [addToList] the new client is found, by its pair
    and by its thread; when the pair (the thread) was not found before, it
    is found at the former count; and every pair found before is still
    found at the same index. *)
Theorem addToList_then_find tid ip uid sock sd :
  registry_wf sd -> numClients sd < MAX_CLIENTS ->
  let sd' := snd (addToList tid ip uid sock sd) in
  (findUserInList ip uid sd = ENTRY_NOT_FOUND_OR_NULL ->
   findUserInList ip uid sd' = numClients sd)
  /\ (findThreadIDInList tid sd = ENTRY_NOT_FOUND_OR_NULL ->
      findThreadIDInList tid sd' = numClients sd)
  /\ (forall ip' uid',
        findUserInList ip' uid' sd <> ENTRY_NOT_FOUND_OR_NULL ->
        findUserInList ip' uid' sd' = findUserInList ip' uid' sd)
  /\ (forall tid',
        findThreadIDInList tid' sd <> ENTRY_NOT_FOUND_OR_NULL ->
        findThreadIDInList tid' sd' = findThreadIDInList tid' sd).
Proof.
  intros Hwf Hlt. cbv zeta. pose proof Hwf as [Hn Hlen Hfits].
  pose proof (addToList_wf tid ip uid sock sd Hwf) as Hwf'.
  rewrite addToList_below in * by lia. simpl snd in *.
  set (sd' := with_numClients _ _) in *.
  assert (Hold : forall j, 0 <= j < numClients sd ->
            aget (connectedClients sd') j = aget (connectedClients sd) j).
  { intros j Hj. unfold sd'. simpl. apply aget_aset_ne; lia. }
  assert (Hnew : aget (connectedClients sd') (numClients sd)
                 = newEntry tid ip uid sock).
  { unfold sd'. simpl. apply aget_aset_eq. lia. }
  assert (Hn' : numClients sd' = numClients sd + 1) by reflexivity.
  split; [|split; [|split]].
  - intros Hnone. apply findUserInList_at; [exact Hwf' | lia | |].
    + rewrite Hnew. now split.
    + intros j Hj. rewrite Hold by lia.
      unfold findUserInList in Hnone.
      rewrite findIndexFrom_none in Hnone by lia.
      intros Hs. apply (sameUser_test ip uid sd j Hwf) in Hs; [|lia].
      rewrite Hnone in Hs by lia. discriminate.
  - intros Hnone. unfold findThreadIDInList in *.
    rewrite findIndexFrom_none in Hnone by lia.
    apply findIndexFrom_unique; [lia | lia | |].
    + rewrite Hnew. apply Z.eqb_refl.
    + intros j Hj. rewrite Hold by lia. apply Hnone. lia.
  - intros ip' uid' Hfound.
    destruct (findUserInList_found ip' uid' sd Hwf Hfound) as (Hr & Hs & Hb).
    apply findUserInList_at; [exact Hwf' | lia | |].
    + now rewrite Hold by lia.
    + intros j Hj. rewrite Hold by lia. apply Hb. lia.
  - intros tid' Hfound. unfold findThreadIDInList in *.
    destruct (findIndexFrom_found _ 0 _ _ ltac:(lia) eq_refl Hfound)
      as (Hr & Ht & Hb).
    apply findIndexFrom_unique; [lia | lia | |].
    + now rewrite Hold by lia.
    + intros j Hj. rewrite Hold by lia. apply Hb. lia.
Qed.

(** X4: with no pair registered twice, removing the entry that
    [findUserInList] found for a pair leaves no entry for that pair: the
    same lookup then answers [ENTRY_NOT_FOUND_OR_NULL]. *)
Theorem removeFromList_then_find ip uid sd :
  registry_wf sd -> unique_users sd ->
  findUserInList ip uid
    (snd (removeFromList (findUserInList ip uid sd) sd))
  = ENTRY_NOT_FOUND_OR_NULL.
Proof.
  intros Hwf Hu.
  destruct (Z.eq_dec (findUserInList ip uid sd) ENTRY_NOT_FOUND_OR_NULL)
    as [E|E].
  - rewrite E. simpl. exact E.
  - destruct (findUserInList_found ip uid sd Hwf E) as (Hr & Hs & _).
    set (r := findUserInList ip uid sd) in *.
    pose proof Hwf as [Hn Hlen _].
    apply findUserInList_none; [now apply removeFromList_wf|].
    unfold is_registered. rewrite registered_remove by lia.
    assert (Hfound : (userKey <$> registered sd) !! Z.to_nat r
                     = Some (strncpy_terminated ip CLIENT_IP_LENGTH,
                             strncpy_terminated uid CLIENT_USERID_LENGTH)).
    { rewrite list_lookup_fmap. unfold registered.
      rewrite lookup_take_lt by lia.
      rewrite (lookup_aget (connectedClients sd) r) by lia. simpl.
      destruct Hs as [<- <-]. reflexivity. }
    intros (c & Hin & Hip & Huid).
    apply list_elem_of_lookup in Hin as [j Hj].
    unfold unique_users in Hu. rewrite NoDup_alt in Hu.
    assert (Hkey : userKey c = (strncpy_terminated ip CLIENT_IP_LENGTH,
                                strncpy_terminated uid CLIENT_USERID_LENGTH))
      by (unfold userKey; now rewrite Hip, Huid).
    destruct (decide (j < Z.to_nat r)%nat) as [Hlt|Hge].
    + rewrite list_lookup_delete_lt in Hj by lia.
      assert (Hj' : (userKey <$> registered sd) !! j = Some (userKey c))
        by (now rewrite list_lookup_fmap, Hj).
      rewrite Hkey in Hj'. specialize (Hu _ _ _ Hj' Hfound). lia.
    + rewrite list_lookup_delete_ge in Hj by lia.
      assert (Hj' : (userKey <$> registered sd) !! S j = Some (userKey c))
        by (now rewrite list_lookup_fmap, Hj).
      rewrite Hkey in Hj'. specialize (Hu _ _ _ Hj' Hfound). lia.
Qed.

(** A property of the shared data that the registry operations keep is kept
    by every turn of every thread. *)
Section RegistryInduction.

Variable P : SharedData -> Prop.
Hypothesis P_same : forall sd sd',
  numClients sd' = numClients sd ->
  connectedClients sd' = connectedClients sd -> P sd -> P sd'.
Hypothesis P_add : forall tid ip uid sock sd,
  registry_wf sd -> P sd -> P (snd (addToList tid ip uid sock sd)).
Hypothesis P_remove : forall i sd,
  registry_wf sd -> 0 <= i < numClients sd -> P sd ->
  P (snd (removeFromList i sd)).

Lemma removeFound_keeps tid sd :
  registry_wf sd /\ P sd ->
  let sd' := snd (removeFromList (findThreadIDInList tid sd) sd) in
  registry_wf sd' /\ P sd'.
Proof.
  intros [Hwf HP]. cbv zeta.
  destruct (findThreadIDInList_range tid sd) as [E|Hr].
  - rewrite E. now split.
  - split; [now apply removeFromList_wf | now apply P_remove].
Qed.

Lemma processMessage_keeps (send_result : Z -> cstring -> Z)
    tid sock ip isReg nbr m w :
  registry_wf (shared w) /\ P (shared w) ->
  let sd' := shared (snd (processMessage send_result tid sock ip isReg nbr m w)) in
  registry_wf sd' /\ P sd'.
Proof.
  intros Hinv. cbv zeta.
  destruct (processMessage_shared send_result tid sock ip isReg nbr m w)
    as [->|[[Hnone ->]| ->]].
  - exact Hinv.
  - destruct Hinv. split; [now apply addToList_wf | now apply P_add].
  - now apply removeFound_keeps.
Qed.

Lemma act_keeps (send_result : Z -> cstring -> Z) s a :
  registry_wf (shared (world s)) /\ P (shared (world s)) ->
  registry_wf (shared (world (act send_result s a)))
  /\ P (shared (world (act send_result s a))).
Proof.
  intros Hinv. destruct a as [tid sock ip st nbr m| |]; simpl.
  - destruct st.
    + rewrite clientHandler_step_awaiting. cbv zeta.
      destruct (_ =? _); simpl; now apply processMessage_keeps.
    + rewrite clientHandler_step_registered. cbv zeta. simpl.
      now apply processMessage_keeps.
    + rewrite clientHandler_step_leaving. simpl. now apply removeFound_keeps.
    + exact Hinv.
  - pose proof (clientConnectionMonitor_step_registry (monitor s) (world s))
      as [Hn Hc].
    destruct (clientConnectionMonitor_step (monitor s) (world s)) as [st w'].
    simpl in *. destruct Hinv as [[H1 H2 H3] HP]. split.
    + split; rewrite ?Hn, ?Hc; assumption.
    + now apply (P_same (shared (world s))).
  - pose proof (chatBroadcaster_step_shared send_result (broadcaster s)
                  (world s) (proj1 Hinv)) as Hs.
    destruct (chatBroadcaster_step send_result (broadcaster s) (world s))
      as [st w'].
    simpl in *. now rewrite Hs.
Qed.

Lemma run_keeps (send_result : Z -> cstring -> Z) acts s :
  registry_wf (shared (world s)) /\ P (shared (world s)) ->
  registry_wf (shared (world (run send_result s acts)))
  /\ P (shared (world (run send_result s acts))).
Proof.
  revert s. induction acts as [|a acts IH]; intros s Hinv; simpl.
  - exact Hinv.
  - apply IH. now apply act_keeps.
Qed.

End RegistryInduction.

Lemma initServer_wf q sock : registry_wf (shared (world (initServer q sock))).
Proof. apply initServer_inv. Qed.

(** X5: in every state that the server reaches from its start, by any
    sequence of turns of its threads, the count of clients is between 0 and
    [MAX_CLIENTS], the array has its [MAX_CLIENTS] slots, and every stored
    address and user id fits its [char] array. *)
Theorem reachable_registry_wf (send_result : Z -> cstring -> Z)
    (msgQID srvSocket : Z) (acts : list Action) :
  let sd := shared (world (run send_result (initServer msgQID srvSocket) acts)) in
  0 <= numClients sd <= MAX_CLIENTS
  /\ Z.of_nat (length (connectedClients sd)) = MAX_CLIENTS
  /\ Forall fits (connectedClients sd).
Proof.
  cbv zeta.
  destruct (run_keeps (fun _ => True) ltac:(auto) ltac:(auto) ltac:(auto)
              send_result acts (initServer msgQID srvSocket)
              (conj (initServer_wf msgQID srvSocket) I)) as [[H1 H2 H3] _].
  auto.
Qed.

Lemma unused_cleared_add tid ip uid sock sd :
  registry_wf sd -> unused_cleared sd ->
  unused_cleared (snd (addToList tid ip uid sock sd)).
Proof.
  intros [Hn Hlen _] Hc.
  destruct (Z.lt_ge_cases (numClients sd) MAX_CLIENTS) as [Hlt|Hge].
  - rewrite addToList_below by lia. intros j Hj. simpl in *.
    rewrite aget_aset_ne by lia. apply Hc. lia.
  - now rewrite addToList_full by lia.
Qed.

Lemma unused_cleared_remove i sd :
  registry_wf sd -> 0 <= i < numClients sd -> unused_cleared sd ->
  unused_cleared (snd (removeFromList i sd)).
Proof.
  intros [Hn Hlen _] Hi Hc j Hj.
  assert (Hlk := removeFromList_lookup i sd (Z.to_nat j) Hi (proj2 Hn) Hlen).
  rewrite removeFromList_inside in Hj by lia. simpl in Hj.
  apply aget_lookup. rewrite Hlk.
  destruct (decide (Z.to_nat j = Z.to_nat (numClients sd - 1))) as [|Hne];
    [reflexivity|].
  rewrite decide_False by lia.
  rewrite <- (Hc j) by lia. apply lookup_aget. lia.
Qed.

(** X6: in every state that the server reaches from its start, every slot
    of [connectedClients] from index [numClients] on is cleared (empty
    address and user id, thread and socket 0): no removed client is left
    behind in the array. *)
Theorem reachable_unused_cleared (send_result : Z -> cstring -> Z)
    (msgQID srvSocket : Z) (acts : list Action) :
  let sd := shared (world (run send_result (initServer msgQID srvSocket) acts)) in
  forall j, numClients sd <= j < MAX_CLIENTS ->
    aget (connectedClients sd) j = emptyClient.
Proof.
  cbv zeta.
  refine (proj2 (run_keeps unused_cleared _ _ _ send_result acts
                   (initServer msgQID srvSocket)
                   (conj (initServer_wf msgQID srvSocket) _))).
  - intros sd sd' Hn Hc H j Hj. rewrite Hc. apply H. lia.
  - intros. now apply unused_cleared_add.
  - intros. now apply unused_cleared_remove.
  - intros j Hj. simpl in Hj. unfold aget.
    apply list_lookup_total_correct.
    change (connectedClients (shared (world (initServer msgQID srvSocket))))
      with (replicate (Z.to_nat MAX_CLIENTS) emptyClient).
    apply lookup_replicate_2. unfold MAX_CLIENTS in *. lia.
Qed.

(* ===================================================================== *)
(** ** More on the server: messages, quits, disconnects *)
(* ===================================================================== *)

Lemma broadcastTexts_bounded message :
  strlen message <= CLIENT_MESSAGE_LENGTH ->
  (1 <= length (broadcastTexts message) <= 2)%nat
  /\ Forall (fun t => strlen t <= BROADCAST_MESSAGE_LENGTH)
       (broadcastTexts message).
Proof.
  intros Hmax. unfold broadcastTexts.
  destruct (Z.gtb_spec (strlen message) BROADCAST_MESSAGE_LENGTH) as [Hlong|Hs].
  - cbv zeta. change (2 =? 2) with true. cbv iota.
    destruct (splitString_long message ltac:(lia)) as (H1 & H2 & _).
    destruct (splitString message BROADCAST_MESSAGE_LENGTH) as [a b].
    cbn [fst snd length] in *. split; [lia|].
    constructor; [exact H1|]. constructor; [exact H2 | constructor].
  - cbv zeta. change (1 =? 2) with false. cbv iota.
    cbn [length]. split; [lia|]. constructor; [|constructor].
    rewrite strncpy_terminated_fits; lia.
Qed.

(** X7: [sendMessageToQueue] on a client message of at most 80 characters
    puts one or two broadcasts at the tail of the queue, each with the
    sender's address and user id (cut to their fields) and a text of at most
    40 characters, and answers [SUCCESS]; once the queue is gone it queues
    nothing and answers [MESSAGE_PROCESS_FAILED].  It sends nothing and
    leaves the shared data alone. *)
Theorem sendMessageToQueue_enqueues ip m w :
  strlen (cmMessage m) <= CLIENT_MESSAGE_LENGTH ->
  let r := sendMessageToQueue ip m w in
  shared (snd r) = shared w
  /\ trace (snd r) = trace w
  /\ (queueRemoved w = true ->
      fst r = MESSAGE_PROCESS_FAILED /\ queue (snd r) = queue w)
  /\ (queueRemoved w = false ->
      fst r = SUCCESS
      /\ queue (snd r) = queue w ++ broadcastsOf ip m
      /\ (1 <= length (broadcastsOf ip m) <= 2)%nat
      /\ Forall (fun b =>
                   bcIP b = strncpy_terminated ip CLIENT_IP_LENGTH
                   /\ bcUserID b
                      = strncpy_terminated (cmUserID m) CLIENT_USERID_LENGTH
                   /\ strlen (bcMessage b) <= BROADCAST_MESSAGE_LENGTH)
           (broadcastsOf ip m)).
Proof.
  intros Hmax. cbv zeta.
  destruct (broadcastTexts_bounded (cmMessage m) Hmax) as [Hlen Hall].
  unfold sendMessageToQueue. rewrite run_enqueueAll.
  destruct (queueRemoved w) eqn:Hq; simpl.
  - repeat split; try discriminate.
    destruct (broadcastTexts (cmMessage m)); [simpl in Hlen; lia | reflexivity].
  - repeat split; try discriminate.
    + unfold broadcastsOf. rewrite length_map. lia.
    + unfold broadcastsOf. rewrite length_map. lia.
    + unfold broadcastsOf. apply Forall_fmap.
      eapply Forall_impl; [|exact Hall]. intros t Ht. simpl. auto.
Qed.


(** X9: when a registered client sends [>>bye<<], the handler removes the
    client's entry under the lock and sends no reply; its last turn then
    finds the thread no more, removes nothing, and closes the socket.  After
    the two turns the registered entries are the former ones without the
    client's, in the same order. *)
Theorem handler_quit (send_result : Z -> cstring -> Z)
    tid sock ip nbr m w :
  registry_wf (shared w) ->
  NoDup (threadID <$> registered (shared w)) ->
  findThreadIDInList tid (shared w) <> ENTRY_NOT_FOUND_OR_NULL ->
  rejectedEarly nbr m = false -> cmMessage m = SERVER_QUIT_MSG ->
  let q := clientHandler_step send_result tid sock ip Registered nbr m w in
  let l := clientHandler_step send_result tid sock ip (fst q) nbr m (snd q) in
  fst q = Leaving /\ fst l = Closed
  /\ registered (shared (snd l))
     = delete (Z.to_nat (findThreadIDInList tid (shared w)))
         (registered (shared w))
  /\ numClients (shared (snd l)) = numClients (shared w) - 1
  /\ queue (snd l) = queue w
  /\ trace (snd l)
     = trace w ++ [EvLock; EvUnlock; EvLock; EvUnlock; EvClose sock].
Proof.
  intros Hwf Hnd Hfound Hearly Hmsg. cbv zeta.
  rewrite clientHandler_step_registered, processMessage_message. cbv zeta.
  rewrite Hearly.
  assert (E : (strncmp (cmMessage m) SERVER_QUIT_MSG
                 (Z.to_nat (sizeof_lit SERVER_QUIT_MSG)) =? 0) = true)
    by now rewrite Z.eqb_eq, strncmp_sizeof.
  rewrite E. cbn [fst snd].
  change (MESSAGE_PROCESS_QUIT =? MESSAGE_PROCESS_SUCCESS) with false.
  cbv iota. rewrite clientHandler_step_leaving. simpl.
  rewrite (findThreadIDInList_after_remove tid (shared w) Hwf Hnd). simpl.
  destruct (findThreadIDInList_range tid (shared w)) as [?|Hr]; [congruence|].
  pose proof Hwf as [Hn Hlen _].
  split; [reflexivity|]. split; [reflexivity|]. split; [|split; [|split]].
  - apply registered_remove; lia.
  - now rewrite removeFromList_inside by lia.
  - reflexivity.
  - now rewrite <- app_assoc.
Qed.

(** X10: when the read of a registered client fails, or gives a message
    whose user id is empty or all white space, [processMessage] touches
    nothing and sends nothing, and the handler's last turn removes the
    client's entry under the lock and closes the socket: the registered
    entries are then the former ones without the client's, in the same
    order. *)
Theorem handler_disconnect (send_result : Z -> cstring -> Z)
    tid sock ip nbr m w :
  registry_wf (shared w) ->
  findThreadIDInList tid (shared w) <> ENTRY_NOT_FOUND_OR_NULL ->
  rejectedEarly nbr m = true ->
  let q := clientHandler_step send_result tid sock ip Registered nbr m w in
  let l := clientHandler_step send_result tid sock ip (fst q) nbr m (snd q) in
  q = (Leaving, w) /\ fst l = Closed
  /\ registered (shared (snd l))
     = delete (Z.to_nat (findThreadIDInList tid (shared w)))
         (registered (shared w))
  /\ numClients (shared (snd l)) = numClients (shared w) - 1
  /\ queue (snd l) = queue w
  /\ trace (snd l) = trace w ++ [EvLock; EvUnlock; EvClose sock].
Proof.
  intros Hwf Hfound Hearly. cbv zeta.
  rewrite clientHandler_step_registered, processMessage_message. cbv zeta.
  rewrite Hearly. cbn [fst snd].
  change (MESSAGE_PROCESS_FAILED =? MESSAGE_PROCESS_SUCCESS) with false.
  cbv iota. rewrite clientHandler_step_leaving. simpl.
  destruct (findThreadIDInList_range tid (shared w)) as [?|Hr]; [congruence|].
  pose proof Hwf as [Hn Hlen _].
  split; [reflexivity|]. split; [reflexivity|]. split; [|split; [|split]].
  - apply registered_remove; lia.
  - now rewrite removeFromList_inside by lia.
  - reflexivity.
  - reflexivity.
Qed.

(* ===================================================================== *)
(** ** More on the server: the flags, the broadcaster's exit, the accept loop *)
(* ===================================================================== *)

Lemma addToList_flag tid ip uid sock sd :
  serverIsRunning (snd (addToList tid ip uid sock sd)) = serverIsRunning sd.
Proof. unfold addToList. now destruct (_ <? _). Qed.

Lemma removeFromList_flag i sd :
  serverIsRunning (snd (removeFromList i sd)) = serverIsRunning sd.
Proof. unfold removeFromList. now destruct (negb _). Qed.

(** What [processMessage] leaves alone: the running flag, the listening
    socket, the state of the queue; and the queue only grows. *)
Lemma processMessage_rest (send_result : Z -> cstring -> Z)
    tid sock ip isReg nbr m w :
  let w' := snd (processMessage send_result tid sock ip isReg nbr m w) in
  serverIsRunning (shared w') = serverIsRunning (shared w)
  /\ listening w' = listening w
  /\ queueRemoved w' = queueRemoved w
  /\ exists bs, queue w' = queue w ++ bs.
Proof.
  cbv zeta. destruct (Z.eqb_spec isReg 0) as [->|Hreg].
  - change 0 with IS_MESSAGE. rewrite processMessage_message.
    destruct (rejectedEarly nbr m); simpl.
    { repeat split. exists []. now rewrite app_nil_r. }
    destruct (_ =? 0); simpl.
    { rewrite removeFromList_flag. repeat split.
      exists []. now rewrite app_nil_r. }
    destruct (queueRemoved w) eqn:Hq; simpl.
    + rewrite Hq. repeat split. exists []. now rewrite app_nil_r.
    + rewrite Hq. repeat split. eauto.
  - assert (E : processMessage send_result tid sock ip isReg nbr m w
                = processMessage send_result tid sock ip IS_REGISTRATION nbr m w).
    { unfold processMessage. apply Z.eqb_neq in Hreg. rewrite Hreg.
      reflexivity. }
    rewrite E, processMessage_registration.
    destruct (rejectedEarly nbr m); [|destruct (_ && _);
      [destruct (_ <? _)|]]; simpl; rewrite ?addToList_flag;
      (repeat split; exists []; now rewrite app_nil_r).
Qed.

Lemma clientHandler_step_rest (send_result : Z -> cstring -> Z)
    tid sock ip st nbr m w :
  let w' := snd (clientHandler_step send_result tid sock ip st nbr m w) in
  serverIsRunning (shared w') = serverIsRunning (shared w)
  /\ listening w' = listening w
  /\ queueRemoved w' = queueRemoved w
  /\ exists bs, queue w' = queue w ++ bs.
Proof.
  cbv zeta. destruct st.
  - rewrite clientHandler_step_awaiting. cbv zeta.
    destruct (_ =? _); simpl; apply processMessage_rest.
  - rewrite clientHandler_step_registered. cbv zeta. simpl.
    apply processMessage_rest.
  - rewrite clientHandler_step_leaving. simpl. rewrite removeFromList_flag.
    repeat split. exists []. now rewrite app_nil_r.
  - repeat split. exists []. now rewrite app_nil_r.
Qed.

Lemma chatBroadcaster_step_rest (send_result : Z -> cstring -> Z) st w :
  registry_wf (shared w) ->
  listening (snd (chatBroadcaster_step send_result st w)) = listening w.
Proof.
  intros Hwf. destruct st as [| |msg|].
  - unfold chatBroadcaster_step. repeat run_step. reflexivity.
  - unfold chatBroadcaster_step.
    run_step. destruct (_ <=? 0); [reflexivity|].
    unfold msgrcv at 1. unfold bind at 1.
    destruct (queueRemoved w); [reflexivity|].
    destruct (queue w) as [|b q]; reflexivity.
  - now rewrite chatBroadcaster_step_flush.
  - reflexivity.
Qed.

Lemma act_flags (send_result : Z -> cstring -> Z) s a :
  registry_wf (shared (world s)) /\ flags_agree s ->
  registry_wf (shared (world (act send_result s a)))
  /\ flags_agree (act send_result s a).
Proof.
  intros [Hwf Hf].
  split.
  { apply (act_keeps (fun _ => True)); auto. }
  destruct a as [tid sock ip st nbr m| |]; unfold flags_agree in *; simpl.
  - destruct (clientHandler_step_rest send_result tid sock ip st nbr m
                (world s)) as (-> & -> & _). exact Hf.
  - destruct (monitor s) eqn:Hm.
    + rewrite clientConnectionMonitor_step_waiting.
      destruct (_ >? 0); exact Hf.
    + rewrite clientConnectionMonitor_step_running.
      destruct (_ <=? 0); simpl; [now split | exact Hf].
    + simpl. exact Hf.
  - pose proof (chatBroadcaster_step_shared send_result (broadcaster s)
                  (world s) Hwf) as Hs.
    pose proof (chatBroadcaster_step_rest send_result (broadcaster s)
                  (world s) Hwf) as Hl.
    destruct (chatBroadcaster_step send_result (broadcaster s) (world s))
      as [st w'].
    simpl in *. now rewrite Hs, Hl.
Qed.

Lemma run_flags (send_result : Z -> cstring -> Z) acts s :
  registry_wf (shared (world s)) /\ flags_agree s ->
  registry_wf (shared (world (run send_result s acts)))
  /\ flags_agree (run send_result s acts).
Proof.
  revert s. induction acts as [|a acts IH]; intros s Hinv; simpl.
  - exact Hinv.
  - apply IH. now apply act_flags.
Qed.

(** X11: in every state that the server reaches from its start, the running
    flag and the listening socket are both up unless the monitor has left
    its loop, and both down once it has: no handler and no broadcaster ever
    stops the server, and a server that the monitor has stopped is never
    started again. *)
Theorem reachable_flags (send_result : Z -> cstring -> Z)
    (msgQID srvSocket : Z) (acts : list Action) :
  let s := run send_result (initServer msgQID srvSocket) acts in
  (monitor s = Exited
   /\ serverIsRunning (shared (world s)) = 0 /\ listening (world s) = false)
  \/ (monitor s <> Exited
      /\ serverIsRunning (shared (world s)) = 1 /\ listening (world s) = true).
Proof.
  cbv zeta.
  destruct (run_flags send_result acts (initServer msgQID srvSocket)) as [_ H].
  { split; [apply initServer_wf | now split]. }
  unfold flags_agree in H.
  destruct (monitor (run send_result (initServer msgQID srvSocket) acts));
    [right | right | left]; (split; [congruence | exact H]).
Qed.

Lemma act_broadcaster_exited (send_result : Z -> cstring -> Z) s a :
  broadcaster s = BcExited ->
  broadcaster (act send_result s a) = BcExited
  /\ exists bs, queue (world (act send_result s a)) = queue (world s) ++ bs.
Proof.
  intros Hb. destruct a as [tid sock ip st nbr m| |]; simpl.
  - split; [exact Hb|].
    apply (clientHandler_step_rest send_result tid sock ip st nbr m (world s)).
  - destruct (monitor s).
    + rewrite clientConnectionMonitor_step_waiting. simpl.
      split; [exact Hb|]. exists []. now rewrite app_nil_r.
    + rewrite clientConnectionMonitor_step_running.
      destruct (_ <=? 0); simpl; (split; [exact Hb|]);
        exists []; now rewrite app_nil_r.
    + simpl. split; [exact Hb|]. exists []. now rewrite app_nil_r.
  - rewrite Hb. simpl. split; [reflexivity|]. exists []. now rewrite app_nil_r.
Qed.

(** X12: once the broadcaster has left its loop it stays out of it whatever
    turns follow, and nothing is taken from the queue any more: the
    broadcasts queued before stay at its head and the ones that handlers
    queue later pile up behind them. *)
Theorem broadcaster_exit_final (send_result : Z -> cstring -> Z) s acts :
  broadcaster s = BcExited ->
  broadcaster (run send_result s acts) = BcExited
  /\ exists bs, queue (world (run send_result s acts))
                = queue (world s) ++ bs.
Proof.
  revert s. induction acts as [|a acts IH]; intros s Hb; simpl.
  - split; [exact Hb|]. exists []. now rewrite app_nil_r.
  - destruct (act_broadcaster_exited send_result s a Hb) as [Hb' [bs1 Hq1]].
    destruct (IH _ Hb') as [Hb'' [bs2 Hq2]].
    split; [exact Hb''|]. exists (bs1 ++ bs2).
    now rewrite Hq2, Hq1, app_assoc.
Qed.







(** X26: the ways out of the accept loop.  A turn whose [accept] fails, on a
    listening socket that is closed or for a reason of its own, starts no
    thread and leaves the loop between one lock and one unlock, with
    [SOCKET_ERROR] when the running flag is still up and [SUCCESS] when the
    monitor has taken it down.  A turn in which a [pthread_create] fails
    leaves the loop with [THREAD_ERROR], with the threads started before the
    failing call left running: none when it is the handler's, the handler
    when it is the monitor's, the handler and the monitor when it is the
    broadcaster's; only the first turn creates the monitor and the
    broadcaster. *)
Theorem runServer_step_exits pending created total w :
  (listening w = false \/ pending < 0 ->
   runServer_step pending created total w
   = (Some (if negb (serverIsRunning (shared w) =? 0) then SOCKET_ERROR
            else SUCCESS),
      logged [EvLock; EvUnlock] w))
  /\ (listening w = true -> 0 <= pending ->
      (handlerCreated created <> 0 ->
       runServer_step pending created total w
       = (Some THREAD_ERROR, logged [EvAccept pending] w))
      /\ (handlerCreated created = 0 -> total <> 0 ->
          runServer_step pending created total w
          = (None, logged [EvAccept pending; EvSpawnHandler] w))
      /\ (handlerCreated created = 0 -> total = 0 ->
          monitorCreated created <> 0 ->
          runServer_step pending created total w
          = (Some THREAD_ERROR,
             logged [EvAccept pending; EvSpawnHandler] w))
      /\ (handlerCreated created = 0 -> total = 0 ->
          monitorCreated created = 0 -> broadcasterCreated created <> 0 ->
          runServer_step pending created total w
          = (Some THREAD_ERROR,
             logged [EvAccept pending; EvSpawnHandler; EvSpawnMonitor] w))).
Proof.
  split.
  - intros Hfail. unfold runServer_step.
    assert (Ha : exists r, accept pending w = (r, w) /\ r < 0).
    { unfold accept. destruct (listening w) eqn:Hl.
      - destruct Hfail as [|Hneg]; [discriminate|]. now exists pending.
      - exists (-1). split; [reflexivity | lia]. }
    destruct Ha as (r & Ha & Hr).
    rewrite (run_bind _ _ w r w Ha). cbv beta.
    destruct (Z.ltb_spec r 0); [|lia].
    repeat run_step. unfold ret. now rewrite logged_logged.
  - intros Hl Hp.
    assert (Hstep : runServer_step pending created total w
              = (if negb (handlerCreated created =? 0)
                 then (Some THREAD_ERROR, logged [EvAccept pending] w)
                 else if total =? 0 then
                   if negb (monitorCreated created =? 0)
                   then (Some THREAD_ERROR,
                         logged [EvAccept pending; EvSpawnHandler] w)
                   else if negb (broadcasterCreated created =? 0)
                   then (Some THREAD_ERROR,
                         logged [EvAccept pending; EvSpawnHandler;
                                 EvSpawnMonitor] w)
                   else (None,
                         logged [EvAccept pending; EvSpawnHandler;
                                 EvSpawnMonitor; EvSpawnBroadcaster] w)
                 else (None, logged [EvAccept pending; EvSpawnHandler] w))).
    { unfold runServer_step.
      erewrite run_bind by (unfold accept; rewrite Hl; reflexivity).
      cbv beta. destruct (Z.ltb_spec pending 0); [lia|].
      run_step. destruct (handlerCreated created =? 0); cbn [negb];
        [|reflexivity].
      run_step. rewrite logged_logged. cbn [app].
      destruct (total =? 0); [|reflexivity].
      destruct (monitorCreated created =? 0); cbn [negb]; [|reflexivity].
      run_step. rewrite logged_logged. cbn [app].
      destruct (broadcasterCreated created =? 0); cbn [negb]; [|reflexivity].
      run_step. rewrite logged_logged. reflexivity. }
    rewrite Hstep. repeat split.
    + intros H. now destruct (Z.eqb_spec (handlerCreated created) 0).
    + intros H Ht. rewrite H. cbn [Z.eqb negb].
      now destruct (Z.eqb_spec total 0).
    + intros H Ht Hm. rewrite H, Ht. cbn [Z.eqb negb].
      now destruct (Z.eqb_spec (monitorCreated created) 0).
    + intros H Ht Hm Hb. rewrite H, Ht, Hm. cbn [Z.eqb negb].
      now destruct (Z.eqb_spec (broadcasterCreated created) 0).
Qed.

(* ===================================================================== *)
(** ** The wire encoding: round trips *)
(* ===================================================================== *)

Lemma eqb_dquote_false c : c <> dquote -> Ascii.eqb dquote c = false.
Proof. intros H. apply Ascii.eqb_neq. congruence. Qed.

(** A search for a text that starts with a double quote runs over a text
    without double quote. *)
Lemma strstr_skip v rest n :
  quoteFree v -> strstr (v ++ rest) (dquote :: n) = strstr rest (dquote :: n).
Proof.
  induction 1 as [|c v Hc Hv IH]; [reflexivity|].
  cbn [strstr is_prefix app]. now rewrite (eqb_dquote_false c Hc).
Qed.

(** A key does not match at the double quote that opens a value: after the
    value comes a comma or a closing brace, not a colon. *)
Lemma is_prefix_value a b n v c r :
  quoteFree a -> quoteFree v -> b <> c ->
  is_prefix (a ++ dquote :: b :: n) (v ++ dquote :: c :: r) = false.
Proof.
  intros Ha. revert v. induction Ha as [|y a Hy Ha IH]; intros v Hv Hbc.
  - destruct Hv as [|x v Hx Hv]; cbn [is_prefix app].
    + rewrite Ascii.eqb_refl. now apply Ascii.eqb_neq in Hbc as ->.
    + now rewrite (eqb_dquote_false x Hx).
  - destruct Hv as [|x v Hx Hv]; cbn [is_prefix app].
    + apply Ascii.eqb_neq in Hy. now rewrite Hy.
    + destruct (Ascii.eqb y x); [|reflexivity]. now apply IH.
Qed.

Lemma scanset_value n v rest :
  quoteFree v -> scanset n (v ++ dquote :: rest) = take n v.
Proof.
  intros Hv. revert n.
  induction Hv as [|c v Hc Hv IH]; intros [|n]; cbn [scanset app take];
    try reflexivity.
  apply Ascii.eqb_neq in Hc. rewrite Hc. now rewrite IH.
Qed.

Lemma match_nil_id (v : cstring) :
  match v with [] => [] | _ => v end = v.
Proof. now destruct v. Qed.

Lemma quoteFree_letters (name : string) :
  forallb (fun c => negb (Ascii.eqb c dquote)) (lit name) = true ->
  quoteFree (lit name).
Proof.
  intros H. apply Forall_forall. intros c Hc.
  rewrite forallb_forall in H. specialize (H c Hc).
  apply negb_true_iff in H. now apply Ascii.eqb_neq in H.
Qed.
Lemma is_prefix_app n rest : is_prefix n (n ++ rest) = true.
Proof. induction n as [|c n IH]; [now destruct rest|]. cbn [is_prefix app]. now rewrite Ascii.eqb_refl. Qed.

Lemma strstr_miss c h n :
  is_prefix n (c :: h) = false -> strstr (c :: h) n = strstr h n.
Proof. intros H. cbn [strstr]. now rewrite H. Qed.

Lemma strstr_hit c h n :
  is_prefix n (c :: h) = true -> strstr (c :: h) n = Some (c :: h).
Proof. intros H. cbn [strstr]. now rewrite H. Qed.

Lemma strstr_skip_key name v rest :
  quoteFree v -> strstr (v ++ rest) (jsonKey name) = strstr rest (jsonKey name).
Proof. apply strstr_skip. Qed.

Lemma is_prefix_open name v c r :
  quoteFree (lit name) -> quoteFree v -> c <> ":"%char ->
  is_prefix (jsonKey name) (dquote :: v ++ dquote :: c :: r) = false.
Proof.
  intros Hn Hv Hc. unfold jsonKey. cbn [is_prefix app].
  rewrite Ascii.eqb_refl. apply is_prefix_value; [exact Hn|exact Hv|congruence].
Qed.

Lemma sscanf_field_value name n v rest :
  quoteFree v ->
  sscanf_field (jsonKey name ++ v ++ dquote :: rest) (jsonKey name) n []
  = take n v.
Proof.
  intros Hv. unfold sscanf_field.
  rewrite is_prefix_app, drop_app_length, scanset_value by exact Hv.
  now destruct (take n v).
Qed.

Ltac key_free := apply quoteFree_letters; reflexivity.

Ltac scan :=
  repeat first
    [ rewrite strstr_skip_key by assumption
    | rewrite strstr_miss by reflexivity
    | rewrite strstr_miss
        by (apply is_prefix_open; [key_free | assumption | discriminate])
    | rewrite strstr_hit by reflexivity ].


Ltac json_field name v H :=
  unfold jsonField, broadcastToJson, clientMessageToJson;
  cbn [bcIP bcUserID bcMessage cmUserID cmMessage
       lit list_ascii_of_string app];
  scan; exact (sscanf_field_value name _ v _ H).

Lemma jsonToBroadcast_fields ip uid msg rest :
  quoteFree ip -> quoteFree uid -> quoteFree msg ->
  jsonToBroadcast
    (lit "{" ++ jsonKey "clientIP" ++ ip ++ [dquote] ++ lit ","
       ++ jsonKey "clientUserID" ++ uid ++ [dquote] ++ lit ","
       ++ jsonKey "message" ++ msg ++ dquote :: rest)
  = mkBroadcast (take 15 ip) (take 5 uid) (take 40 msg).
Proof.
  intros Hip Hu Hm. unfold jsonToBroadcast. f_equal.
  - unfold jsonField at 1. cbn [lit list_ascii_of_string app].
    unfold jsonKey at 1 2 3. cbn [lit list_ascii_of_string app].
    scan. exact (sscanf_field_value "clientIP" _ ip _ Hip).
  - unfold jsonField at 1. cbn [lit list_ascii_of_string app].
    unfold jsonKey at 1 2 3. cbn [lit list_ascii_of_string app].
    scan. exact (sscanf_field_value "clientUserID" _ uid _ Hu).
  - unfold jsonField at 1. cbn [lit list_ascii_of_string app].
    unfold jsonKey at 1 2 3. cbn [lit list_ascii_of_string app].
    scan. exact (sscanf_field_value "message" _ msg _ Hm).
Qed.

Lemma jsonToClientMessage_fields uid msg rest :
  quoteFree uid -> quoteFree msg ->
  jsonToClientMessage
    (lit "{" ++ jsonKey "clientUserID" ++ uid ++ [dquote] ++ lit ","
       ++ jsonKey "message" ++ msg ++ dquote :: rest)
  = mkClientMessage (take 5 uid) (take 80 msg).
Proof.
  intros Hu Hm. unfold jsonToClientMessage. f_equal.
  - unfold jsonField at 1. cbn [lit list_ascii_of_string app].
    unfold jsonKey at 1 2. cbn [lit list_ascii_of_string app].
    scan. exact (sscanf_field_value "clientUserID" _ uid _ Hu).
  - unfold jsonField at 1. cbn [lit list_ascii_of_string app].
    unfold jsonKey at 1 2. cbn [lit list_ascii_of_string app].
    scan. exact (sscanf_field_value "message" _ msg _ Hm).
Qed.

Lemma take_fits (s : cstring) (n : nat) :
  strlen s <= Z.of_nat n -> take n s = s.
Proof. unfold strlen. intros H. apply take_ge. lia. Qed.

Lemma jsonToBroadcast_cut b :
  quoteFree (bcIP b) -> quoteFree (bcUserID b) -> quoteFree (bcMessage b) ->
  jsonToBroadcast (broadcastToJson b) = cutBroadcast b.
Proof.
  intros Hip Hu Hm.
  exact (jsonToBroadcast_fields (bcIP b) (bcUserID b) (bcMessage b)
           (lit "}") Hip Hu Hm).
Qed.

Lemma jsonToClientMessage_cut m :
  quoteFree (cmUserID m) -> quoteFree (cmMessage m) ->
  jsonToClientMessage (clientMessageToJson m) = cutClientMessage m.
Proof.
  intros Hu Hm.
  exact (jsonToClientMessage_fields (cmUserID m) (cmMessage m) (lit "}")
           Hu Hm).
Qed.

(** X14: a broadcast whose fields hold no double quote is decoded from its
    encoding with each field cut to the width of its conversion (15, 5 and
    40 characters); when the fields are within these widths, decoding the
    encoding gives the broadcast back. *)
Theorem broadcast_round_trip b :
  quoteFree (bcIP b) -> quoteFree (bcUserID b) -> quoteFree (bcMessage b) ->
  jsonToBroadcast (broadcastToJson b) = cutBroadcast b
  /\ (strlen (bcIP b) <= CLIENT_IP_LENGTH ->
      strlen (bcUserID b) <= CLIENT_USERID_LENGTH ->
      strlen (bcMessage b) <= BROADCAST_MESSAGE_LENGTH ->
      jsonToBroadcast (broadcastToJson b) = b).
Proof.
  intros Hip Hu Hm. split; [now apply jsonToBroadcast_cut|].
  intros Li Lu Lm. rewrite jsonToBroadcast_cut by assumption.
  destruct b as [ip uid msg]. unfold cutBroadcast. cbn [bcIP bcUserID bcMessage] in *.
  now rewrite (take_fits ip 15), (take_fits uid 5), (take_fits msg 40).
Qed.

(** X15: a client message whose fields hold no double quote is decoded from
    its encoding with the user id cut to 5 and the text to 80 characters;
    when the fields are within these widths, decoding the encoding gives the
    message back. *)
Theorem clientMessage_round_trip m :
  quoteFree (cmUserID m) -> quoteFree (cmMessage m) ->
  jsonToClientMessage (clientMessageToJson m) = cutClientMessage m
  /\ (strlen (cmUserID m) <= CLIENT_USERID_LENGTH ->
      strlen (cmMessage m) <= CLIENT_MESSAGE_LENGTH ->
      jsonToClientMessage (clientMessageToJson m) = m).
Proof.
  intros Hu Hm. split; [now apply jsonToClientMessage_cut|].
  intros Lu Lm. rewrite jsonToClientMessage_cut by assumption.
  destruct m as [uid msg]. unfold cutClientMessage. cbn [cmUserID cmMessage] in *.
  now rewrite (take_fits uid 5), (take_fits msg 80).
Qed.

(** X16: the encoders do not escape: a double quote in the text of a message
    ends the text for the decoder, which gives only what stands before the
    first double quote (cut to the width of the field), whatever follows. *)
Theorem quote_ends_message uid ip before after :
  quoteFree uid -> quoteFree ip -> quoteFree before ->
  jsonToClientMessage
    (clientMessageToJson (mkClientMessage uid (before ++ dquote :: after)))
  = mkClientMessage (take 5 uid) (take 80 before)
  /\ jsonToBroadcast
       (broadcastToJson (mkBroadcast ip uid (before ++ dquote :: after)))
     = mkBroadcast (take 15 ip) (take 5 uid) (take 40 before).
Proof.
  intros Hu Hip Hb. split.
  - unfold clientMessageToJson. cbn [cmUserID cmMessage].
    rewrite <- (app_assoc before). cbn [app].
    exact (jsonToClientMessage_fields uid before _ Hu Hb).
  - unfold broadcastToJson. cbn [bcIP bcUserID bcMessage].
    rewrite <- (app_assoc before). cbn [app].
    exact (jsonToBroadcast_fields ip uid before _ Hip Hu Hb).
Qed.

Lemma strstr_none buf name :
  quoteFree buf -> strstr buf (jsonKey name) = None.
Proof.
  intros H. rewrite <- (app_nil_r buf). rewrite strstr_skip_key by exact H.
  reflexivity.
Qed.

Lemma jsonField_none buf name n : quoteFree buf -> jsonField buf name n = [].
Proof. intros H. unfold jsonField. now rewrite strstr_none. Qed.

(** X17: a buffer without double quote, such as the bare [>>bye<<] that the
    client's input handler sends on exit, is decoded to a message with an
    empty user id and an empty text.  [processMessage] rejects it before it
    looks at the text: a registered client's handler goes to its clean-up
    without any change or reply (the quit branch is not taken), and a handler
    that awaits the registration answers [>>failed<<] and closes. *)
Theorem bare_text_rejected (send_result : Z -> cstring -> Z)
    tid sock ip nbr buf w :
  quoteFree buf ->
  jsonToClientMessage buf = mkClientMessage [] []
  /\ clientHandler_step send_result tid sock ip Registered nbr
       (jsonToClientMessage buf) w
     = (Leaving, w)
  /\ clientHandler_step send_result tid sock ip AwaitingRegistration nbr
       (jsonToClientMessage buf) w
     = (Closed,
        logged [EvSend sock (serverReply SERVER_REGISTRATION_FAIL_MSG);
                EvClose sock] w).
Proof.
  intros H.
  assert (E : jsonToClientMessage buf = mkClientMessage [] []).
  { unfold jsonToClientMessage. now rewrite !jsonField_none. }
  rewrite E. split; [reflexivity|].
  assert (R : rejectedEarly nbr (mkClientMessage [] []) = true).
  { unfold rejectedEarly. cbn [cmUserID]. apply orb_true_iff. left.
    apply orb_true_iff. now right. }
  split.
  - rewrite clientHandler_step_registered, processMessage_message, R.
    reflexivity.
  - rewrite clientHandler_step_awaiting, processMessage_registration, R.
    cbn [fst snd]. rewrite logged_logged. reflexivity.
Qed.

Lemma strlen_app (a b : cstring) : strlen (a ++ b) = strlen a + strlen b.
Proof. unfold strlen. rewrite length_app. lia. Qed.

Lemma strlen_cons c (a : cstring) : strlen (c :: a) = 1 + strlen a.
Proof. unfold strlen. cbn [length]. lia. Qed.

(** X18: the encoding of a broadcast is 46 characters longer than its three
    fields together, that of a client message 32 characters longer than its
    two; with the fields within their arrays both fit, with the terminating
    NUL, the [JSON_LENGTH] bytes that the encoders allocate. *)
Theorem json_fits_buffer b m :
  strlen (bcIP b) <= CLIENT_IP_LENGTH ->
  strlen (bcUserID b) <= CLIENT_USERID_LENGTH ->
  strlen (bcMessage b) <= BROADCAST_MESSAGE_LENGTH ->
  strlen (cmUserID m) <= CLIENT_USERID_LENGTH ->
  strlen (cmMessage m) <= CLIENT_MESSAGE_LENGTH ->
  strlen (broadcastToJson b)
  = 46 + strlen (bcIP b) + strlen (bcUserID b) + strlen (bcMessage b)
  /\ strlen (clientMessageToJson m)
     = 32 + strlen (cmUserID m) + strlen (cmMessage m)
  /\ strlen (broadcastToJson b) + 1 <= JSON_LENGTH
  /\ strlen (clientMessageToJson m) + 1 <= JSON_LENGTH.
Proof.
  intros Li Lu Lm Lu' Lm'.
  assert (Eb : strlen (broadcastToJson b)
               = 46 + strlen (bcIP b) + strlen (bcUserID b)
                 + strlen (bcMessage b)).
  { unfold broadcastToJson. cbn [lit list_ascii_of_string app].
    repeat (rewrite ?strlen_cons, ?strlen_app). unfold strlen at 4.
    cbn [length]. lia. }
  assert (Em : strlen (clientMessageToJson m)
               = 32 + strlen (cmUserID m) + strlen (cmMessage m)).
  { unfold clientMessageToJson. cbn [lit list_ascii_of_string app].
    repeat (rewrite ?strlen_cons, ?strlen_app). unfold strlen at 3.
    cbn [length]. lia. }
  unfold CLIENT_IP_LENGTH, CLIENT_USERID_LENGTH, BROADCAST_MESSAGE_LENGTH,
    CLIENT_MESSAGE_LENGTH, JSON_LENGTH in *.
  repeat split; lia.
Qed.

(* ===================================================================== *)
(** ** The client: registration handshake, arguments, display *)
(* ===================================================================== *)

Lemma strcmp_0_iff s1 s2 : strcmp s1 s2 = 0 <-> s1 = s2.
Proof.
  revert s2. induction s1 as [|c1 r1 IH]; intros [|c2 r2]; cbn [strcmp];
    try (split; [lia | discriminate]); [tauto|].
  destruct (Z.ltb_spec (char_code c1) (char_code c2)).
  { split; [lia|]. intros [= -> _]. lia. }
  destruct (Z.ltb_spec (char_code c2) (char_code c1)).
  { split; [lia|]. intros [= -> _]. lia. }
  assert (c1 = c2) as -> by (apply char_code_inj; lia).
  rewrite IH. split; [intros ->; reflexivity | now intros [= ->]].
Qed.

Lemma events_since_logged es w : events_since w (logged es w) = es.
Proof. unfold events_since, logged. cbn [trace]. apply drop_app_length. Qed.

Lemma events_since_logged_shared es sd w :
  events_since w (logged es (with_shared sd w)) = es.
Proof. unfold events_since, logged, with_shared. cbn [trace]. apply drop_app_length. Qed.

Ltac status_test :=
  cbv zeta; cbn [fst snd];
  match goal with
  | |- context [?a =? MESSAGE_PROCESS_SUCCESS] =>
      let v := eval vm_compute in (a =? MESSAGE_PROCESS_SUCCESS) in
      change (a =? MESSAGE_PROCESS_SUCCESS) with v
  end;
  cbv iota; cbn [fst snd].

(** X19: the registration handshake, seen from both ends.  Whatever the
    handler reads as the first message, the client's [main] goes on to start
    its user interface exactly when the handler has registered the client:
    the reply [>>success<<] is the only one that passes the test of [main];
    after [>>failed<<], and after the silent close on a full registry (where
    [recv] gives no byte), [main] returns 1. *)
Theorem registration_handshake (send_result : Z -> cstring -> Z)
    tid sock ip nbr m w :
  let step := clientHandler_step send_result tid sock ip AwaitingRegistration
                nbr m w in
  let answer :=
    main_check_response (first_received sock (events_since w (snd step))) in
  (fst step = Registered /\ answer = None)
  \/ (fst step = Closed /\ answer = Some 1).
Proof.
  cbv zeta.
  rewrite clientHandler_step_awaiting, processMessage_registration.
  assert (Hf : isFailureMessage
                 (jsonToBroadcast (serverReply SERVER_REGISTRATION_FAIL_MSG))
               = true) by (vm_compute; reflexivity).
  assert (Hs : isFailureMessage
                 (jsonToBroadcast
                    (serverReply SERVER_REGISTRATION_SUCCESS_MSG))
               = false) by (vm_compute; reflexivity).
  destruct (rejectedEarly nbr m).
  { right. status_test. split; [reflexivity|].
    rewrite logged_logged, events_since_logged.
    cbn [app first_received]. rewrite Z.eqb_refl.
    unfold main_check_response. now rewrite Hf. }
  destruct (_ && _).
  - destruct (numClients (shared w) <? MAX_CLIENTS).
    + left. status_test. split; [reflexivity|].
      rewrite events_since_logged_shared.
      cbn [first_received]. rewrite Z.eqb_refl.
      unfold main_check_response. now rewrite Hs.
    + right. status_test. split; [reflexivity|].
      rewrite logged_logged, events_since_logged.
      cbn [app first_received]. now rewrite Z.eqb_refl.
  - right. status_test. split; [reflexivity|].
    rewrite logged_logged, events_since_logged.
    cbn [app first_received]. rewrite Z.eqb_refl.
    unfold main_check_response. now rewrite Hf.
Qed.


Lemma scanset_length n s : (length (scanset n s) <= n)%nat.
Proof.
  revert s. induction n as [|n IH]; intros [|c s]; cbn [scanset length];
    try lia.
  destruct (Ascii.eqb c dquote); cbn [length]; [lia|].
  specialize (IH s). lia.
Qed.

(** Whatever the buffer, a decoded field is within the width of its
    conversion. *)
Lemma jsonField_length buf name n : (length (jsonField buf name n) <= n)%nat.
Proof.
  unfold jsonField. destruct (strstr buf (jsonKey name)) as [start|];
    [|cbn [length]; lia].
  unfold sscanf_field. destruct (is_prefix _ _); [|cbn [length]; lia].
  pose proof (scanset_length n (drop (length (jsonKey name)) start)) as H.
  destruct (scanset n _); [cbn [length]; lia | exact H].
Qed.

Lemma length_pad_right w s : length (pad_right w s) = Nat.max w (length s).
Proof. unfold pad_right. rewrite length_app, length_replicate. lia. Qed.

Lemma length_pad_left w s : length (pad_left w s) = Nat.max w (length s).
Proof. unfold pad_left. rewrite length_app, length_replicate. lia. Qed.

Lemma format_message_length ip username direction msg time_str :
  strlen (format_message ip username direction msg time_str)
  = Z.of_nat (Nat.max 15 (length ip)) + Z.of_nat (Nat.max 5 (length username))
    + Z.of_nat (Nat.max 2 (length direction))
    + Z.of_nat (Nat.max 40 (length msg)) + strlen time_str + 9.
Proof.
  unfold format_message, strlen. rewrite !length_app, !length_pad_right,
    length_pad_left. cbn [lit list_ascii_of_string length]. lia.
Qed.

Section Display.
Import ChatClient.

(** X21: whatever buffer [output_handler] receives that is not the failure
    message, the row that [display_message] formats from it is exactly 79
    characters long, new line included (the decoders never give a field
    wider than its column, and the time takes 8 characters): the history
    stores it whole, and the window shows the former rows, without the
    oldest when there were [HISTORY_SIZE] already, followed by the new
    row. *)
Theorem received_broadcast_displayed currentUserID time_str buffer h :
  history_inv h -> strlen time_str = 8 ->
  isFailureMessage (jsonToBroadcast buffer) = false ->
  let bcast := jsonToBroadcast buffer in
  let line :=
    format_message (bcIP bcast) (bcUserID bcast)
      (if strcmp (bcUserID bcast) currentUserID =? 0
       then lit ">>" else lit "<<")
      (bcMessage bcast) time_str in
  strlen line = 79
  /\ list.last line = Some newline
  /\ exists h',
       output_handler_step currentUserID time_str (Some buffer) h
       = Some (h', (if count h <? HISTORY_SIZE then displayed h
                    else drop 1 (displayed h)) ++ [line])
       /\ history_inv h'.
Proof.
  intros Hinv Ht Hnf bcast line.
  assert (Hlen : strlen line = 79).
  { unfold line. rewrite format_message_length, Ht.
    pose proof (jsonField_length buffer "clientIP" 15).
    pose proof (jsonField_length buffer "clientUserID" 5).
    pose proof (jsonField_length buffer "message" 40).
    unfold bcast, jsonToBroadcast. cbn [bcIP bcUserID bcMessage].
    destruct (strcmp _ _ =? 0); cbn [lit list_ascii_of_string length]; lia. }
  split; [exact Hlen|]. split.
  { unfold line, format_message. rewrite !app_assoc. apply last_snoc. }
  exists (add_message_to_history line h).
  split; [|now apply add_preserves_inv].
  unfold output_handler_step. rewrite Hnf.
  fold bcast. unfold display_message. fold line.
  assert (Hs : snprintf MESSAGE_MAX_LENGTH line = line).
  { unfold snprintf. apply take_ge. unfold strlen, MESSAGE_MAX_LENGTH in *. lia. }
  rewrite Hs.
  assert (Hc : strncpy_terminated line (MESSAGE_MAX_LENGTH - 1) = line).
  { apply strncpy_terminated_fits. unfold MESSAGE_MAX_LENGTH. lia. }
  do 2 f_equal.
  destruct (Z.ltb_spec (count h) HISTORY_SIZE) as [Hlt|Hge].
  - now rewrite displayed_add_room, Hc.
  - rewrite displayed_add_full, Hc; [reflexivity | exact Hinv |].
    destruct Hinv. lia.
Qed.

(** X22: after any sequence of messages added to the initial history, the
    rows that the window shows are the last [HISTORY_SIZE] of them, in the
    order of their arrival, each cut to 79 characters. *)
Theorem history_shows_last_ten ms :
  displayed (history_after ms)
  = drop (length ms - Z.to_nat HISTORY_SIZE)
      (map (fun m => strncpy_terminated m (MESSAGE_MAX_LENGTH - 1)) ms)
  /\ Z.of_nat (length (displayed (history_after ms)))
     = Z.min (Z.of_nat (length ms)) HISTORY_SIZE.
Proof.
  split; [apply displayed_history_after|].
  unfold displayed. rewrite displayLoop_length, history_after_count.
  unfold HISTORY_SIZE. lia.
Qed.

End Display.

Lemma is_prefix_take n h : is_prefix n h = true <-> take (length n) h = n.
Proof.
  revert h. induction n as [|a n IH]; intros [|b h]; cbn [is_prefix length take];
    try (split; [reflexivity | reflexivity]); try (split; discriminate).
  destruct (Ascii.eqb_spec a b) as [->|Hne].
  - rewrite IH. split; [intros ->; reflexivity | now intros [= ->]].
  - split; [discriminate | intros [= E _]; congruence].
Qed.

Lemma strncmp_prefix arg (flag : cstring) :
  (strncmp arg flag (length flag) =? 0) = is_prefix flag arg.
Proof.
  destruct (is_prefix flag arg) eqn:E.
  - apply Z.eqb_eq, strncmp_0_iff. apply is_prefix_take in E.
    now rewrite E, firstn_all.
  - apply Z.eqb_neq. intros H. apply strncmp_0_iff in H.
    rewrite firstn_all in H. apply is_prefix_take in H. congruence.
Qed.

Lemma user_not_server arg :
  is_prefix (lit "-user") arg = true -> is_prefix (lit "-server") arg = false.
Proof.
  destruct arg as [|c0 [|c1 arg]]; cbn [lit list_ascii_of_string is_prefix];
    try discriminate.
  - destruct (Ascii.eqb _ c0); discriminate.
  - destruct (Ascii.eqb _ c0); [|discriminate].
    destruct (Ascii.eqb_spec "u"%char c1) as [<-|]; [reflexivity|discriminate].
Qed.

Lemma parseArguments_arg_spec us ss bufs arg :
  parseArguments_arg us ss bufs arg
  = (if is_prefix (lit "-user") arg
     then strncpy_terminated (drop 5 arg) (us - 1) else fst bufs,
     if is_prefix (lit "-server") arg
     then strncpy_terminated (drop 7 arg) (ss - 1) else snd bufs).
Proof.
  unfold parseArguments_arg.
  change (strncmp arg (lit "-user") 5)
    with (strncmp arg (lit "-user") (length (lit "-user"))).
  change (strncmp arg (lit "-server") 7)
    with (strncmp arg (lit "-server") (length (lit "-server"))).
  rewrite (strncmp_prefix arg (lit "-user")),
    (strncmp_prefix arg (lit "-server")).
  destruct (is_prefix (lit "-user") arg) eqn:E.
  - now rewrite (user_not_server arg E).
  - destruct (is_prefix (lit "-server") arg); [reflexivity | now destruct bufs].
Qed.

(** X23: [parseArguments] leaves in [userID] what follows [-user] in the
    last argument that starts with [-user], and in [serverName] what follows
    [-server] in the last argument that starts with [-server], each cut to
    the size of its buffer less one; a buffer with no such argument keeps its
    content, and [argv[0]] is never looked at.  So [main] stops with the
    usage line exactly when, for one of the two flags, there is no such
    argument or the last one has nothing after the flag. *)
Theorem parseArguments_last argv userID us serverName ss :
  parseArguments argv userID us serverName ss
  = (from_option (fun a => strncpy_terminated (drop 5 a) (us - 1)) userID
       (lastArgument (lit "-user") argv),
     from_option (fun a => strncpy_terminated (drop 7 a) (ss - 1)) serverName
       (lastArgument (lit "-server") argv))
  /\ (main_arguments argv = inl 1 <->
      from_option (drop 5) [] (lastArgument (lit "-user") argv) = []
      \/ from_option (drop 7) [] (lastArgument (lit "-server") argv) = []).
Proof.
  assert (G : forall u s n m,
    parseArguments argv u n s m
    = (from_option (fun a => strncpy_terminated (drop 5 a) (n - 1)) u
         (lastArgument (lit "-user") argv),
       from_option (fun a => strncpy_terminated (drop 7 a) (m - 1)) s
         (lastArgument (lit "-server") argv))).
  { intros u s n m. unfold parseArguments, lastArgument.
    induction (drop 1 argv) as [|a args IH] using rev_ind; [reflexivity|].
    rewrite fold_left_app. cbn [fold_left].
    rewrite parseArguments_arg_spec, IH, !List.filter_app. cbn [List.filter fst snd].
    f_equal.
    - destruct (is_prefix (lit "-user") a); [now rewrite last_snoc|].
      now rewrite app_nil_r.
    - destruct (is_prefix (lit "-server") a); [now rewrite last_snoc|].
      now rewrite app_nil_r. }
  split; [apply G|].
  unfold main_arguments. rewrite G. cbn [fst snd].
  assert (E : forall (o : option cstring) k,
             (strlen (from_option
                        (fun a => strncpy_terminated (drop k a) (256 - 1)) [] o)
              =? 0) = true
             <-> from_option (drop k) [] o = []).
  { intros [a|] k; cbn [from_option]; [|split; reflexivity].
    rewrite Z.eqb_eq. unfold strlen, strncpy_terminated.
    destruct (drop k a) as [|c r]; [split; reflexivity|].
    split; [|discriminate]. change (Z.to_nat (256 - 1)) with 255%nat.
    cbn [take length]. lia. }
  rewrite <- !E.
  destruct (_ =? 0), (_ =? 0); cbn [orb]; split; intros H;
    try reflexivity; try discriminate; try (left; reflexivity);
    try (right; reflexivity); destruct H; discriminate.
Qed.

(** X24: [isWhitespace] answers 1 exactly for the strings of white-space
    characters only, the empty string among them, and 0 for every string
    with some other character. *)
Theorem isWhitespace_spec s :
  (isWhitespace s = 1 <-> Forall (fun c => isspace c = true) s)
  /\ (isWhitespace s = 0 <-> Exists (fun c => isspace c = false) s)
  /\ isWhitespace [] = 1.
Proof.
  split; [apply isWhitespace_1_iff|]. split; [|reflexivity].
  rewrite <- isWhitespace_0_iff.
  assert (H : isWhitespace s = 0 \/ isWhitespace s = 1).
  { induction s as [|c r IH]; cbn [isWhitespace]; [now right|].
    destruct (negb (isspace c)); [now left | exact IH]. }
  lia.
Qed.


(* ===================================================================== *)
(** ** Examples *)
(* ===================================================================== *)

Ltac sample_wf := apply registry_wfb_true; vm_compute; reflexivity.
Ltac sample_le := vm_compute; intro; discriminate.
Ltac sample_quoteFree :=
  vm_compute; repeat (constructor; [discriminate|]); constructor.
Ltac sample_NoDup :=
  vm_compute;
  repeat (constructor;
          [let H := fresh in
           intros H;
           repeat (apply elem_of_cons in H as [H|H]; [discriminate|]);
           now apply elem_of_nil in H|]);
  constructor.

Lemma findUserInList_first_witness :
  registry_wf (shared sample_three)
  /\ findUserInList sample_ip (lit "B") (shared sample_three) = 1
  /\ sameUser sample_ip (lit "B")
       (aget (connectedClients (shared sample_three)) 1).
Proof.
  assert (Hwf : registry_wf (shared sample_three)) by sample_wf.
  split; [exact Hwf|]. split; [reflexivity|].
  destruct (findUserInList_first sample_ip (lit "B") (shared sample_three) Hwf)
    as [[E _] | (_ & Hs & _)].
  - vm_compute in E. discriminate.
  - exact Hs.
Defined.

Lemma findThreadIDInList_first_witness :
  findThreadIDInList 2 (shared sample_three) = 2
  /\ threadID (aget (connectedClients (shared sample_three)) 2) = 2.
Proof.
  split; [reflexivity|].
  destruct (findThreadIDInList_first 2 (shared sample_three))
    as [[E _] | (_ & Hs & _)].
  - vm_compute in E. discriminate.
  - exact Hs.
Defined.

Lemma addToList_then_find_witness :
  registry_wf (shared sample_three)
  /\ numClients (shared sample_three) < MAX_CLIENTS
  /\ findUserInList sample_ip (lit "kate")
       (snd (addToList 9 sample_ip (lit "kate") 12 (shared sample_three)))
     = 3.
Proof.
  assert (Hwf : registry_wf (shared sample_three)) by sample_wf.
  assert (Hn : numClients (shared sample_three) < MAX_CLIENTS) by reflexivity.
  split; [exact Hwf|]. split; [exact Hn|].
  destruct (addToList_then_find 9 sample_ip (lit "kate") 12
              (shared sample_three) Hwf Hn) as (H & _).
  apply H. reflexivity.
Defined.

Lemma removeFromList_then_find_witness :
  registry_wf (shared sample_three)
  /\ unique_users (shared sample_three)
  /\ findUserInList sample_ip (lit "B")
       (snd (removeFromList
               (findUserInList sample_ip (lit "B") (shared sample_three))
               (shared sample_three)))
     = ENTRY_NOT_FOUND_OR_NULL.
Proof.
  assert (Hwf : registry_wf (shared sample_three)) by sample_wf.
  assert (Hu : unique_users (shared sample_three)) by sample_NoDup.
  split; [exact Hwf|]. split; [exact Hu|].
  apply (removeFromList_then_find sample_ip (lit "B") (shared sample_three)
           Hwf Hu).
Defined.

Lemma reachable_unused_cleared_witness :
  numClients (shared (world (run send_all_fail (initServer 3 4) sample_stall)))
    <= 5 < MAX_CLIENTS
  /\ aget (connectedClients
             (shared (world (run send_all_fail (initServer 3 4)
                               sample_stall)))) 5
     = emptyClient.
Proof.
  assert (H : numClients
                (shared (world (run send_all_fail (initServer 3 4)
                                  sample_stall))) <= 5 < MAX_CLIENTS)
    by (vm_compute; split; [intro; discriminate | reflexivity]).
  split; [exact H|].
  apply (reachable_unused_cleared send_all_fail 3 4 sample_stall 5 H).
Defined.

Lemma sendMessageToQueue_enqueues_witness :
  strlen (cmMessage sample_hi) <= CLIENT_MESSAGE_LENGTH
  /\ queue (snd (sendMessageToQueue sample_ip sample_hi sample_three))
     = [mkBroadcast sample_ip (lit "vale") (lit "hi there")].
Proof.
  assert (H : strlen (cmMessage sample_hi) <= CLIENT_MESSAGE_LENGTH)
    by sample_le.
  split; [exact H|].
  destruct (sendMessageToQueue_enqueues sample_ip sample_hi sample_three H)
    as (_ & _ & _ & Hq).
  destruct (Hq eq_refl) as (_ & E & _).
  rewrite E. reflexivity.
Defined.


Lemma handler_quit_witness :
  registry_wf (shared sample_three)
  /\ NoDup (threadID <$> registered (shared sample_three))
  /\ findThreadIDInList 1 (shared sample_three) <> ENTRY_NOT_FOUND_OR_NULL
  /\ rejectedEarly 30 sample_bye = false
  /\ numClients
       (shared
          (snd (clientHandler_step send_all_fail 1 6 sample_ip
                  (fst (clientHandler_step send_all_fail 1 6 sample_ip
                          Registered 30 sample_bye sample_three))
                  30 sample_bye
                  (snd (clientHandler_step send_all_fail 1 6 sample_ip
                          Registered 30 sample_bye sample_three)))))
     = numClients (shared sample_three) - 1.
Proof.
  assert (Hwf : registry_wf (shared sample_three)) by sample_wf.
  assert (Hd : NoDup (threadID <$> registered (shared sample_three)))
    by sample_NoDup.
  assert (Hf : findThreadIDInList 1 (shared sample_three)
               <> ENTRY_NOT_FOUND_OR_NULL) by discriminate.
  assert (Hr : rejectedEarly 30 sample_bye = false) by reflexivity.
  split; [exact Hwf|]. split; [exact Hd|]. split; [exact Hf|].
  split; [exact Hr|].
  destruct (handler_quit send_all_fail 1 6 sample_ip 30 sample_bye
              sample_three Hwf Hd Hf Hr eq_refl) as (_ & _ & _ & E & _).
  exact E.
Defined.

Lemma handler_disconnect_witness :
  registry_wf (shared sample_three)
  /\ findThreadIDInList 1 (shared sample_three) <> ENTRY_NOT_FOUND_OR_NULL
  /\ rejectedEarly (-1) sample_hi = true
  /\ clientHandler_step send_all_fail 1 6 sample_ip Registered (-1) sample_hi
       sample_three
     = (Leaving, sample_three).
Proof.
  assert (Hwf : registry_wf (shared sample_three)) by sample_wf.
  assert (Hf : findThreadIDInList 1 (shared sample_three)
               <> ENTRY_NOT_FOUND_OR_NULL) by discriminate.
  assert (Hr : rejectedEarly (-1) sample_hi = true) by reflexivity.
  split; [exact Hwf|]. split; [exact Hf|]. split; [exact Hr|].
  destruct (handler_disconnect send_all_fail 1 6 sample_ip (-1) sample_hi
              sample_three Hwf Hf Hr) as (E & _).
  exact E.
Defined.

Lemma broadcaster_exit_final_witness :
  broadcaster (run send_all_fail (initServer 3 4) sample_stall) = BcExited
  /\ broadcaster
       (run send_all_fail (run send_all_fail (initServer 3 4) sample_stall)
          sample_after_stall)
     = BcExited.
Proof.
  assert (H : broadcaster (run send_all_fail (initServer 3 4) sample_stall)
              = BcExited) by reflexivity.
  split; [exact H|].
  apply (broadcaster_exit_final send_all_fail _ sample_after_stall H).
Defined.


Lemma runServer_step_exits_witness :
  listening sample_world = true
  /\ 0 <= 7
  /\ handlerCreated (mkCreated 0 11 0) = 0
  /\ monitorCreated (mkCreated 0 11 0) <> 0
  /\ runServer_step 7 (mkCreated 0 11 0) 0 sample_world
     = (Some THREAD_ERROR,
        logged [EvAccept 7; EvSpawnHandler] sample_world).
Proof.
  assert (Hl : listening sample_world = true) by reflexivity.
  assert (Hp : 0 <= 7) by (intro; discriminate).
  assert (Hm : monitorCreated (mkCreated 0 11 0) <> 0) by discriminate.
  split; [exact Hl|]. split; [exact Hp|]. split; [reflexivity|].
  split; [exact Hm|].
  destruct (runServer_step_exits 7 (mkCreated 0 11 0) 0 sample_world)
    as (_ & H).
  destruct (H Hl Hp) as (_ & _ & E & _).
  apply E; [reflexivity | reflexivity | exact Hm].
Defined.

Lemma broadcast_round_trip_witness :
  quoteFree (bcIP sample_broadcast)
  /\ quoteFree (bcUserID sample_broadcast)
  /\ quoteFree (bcMessage sample_broadcast)
  /\ jsonToBroadcast (broadcastToJson sample_broadcast) = sample_broadcast.
Proof.
  assert (H1 : quoteFree (bcIP sample_broadcast)) by sample_quoteFree.
  assert (H2 : quoteFree (bcUserID sample_broadcast)) by sample_quoteFree.
  assert (H3 : quoteFree (bcMessage sample_broadcast)) by sample_quoteFree.
  split; [exact H1|]. split; [exact H2|]. split; [exact H3|].
  destruct (broadcast_round_trip sample_broadcast H1 H2 H3) as (_ & E).
  apply E; sample_le.
Defined.

Lemma clientMessage_round_trip_witness :
  quoteFree (cmUserID sample_hi)
  /\ quoteFree (cmMessage sample_hi)
  /\ jsonToClientMessage (clientMessageToJson sample_hi) = sample_hi.
Proof.
  assert (H1 : quoteFree (cmUserID sample_hi)) by sample_quoteFree.
  assert (H2 : quoteFree (cmMessage sample_hi)) by sample_quoteFree.
  split; [exact H1|]. split; [exact H2|].
  destruct (clientMessage_round_trip sample_hi H1 H2) as (_ & E).
  apply E; sample_le.
Defined.

Lemma quote_ends_message_witness :
  quoteFree (lit "kate") /\ quoteFree sample_ip /\ quoteFree (lit "say ")
  /\ jsonToClientMessage
       (clientMessageToJson
          (mkClientMessage (lit "kate")
             (lit "say " ++ dquote :: lit "hi")))
     = mkClientMessage (lit "kate") (lit "say ").
Proof.
  assert (H1 : quoteFree (lit "kate")) by sample_quoteFree.
  assert (H2 : quoteFree sample_ip) by sample_quoteFree.
  assert (H3 : quoteFree (lit "say ")) by sample_quoteFree.
  split; [exact H1|]. split; [exact H2|]. split; [exact H3|].
  destruct (quote_ends_message (lit "kate") sample_ip (lit "say ") (lit "hi")
              H1 H2 H3) as (E & _).
  exact E.
Defined.

Lemma bare_text_rejected_witness :
  quoteFree SERVER_QUIT_MSG
  /\ clientHandler_step send_all_fail 1 6 sample_ip Registered 7
       (jsonToClientMessage SERVER_QUIT_MSG) sample_three
     = (Leaving, sample_three).
Proof.
  assert (H : quoteFree SERVER_QUIT_MSG) by sample_quoteFree.
  split; [exact H|].
  destruct (bare_text_rejected send_all_fail 1 6 sample_ip 7 SERVER_QUIT_MSG
              sample_three H) as (_ & E & _).
  exact E.
Defined.

Lemma json_fits_buffer_witness :
  strlen (bcIP sample_broadcast) <= CLIENT_IP_LENGTH
  /\ strlen (bcUserID sample_broadcast) <= CLIENT_USERID_LENGTH
  /\ strlen (bcMessage sample_broadcast) <= BROADCAST_MESSAGE_LENGTH
  /\ strlen (cmUserID sample_hi) <= CLIENT_USERID_LENGTH
  /\ strlen (cmMessage sample_hi) <= CLIENT_MESSAGE_LENGTH
  /\ strlen (broadcastToJson sample_broadcast) + 1 <= JSON_LENGTH
  /\ strlen (clientMessageToJson sample_hi) + 1 <= JSON_LENGTH.
Proof.
  assert (H1 : strlen (bcIP sample_broadcast) <= CLIENT_IP_LENGTH)
    by sample_le.
  assert (H2 : strlen (bcUserID sample_broadcast) <= CLIENT_USERID_LENGTH)
    by sample_le.
  assert (H3 : strlen (bcMessage sample_broadcast) <= BROADCAST_MESSAGE_LENGTH)
    by sample_le.
  assert (H4 : strlen (cmUserID sample_hi) <= CLIENT_USERID_LENGTH)
    by sample_le.
  assert (H5 : strlen (cmMessage sample_hi) <= CLIENT_MESSAGE_LENGTH)
    by sample_le.
  split; [exact H1|]. split; [exact H2|]. split; [exact H3|].
  split; [exact H4|]. split; [exact H5|].
  destruct (json_fits_buffer sample_broadcast sample_hi H1 H2 H3 H4 H5)
    as (_ & _ & E1 & E2).
  split; [exact E1 | exact E2].
Defined.


Lemma received_broadcast_displayed_witness :
  ChatClient.history_inv ChatClient.messageHistory
  /\ strlen sample_time = 8
  /\ isFailureMessage (jsonToBroadcast (broadcastToJson sample_broadcast))
     = false
  /\ strlen
       (format_message
          (bcIP (jsonToBroadcast (broadcastToJson sample_broadcast)))
          (bcUserID (jsonToBroadcast (broadcastToJson sample_broadcast)))
          (if strcmp
                (bcUserID (jsonToBroadcast (broadcastToJson sample_broadcast)))
                (lit "A") =? 0
           then lit ">>" else lit "<<")
          (bcMessage (jsonToBroadcast (broadcastToJson sample_broadcast)))
          sample_time)
     = 79.
Proof.
  assert (H1 : ChatClient.history_inv ChatClient.messageHistory)
    by apply history_inv_init.
  assert (H2 : strlen sample_time = 8) by reflexivity.
  assert (H3 : isFailureMessage
                 (jsonToBroadcast (broadcastToJson sample_broadcast))
               = false) by reflexivity.
  split; [exact H1|]. split; [exact H2|]. split; [exact H3|].
  destruct (received_broadcast_displayed (lit "A") sample_time
              (broadcastToJson sample_broadcast) ChatClient.messageHistory
              H1 H2 H3) as (E & _).
  exact E.
Defined.

Lemma parseArguments_last_witness :
  parseArguments sample_argv [] 256 [] 256 = (lit "kate", lit "localhost").
Proof.
  destruct (parseArguments_last sample_argv [] 256 [] 256) as (E & _).
  rewrite E. reflexivity.
Defined.


(* ===================================================================== *)
(** ** The split point and the fan-out against what is said of them *)
(* ===================================================================== *)

(** C7: where the code leaves what the claim, and the comment of
    [splitString] itself, say.  For a text of more than 40 and at most 80
    characters whose last white space below position 40 is at [i], with 39
    or 40 characters from [i] on, a split at the white space would give two
    parts within the limit (the second one even with its white space), and
    splitting by white space does not exceed [maxSize]; yet the guard
    [inputLen - splitPoint >= maxSize - 1] sends the code to position 40:
    the first part is the first 40 characters, not the text before the
    white space. *)
Theorem splitString_refuses_fitting_space input i :
  BROADCAST_MESSAGE_LENGTH < strlen input <= CLIENT_MESSAGE_LENGTH ->
  lastSpaceBefore input BROADCAST_MESSAGE_LENGTH i ->
  BROADCAST_MESSAGE_LENGTH - 1 <= strlen input - i
    <= BROADCAST_MESSAGE_LENGTH ->
  strlen (take (Z.to_nat i) input) <= BROADCAST_MESSAGE_LENGTH
  /\ strlen (drop (Z.to_nat i) input) <= BROADCAST_MESSAGE_LENGTH
  /\ fst (splitString input BROADCAST_MESSAGE_LENGTH)
     = take (Z.to_nat BROADCAST_MESSAGE_LENGTH) input
  /\ fst (splitString input BROADCAST_MESSAGE_LENGTH)
     <> take (Z.to_nat i) input.
Proof.
  intros Hlen Hi Hfit.
  destruct (splitString_long input Hlen) as (_ & _ & _ & _ & _ & Hcut & _).
  specialize (Hcut i Hi ltac:(lia)).
  destruct Hi as (Hrange & _).
  unfold BROADCAST_MESSAGE_LENGTH, CLIENT_MESSAGE_LENGTH, strlen in *.
  split; [rewrite length_take; lia|].
  split; [rewrite length_drop; lia|].
  split; [exact Hcut|].
  rewrite Hcut. intros E. apply (f_equal length) in E.
  rewrite !length_take in E. lia.
Qed.

Lemma splitString_refuses_fitting_space_witness :
  BROADCAST_MESSAGE_LENGTH < strlen sample_split_input <= CLIENT_MESSAGE_LENGTH
  /\ lastSpaceBefore sample_split_input BROADCAST_MESSAGE_LENGTH 10
  /\ BROADCAST_MESSAGE_LENGTH - 1 <= strlen sample_split_input - 10
       <= BROADCAST_MESSAGE_LENGTH
  /\ strlen (drop 10 sample_split_input) <= BROADCAST_MESSAGE_LENGTH
  /\ fst (splitString sample_split_input BROADCAST_MESSAGE_LENGTH)
     = lit "xxxxxxxxxx yyyyyyyyyyyyyyyyyyyyyyyyyyyyy".
Proof.
  assert (Hlen : BROADCAST_MESSAGE_LENGTH < strlen sample_split_input
                 <= CLIENT_MESSAGE_LENGTH)
    by (vm_compute; split; [reflexivity | intro; discriminate]).
  assert (Hlast : lastSpaceBefore sample_split_input
                    BROADCAST_MESSAGE_LENGTH 10).
  { unfold BROADCAST_MESSAGE_LENGTH.
    split; [split; [intro; discriminate | reflexivity]|].
    split; [reflexivity|].
    intros j Hj.
    assert (Hall : forallb
              (fun k => negb (isspace (char_at sample_split_input k)))
              (seq 11 29) = true) by reflexivity.
    rewrite forallb_forall in Hall.
    specialize (Hall (Z.to_nat j)). apply negb_true_iff, Hall.
    apply in_seq. lia. }
  assert (Hfit : BROADCAST_MESSAGE_LENGTH - 1 <= strlen sample_split_input - 10
                 <= BROADCAST_MESSAGE_LENGTH)
    by (vm_compute; split; intro; discriminate).
  split; [exact Hlen|]. split; [exact Hlast|]. split; [exact Hfit|].
  destruct (splitString_refuses_fitting_space sample_split_input 10
              Hlen Hlast Hfit) as (_ & Hd & Hcut & _).
  split; [exact Hd|].
  rewrite Hcut. reflexivity.
Defined.

Lemma run_broadcastLoop_outcome_returns
    (send_outcome : Z -> cstring -> SendOutcome) msg i k w :
  0 <= i ->
  (Z.to_nat i + k <= length (connectedClients (shared w)))%nat ->
  sends_return send_outcome msg
    (take k (drop (Z.to_nat i) (connectedClients (shared w)))) ->
  broadcastLoop_outcome send_outcome msg i k w
  = (FlushCompleted,
     logged
       (map (fun c => EvSend (clientSocket c) msg)
          (take k (drop (Z.to_nat i) (connectedClients (shared w))))) w).
Proof.
  revert i w. induction k as [|k IH]; intros i w Hi Hlen Hret;
    cbn [broadcastLoop_outcome].
  - unfold ret, logged. rewrite take_0, app_nil_r. now destruct w.
  - pose proof (lookup_aget (connectedClients (shared w)) i ltac:(lia)) as Hc.
    rewrite (drop_S _ _ _ Hc) in Hret |- *. cbn [take map] in Hret |- *.
    inversion Hret as [|? ? [r Hr] Hrest]; subst.
    do 2 run_step. rewrite Hr.
    replace (Z.to_nat (i + 1)) with (S (Z.to_nat i)) in IH by lia.
    rewrite IH; rewrite ?shared_logged; try lia.
    + rewrite logged_logged.
      now replace (Z.to_nat (i + 1)) with (S (Z.to_nat i)) by lia.
    + now replace (Z.to_nat (i + 1)) with (S (Z.to_nat i)) by lia.
Qed.

Lemma run_broadcastLoop_outcome_sigpipe
    (send_outcome : Z -> cstring -> SendOutcome) msg i k w before c after :
  0 <= i ->
  (Z.to_nat i + k <= length (connectedClients (shared w)))%nat ->
  take k (drop (Z.to_nat i) (connectedClients (shared w)))
  = before ++ c :: after ->
  sends_return send_outcome msg before ->
  send_outcome (clientSocket c) msg = SendRaisesSIGPIPE ->
  broadcastLoop_outcome send_outcome msg i k w
  = (ProcessEnded (i + Z.of_nat (length before)),
     logged (map (fun b => EvSend (clientSocket b) msg) (before ++ [c])) w).
Proof.
  revert i w before. induction k as [|k IH]; intros i w before Hi Hlen Hcs Hret Hc;
    cbn [broadcastLoop_outcome].
  - rewrite take_0 in Hcs. now destruct before.
  - pose proof (lookup_aget (connectedClients (shared w)) i ltac:(lia)) as Hl.
    rewrite (drop_S _ _ _ Hl) in Hcs. cbn [take] in Hcs.
    do 2 run_step.
    destruct before as [|b before]; cbn [app] in Hcs; injection Hcs as Hhd Htl.
    + rewrite Hhd, Hc. unfold ret. cbn [length map app].
      now replace (i + Z.of_nat 0) with i by lia.
    + inversion Hret as [|? ? [r Hr] Hrest]; subst b.
      rewrite Hr.
      rewrite (IH (i + 1) _ before); rewrite ?shared_logged; try lia;
        try assumption.
      * rewrite logged_logged. cbn [length map app]. do 2 f_equal. lia.
      * now replace (Z.to_nat (i + 1)) with (S (Z.to_nat i)) by lia.
Qed.

(** C8: the fan-out with what each call of [send] does to the process.
    When every send of the flush returns, whatever it returns, the flush is
    as the claim says: lock, one send per entry registered at that moment,
    from index 0 upwards, unlock.  When the first send that does not return
    raises SIGPIPE (the peer of that entry has closed its connection), the
    process ends in that call: the entries after it get no send, contrary
    to the claim, and the lock is never released. *)
Theorem fanout_ends_at_sigpipe (send_outcome : Z -> cstring -> SendOutcome)
    msg w :
  registry_wf (shared w) ->
  (sends_return send_outcome msg (registered (shared w)) ->
   chatBroadcaster_flush send_outcome msg w
   = (FlushCompleted, logged (fanout msg (registered (shared w))) w))
  /\ (forall before c after,
        registered (shared w) = before ++ c :: after ->
        sends_return send_outcome msg before ->
        send_outcome (clientSocket c) msg = SendRaisesSIGPIPE ->
        chatBroadcaster_flush send_outcome msg w
        = (ProcessEnded (Z.of_nat (length before)),
           logged
             (EvLock
              :: map (fun b => EvSend (clientSocket b) msg) (before ++ [c]))
             w)).
Proof.
  intros [Hn Hlen _]. split.
  - intros Hret. unfold chatBroadcaster_flush.
    do 2 run_step. rewrite shared_logged.
    erewrite run_bind.
    2:{ apply run_broadcastLoop_outcome_returns; rewrite ?shared_logged;
          [lia | simpl; lia |].
        change (Z.to_nat 0) with 0%nat. rewrite drop_0. exact Hret. }
    cbv beta iota. run_step. unfold ret, fanout.
    rewrite shared_logged. change (Z.to_nat 0) with 0%nat. rewrite drop_0.
    rewrite !logged_logged. reflexivity.
  - intros before c after Hcs Hret Hc. unfold chatBroadcaster_flush.
    do 2 run_step. rewrite shared_logged.
    erewrite run_bind.
    2:{ apply (run_broadcastLoop_outcome_sigpipe send_outcome msg 0 _ _
                 before c after); rewrite ?shared_logged;
          [lia | simpl; lia | | exact Hret | exact Hc].
        change (Z.to_nat 0) with 0%nat. rewrite drop_0. exact Hcs. }
    cbv beta iota. unfold ret. rewrite logged_logged. reflexivity.
Qed.

Lemma fanout_ends_at_sigpipe_witness :
  registry_wf (shared sample_three)
  /\ registered (shared sample_three)
     = [] ++ mkClientState 0 sample_ip [ascii_of_nat 65] 5
          :: [mkClientState 1 sample_ip [ascii_of_nat 66] 6;
              mkClientState 2 sample_ip [ascii_of_nat 67] 7]
  /\ sample_peer_closed 5 (broadcastToJson sample_broadcast)
     = SendRaisesSIGPIPE
  /\ chatBroadcaster_flush sample_peer_closed
       (broadcastToJson sample_broadcast) sample_three
     = (ProcessEnded 0,
        logged [EvLock; EvSend 5 (broadcastToJson sample_broadcast)]
          sample_three).
Proof.
  assert (Hwf : registry_wf (shared sample_three))
    by (apply registry_wfb_true; vm_compute; reflexivity).
  assert (Hcs : registered (shared sample_three)
                = [] ++ mkClientState 0 sample_ip [ascii_of_nat 65] 5
                     :: [mkClientState 1 sample_ip [ascii_of_nat 66] 6;
                         mkClientState 2 sample_ip [ascii_of_nat 67] 7])
    by (vm_compute; reflexivity).
  assert (Hc : sample_peer_closed 5 (broadcastToJson sample_broadcast)
               = SendRaisesSIGPIPE) by reflexivity.
  split; [exact Hwf|]. split; [exact Hcs|]. split; [exact Hc|].
  destruct (fanout_ends_at_sigpipe sample_peer_closed
              (broadcastToJson sample_broadcast) sample_three Hwf)
    as (_ & H).
  apply (H [] _ _ Hcs); [constructor | exact Hc].
Defined.
